(** * PDF Q&A Assistant: chunking, document store, embedding index,
      retrieval and answer synthesis.

    A shallow embedding of [models/pdf_processor.py], [models/qa_engine.py]
    and the upload / delete / clear handlers of [main.py].

    Conventions.
    - A Python [str] is a [string]; its characters are the code points
      below 256.
    - A Python [int] that may be zero or negative ([chunk_size], [overlap],
      [top_k], slice bounds) is a [Z].
    - A similarity or confidence score is a rational [Q]; the code only
      compares scores and copies them.
    - The models (sentence encoder, cosine similarity, extractive QA
      pipeline) are fields of a record [Models.t]; a call either returns
      or raises. *)

From Stdlib Require Import List String Ascii ZArith NArith QArith Bool Lia.
From Stdlib Require Import DecimalString.
Import ListNotations.

Local Open Scope string_scope.
Local Open Scope list_scope.
Local Open Scope Z_scope.

(** ** Python string primitives *)

Module PyStr.

(** [c.isspace()] for a code point below 256: TAB..CR, FS..US, SPACE,
    NEL (0x85) and NBSP (0xA0). *)
Definition isspace (c : ascii) : bool :=
  let n := N_of_ascii c in
  (((9 <=? n) && (n <=? 13)) || ((28 <=? n) && (n <=? 32))
   || (n =? 133) || (n =? 160))%N.

(** [c.isalpha()] for a code point below 256. *)
Definition isalpha (c : ascii) : bool :=
  let n := N_of_ascii c in
  (((65 <=? n) && (n <=? 90)) || ((97 <=? n) && (n <=? 122))
   || (n =? 170) || (n =? 181) || (n =? 186)
   || ((192 <=? n) && (n <=? 214)) || ((216 <=? n) && (n <=? 246))
   || ((248 <=? n) && (n <=? 255)))%N.

(** The character class [[a-zA-Z]] of the regular expressions. *)
Definition is_ascii_letter (c : ascii) : bool :=
  let n := N_of_ascii c in
  (((65 <=? n) && (n <=? 90)) || ((97 <=? n) && (n <=? 122)))%N.

Definition is_empty (s : string) : bool :=
  match s with EmptyString => true | String _ _ => false end.

(** [len(s)] *)
Definition len (s : string) : Z := Z.of_nat (String.length s).

(** Every character of [s] satisfies [p]. *)
Fixpoint all_chars (p : ascii -> bool) (s : string) : bool :=
  match s with
  | EmptyString => true
  | String c s' => p c && all_chars p s'
  end.

(** [sum(1 for c in s if p(c))] *)
Fixpoint count_chars (p : ascii -> bool) (s : string) : Z :=
  match s with
  | EmptyString => 0
  | String c s' => (if p c then 1 else 0) + count_chars p s'
  end.

(** The maximal runs of characters satisfying [p]; [cur] is the run being
    read. *)
Fixpoint runs_from (p : ascii -> bool) (cur : string) (s : string)
  : list string :=
  match s with
  | EmptyString => if is_empty cur then [] else [cur]
  | String c s' =>
      if p c then runs_from p (cur ++ String c "")%string s'
      else if is_empty cur then runs_from p "" s'
      else cur :: runs_from p "" s'
  end.

Definition nonspace (c : ascii) : bool := negb (isspace c).

(** [s.split()]: the maximal runs of non-whitespace characters. *)
Definition split (s : string) : list string := runs_from nonspace "" s.

(** [re.findall(r'[a-zA-Z]+', s)] *)
Definition findall_letters (s : string) : list string :=
  runs_from is_ascii_letter "" s.

(** [sep.join(l)] *)
Definition join (sep : string) (l : list string) : string :=
  String.concat sep l.

(** [s.lstrip()], [s.rstrip()], [s.strip()] *)
Fixpoint lstrip (s : string) : string :=
  match s with
  | EmptyString => ""
  | String c s' => if isspace c then lstrip s' else s
  end.

Fixpoint rstrip (s : string) : string :=
  match s with
  | EmptyString => ""
  | String c s' =>
      let r := rstrip s' in
      if isspace c && is_empty r then "" else String c r
  end.

Definition strip (s : string) : string := rstrip (lstrip s).

(** [s.replace(c, '')] for a one-character [c]. *)
Fixpoint remove_char (c : ascii) (s : string) : string :=
  match s with
  | EmptyString => ""
  | String d s' =>
      if Ascii.eqb c d then remove_char c s' else String d (remove_char c s')
  end.

(** [s.split(sep)] for a non-empty [sep]: [skip] counts the characters of a
    separator just matched that are still to be passed over. *)
Fixpoint split_sep_from (sep : string) (skip : nat) (cur : string)
    (s : string) : list string :=
  match s with
  | EmptyString => [cur]
  | String c s' =>
      match skip with
      | S k => split_sep_from sep k cur s'
      | O =>
          if String.prefix sep s
          then cur :: split_sep_from sep (String.length sep - 1) "" s'
          else split_sep_from sep 0 (cur ++ String c "")%string s'
      end
  end.

Definition split_sep (sep : string) (s : string) : list string :=
  split_sep_from sep 0 "" s.

(** [s.find(sub)]: the first index at which [sub] occurs, or -1;
    [sub in s] is [0 <= s.find(sub)]. *)
Fixpoint find_from (sub : string) (i : Z) (s : string) : Z :=
  if String.prefix sub s then i
  else match s with
       | EmptyString => -1
       | String _ s' => find_from sub (i + 1) s'
       end.

Definition find (s sub : string) : Z := find_from sub 0 s.
Definition contains (s sub : string) : bool := 0 <=? find s sub.

(** [s[start:stop]] for [0 <= start] and [0 <= stop <= len(s)]. *)
Definition slice (s : string) (start stop : Z) : string :=
  String.substring (Z.to_nat start) (Z.to_nat (stop - start)) s.

(** [s.endswith(suffix)] *)
Definition endswith (s suffix : string) : bool :=
  let n := String.length s in
  let m := String.length suffix in
  (m <=? n)%nat && String.eqb (String.substring (n - m) m s) suffix.

(** [a or b] on an optional integer argument: [None] and [0] are falsy. *)
Definition int_or (a : option Z) (b : Z) : Z :=
  match a with
  | Some v => if v =? 0 then b else v
  | None => b
  end.

(** [l[start:]] on a list, with Python's treatment of a negative or
    out-of-range [start]. *)
Definition list_from {A : Type} (start : Z) (l : list A) : list A :=
  let n := Z.of_nat (List.length l) in
  let i := if start <? 0 then Z.max (n + start) 0 else Z.min start n in
  skipn (Z.to_nat i) l.

(** [l[:stop]] for [0 <= stop]. *)
Definition list_upto {A : Type} (stop : Z) (l : list A) : list A :=
  firstn (Z.to_nat stop) l.

End PyStr.

(** ** Exceptions, call trace and the method monad *)

Inductive exn :=
| ModelError (msg : string)        (* raised inside a model call *)
| RuntimeError (msg : string)      (* torch: k out of range *)
| TypeError (msg : string)
| IndexError
| FileNotFoundError (file_path : string)
| ExtractionError (msg : string)   (* Exception("Error extracting text ...") *)
| OSError (msg : string)           (* raised by [open] or by a write *)
| HTTPException (status_code : Z) (detail : string).

(** [str(n)] for an integer. *)
Definition int_str (n : Z) : string := NilZero.string_of_int (Z.to_int n).

(** [str(e)].  The text of an [HTTPException] is the one Starlette's
    [__str__] builds, the status code, a colon and the detail; releases
    without that method give the empty string instead, and nothing below
    relies on which of the two it is. *)
Definition exn_str (e : exn) : string :=
  match e with
  | ModelError msg | RuntimeError msg | TypeError msg
  | ExtractionError msg | OSError msg => msg
  | IndexError => "list index out of range"
  | FileNotFoundError p => "PDF file not found: " ++ p
  | HTTPException status_code detail =>
      (int_str status_code ++ ": " ++ detail)%string
  end.

Inductive outcome (A : Type) :=
| Returned (a : A)
| Raised (e : exn).
Arguments Returned {A} a.
Arguments Raised {A} e.

Definition is_returned {A : Type} (o : outcome A) : bool :=
  match o with Returned _ => true | Raised _ => false end.

(** What a run leaves in the trace: entries into the two query-time methods
    of the engine and every call of a model. *)
Inductive event :=
| Call_search_similar_chunks (query : string) (top_k : Z)
| Call_answer_question (question context : string)
| Call_encode (sentences : list string)
| Call_qa_pipeline (question context : string) (max_answer_len : Z)
    (top_k : option Z).

(** A method over an object of type [S]: it reads and writes the object,
    appends to the trace, and returns or raises.  A raise keeps the writes
    made before it. *)
Definition M (S A : Type) : Type :=
  S -> list event -> outcome A * S * list event.

Definition ret {S A : Type} (a : A) : M S A :=
  fun s tr => (Returned a, s, tr).

Definition raise {S A : Type} (e : exn) : M S A :=
  fun s tr => (Raised e, s, tr).

Definition bind {S A B : Type} (c : M S A) (k : A -> M S B) : M S B :=
  fun s tr =>
    match c s tr with
    | (Returned a, s', tr') => k a s' tr'
    | (Raised e, s', tr') => (Raised e, s', tr')
    end.

Definition get {S : Type} : M S S := fun s tr => (Returned s, s, tr).
Definition put {S : Type} (s : S) : M S unit := fun _ tr => (Returned tt, s, tr).
Definition emit {S : Type} (ev : event) : M S unit :=
  fun s tr => (Returned tt, s, tr ++ [ev]).

(** [try: c except Exception as e: handler(e)] *)
Definition try_except {S A : Type} (c : M S A) (handler : exn -> M S A)
  : M S A :=
  fun s tr =>
    match c s tr with
    | (Returned a, s', tr') => (Returned a, s', tr')
    | (Raised e, s', tr') => handler e s' tr'
    end.

(** A pure computation that may raise. *)
Definition lift {S A : Type} (o : outcome A) : M S A :=
  fun s tr => (o, s, tr).

(** Run a method of a component [T] of the object [S]. *)
Definition zoom {S T A : Type} (proj : S -> T) (upd : T -> S -> S)
    (c : M T A) : M S A :=
  fun s tr =>
    match c (proj s) tr with
    | (o, t', tr') => (o, upd t' s, tr')
    end.

Notation "x <- c1 ;; c2" := (bind c1 (fun x => c2))
  (at level 61, c1 at next level, right associativity).
Notation "c1 ;; c2" := (bind c1 (fun _ => c2))
  (at level 61, right associativity).
Notation "' pat <- c1 ;; c2" :=
  (bind c1 (fun x => match x with pat => c2 end))
  (at level 61, pat pattern, c1 at next level, right associativity).

Fixpoint mapM {S A B : Type} (f : A -> M S B) (l : list A) : M S (list B) :=
  match l with
  | [] => ret []
  | a :: l' => b <- f a ;; bs <- mapM f l' ;; ret (b :: bs)
  end.

(** ** Python dict as an insertion-ordered association list *)

Module Dict.
Section Dict.
Context {V : Type}.

Fixpoint mem (k : string) (d : list (string * V)) : bool :=
  match d with
  | [] => false
  | (k', _) :: d' => String.eqb k k' || mem k d'
  end.

(** [d[k] = v] *)
Fixpoint set (k : string) (v : V) (d : list (string * V))
  : list (string * V) :=
  match d with
  | [] => [(k, v)]
  | (k', v') :: d' =>
      if String.eqb k k' then (k', v) :: d' else (k', v') :: set k v d'
  end.

(** [del d[k]] for a key that is present. *)
Fixpoint del (k : string) (d : list (string * V)) : list (string * V) :=
  match d with
  | [] => []
  | (k', v') :: d' => if String.eqb k k' then d' else (k', v') :: del k d'
  end.

Fixpoint lookup (k : string) (d : list (string * V)) : option V :=
  match d with
  | [] => None
  | (k', v') :: d' => if String.eqb k k' then Some v' else lookup k d'
  end.

Definition values (d : list (string * V)) : list V := map snd d.

End Dict.
End Dict.

(** ** Chunker and document store ([models/pdf_processor.py]) *)

Module PDFProcessor.

Record Document := {
  path : string;
  chunks : list string;
  full_text : string
}.

(** [documents] is a Python dict: insertion-ordered, a store under an
    existing key keeps the key's position. *)
Record t := {
  documents : list (string * Document);
  text_chunks : list string;
  chunk_size : Z;
  overlap : Z
}.

(** [PDFProcessor(chunk_size, overlap)] *)
Definition init (chunk_size overlap : Z) : t :=
  {| documents := []; text_chunks := [];
     chunk_size := chunk_size; overlap := overlap |}.

(** [PDFProcessor()] *)
Definition default : t := init 500 50.

(** The body of [for word in words] in [chunk_text], on the pair
    [(chunks, current_chunk)]. *)
Fixpoint chunk_loop (chunk_size overlap : Z) (words : list string)
    (chunks : list string) (current_chunk : list string)
  : list string * list string :=
  match words with
  | [] => (chunks, current_chunk)
  | word :: rest =>
      let current_chunk := current_chunk ++ [word] in
      if Z.of_nat (List.length current_chunk) >=? chunk_size
      then chunk_loop chunk_size overlap rest
             (chunks ++ [PyStr.join " " current_chunk])
             (PyStr.list_from (- overlap) current_chunk)
      else chunk_loop chunk_size overlap rest chunks current_chunk
  end.

Definition chunk_text (self : t) (text : string)
    (chunk_size overlap : option Z) : list string :=
  let chunk_size := PyStr.int_or chunk_size self.(PDFProcessor.chunk_size) in
  let overlap := PyStr.int_or overlap self.(PDFProcessor.overlap) in
  let words := PyStr.split text in
  let '(chunks, current_chunk) := chunk_loop chunk_size overlap words [] [] in
  match current_chunk with
  | [] => chunks
  | _ :: _ => chunks ++ [PyStr.join " " current_chunk]
  end.

Definition _clean_text (text : string) : string :=
  let text := PyStr.join " " (PyStr.split text) in
  PyStr.remove_char "000"%char text.

(** A file on disk, as the text extraction sees it: PyPDF2 either yields
    the pages' text or raises. *)
Inductive pdf_file :=
| Readable (text : string)
| Unreadable (msg : string).

Definition filesystem := list (string * pdf_file).

(** [os.path.basename] *)
Fixpoint basename_from (cur : string) (p : string) : string :=
  match p with
  | EmptyString => cur
  | String c p' =>
      if Ascii.eqb c "/"%char then basename_from "" p'
      else basename_from (cur ++ String c "")%string p'
  end.
Definition basename (p : string) : string := basename_from "" p.

Definition extract_text_from_pdf (fs : filesystem) (file_path : string)
  : outcome string :=
  match Dict.lookup file_path fs with
  | Some (Readable text) => Returned text
  | Some (Unreadable msg) =>
      Raised (ExtractionError ("Error extracting text from PDF: " ++ msg))
  | None =>
      Raised (ExtractionError
                ("Error extracting text from PDF: No such file: " ++ file_path))
  end.

Definition process_pdf (fs : filesystem) (file_path : string)
    (doc_name : option string) : M t (list string) :=
  if negb (Dict.mem file_path fs) then raise (FileNotFoundError file_path)
  else
    text <- lift (extract_text_from_pdf fs file_path) ;;
    let text := _clean_text text in
    self <- get ;;
    let chunks := chunk_text self text None None in
    let doc_name :=
      match doc_name with
      | None => basename file_path
      | Some n => n
      end in
    put {| documents :=
             Dict.set doc_name
               {| path := file_path; chunks := chunks; full_text := text |}
               self.(documents);
           text_chunks := self.(text_chunks) ++ chunks;
           chunk_size := self.(chunk_size);
           overlap := self.(overlap) |} ;;
    ret chunks.

(** [get_document_info]: name, number of chunks, length of the text. *)
Definition get_document_info (self : t) : list (string * (Z * Z)) :=
  map (fun '(doc_name, doc_data) =>
         (doc_name, (Z.of_nat (List.length doc_data.(chunks)),
                     PyStr.len doc_data.(full_text))))
      self.(documents).

Definition clear_documents : M t unit :=
  self <- get ;;
  put {| documents := []; text_chunks := [];
         chunk_size := self.(chunk_size); overlap := self.(overlap) |}.

End PDFProcessor.


(** ** The models *)

Module Models.

(** A dense embedding vector. *)
Definition vec := list Q.

(** The dict returned by the question-answering pipeline. *)
Record QAResult := {
  answer : string;
  score : Q;
  start : option Z;
  end_ : option Z
}.

Record t := {
  (** [SentenceTransformer.encode] on one sentence; a list of sentences is
      encoded sentence by sentence, in order. *)
  encode : string -> outcome vec;
  (** [util.pytorch_cos_sim] on two vectors. *)
  cos_sim : vec -> vec -> Q;
  (** [pipeline("question-answering")(question=, context=,
      max_answer_len=, [top_k=])] *)
  qa_pipeline : string -> string -> Z -> option Z -> outcome QAResult
}.

Fixpoint encode_all (m : t) (sentences : list string) : outcome (list vec) :=
  match sentences with
  | [] => Returned []
  | s :: rest =>
      match encode m s with
      | Raised e => Raised e
      | Returned v =>
          match encode_all m rest with
          | Raised e => Raised e
          | Returned vs => Returned (v :: vs)
          end
      end
  end.

(** [torch.topk(scores, k)]: the [k] largest scores with their indices, in
    descending order of score (equal scores in index order); raises unless
    [0 <= k <= len(scores)]. *)
Fixpoint insert_desc (x : Q * nat) (l : list (Q * nat)) : list (Q * nat) :=
  match l with
  | [] => [x]
  | y :: l' =>
      if Qle_bool (fst y) (fst x) then x :: y :: l'
      else y :: insert_desc x l'
  end.

Fixpoint enumerate_from (i : nat) (scores : list Q) : list (Q * nat) :=
  match scores with
  | [] => []
  | q :: rest => (q, i) :: enumerate_from (S i) rest
  end.

Definition sort_desc (l : list (Q * nat)) : list (Q * nat) :=
  fold_right insert_desc [] l.

Definition topk (scores : list Q) (k : Z) : outcome (list (Q * nat)) :=
  if (k <? 0) || (Z.of_nat (List.length scores) <? k)
  then Raised (RuntimeError "selected index k out of range")
  else Returned (firstn (Z.to_nat k) (sort_desc (enumerate_from 0 scores))).

End Models.

(** ** Embedding index, retrieval and answer synthesis
       ([models/qa_engine.py]) *)

Module QAEngine.

Record t := {
  text_chunks : list string;
  embeddings : option (list Models.vec)
}.

(** The state set up by [__init__]. *)
Definition init : t := {| text_chunks := []; embeddings := None |}.

(** The dict returned by [answer_question]. *)
Record Answer := {
  answer : string;
  score : Q;
  start : Z;
  end_ : Z;
  error : option string
}.

(** The dict returned by [process_query]; [relevant_chunks] pairs each
    chunk's text with its similarity. *)
Record QueryResult := {
  question : string;
  q_answer : string;
  relevant_chunks : list (string * Q);
  confidence : Q
}.

Definition call_encode {S : Type} (m : Models.t) (sentences : list string)
  : M S (list Models.vec) :=
  emit (Call_encode sentences) ;;
  lift (Models.encode_all m sentences).

Definition call_qa_pipeline {S : Type} (m : Models.t)
    (question context : string) (max_answer_len : Z) (top_k : option Z)
  : M S Models.QAResult :=
  emit (Call_qa_pipeline question context max_answer_len top_k) ;;
  lift (Models.qa_pipeline m question context max_answer_len top_k).

Definition _compute_embeddings (m : Models.t) : M t unit :=
  self <- get ;;
  es <- call_encode m self.(text_chunks) ;;
  put {| text_chunks := self.(text_chunks); embeddings := Some es |}.

Definition add_documents (m : Models.t) (chunks : list string) : M t unit :=
  self <- get ;;
  put {| text_chunks := self.(text_chunks) ++ chunks;
         embeddings := self.(embeddings) |} ;;
  _compute_embeddings m.

Definition search_similar_chunks (m : Models.t) (query : string) (top_k : Z)
  : M t (list (string * Q)) :=
  emit (Call_search_similar_chunks query top_k) ;;
  self <- get ;;
  if Z.of_nat (List.length self.(text_chunks)) =? 0 then ret []
  else
    qe <- call_encode m [query] ;;
    query_embedding <-
      match qe with
      | v :: _ => ret v
      | [] => raise IndexError
      end ;;
    similarity_scores <-
      match self.(embeddings) with
      | Some es => ret (map (Models.cos_sim m query_embedding) es)
      | None => raise (TypeError "embeddings is None")
      end ;;
    top_results <-
      lift (Models.topk similarity_scores
              (Z.min top_k (Z.of_nat (List.length self.(text_chunks))))) ;;
    mapM (fun '(score, idx) =>
            match nth_error self.(text_chunks) idx with
            | Some chunk => ret (chunk, score)
            | None => raise IndexError
            end)
         top_results.

(** The double nearest to 0.3. *)
Definition threshold_0_3 : Q := 5404319552844595 # 18014398509481984.

Definition sentences_of (context : string) : list string :=
  PyStr.split_sep ". " context.

Definition word_count (s : string) : Z :=
  Z.of_nat (List.length (PyStr.split s)).

Definition _enhance_answer (answer context question : string) : string :=
  let answer :=
    if word_count answer <? 100 then
      if PyStr.contains context answer then
        let idx := PyStr.find context answer in
        let start := Z.max 0 (idx - 300) in
        let stop := Z.min (PyStr.len context) (idx + PyStr.len answer + 500) in
        let expanded := PyStr.strip (PyStr.slice context start stop) in
        let sentences := sentences_of expanded in
        if 2 <? Z.of_nat (List.length sentences)
        then (PyStr.join ". " (PyStr.list_upto 5 sentences) ++ ".")%string
        else if 1 <? Z.of_nat (List.length sentences)
        then (PyStr.join ". " sentences ++ ".")%string
        else answer
      else
        let sentences := sentences_of context in
        if 3 <? Z.of_nat (List.length sentences)
        then (PyStr.join ". " (PyStr.list_upto 4 sentences) ++ ".")%string
        else context
    else answer in
  if word_count answer <? 50 then
    let sentences := sentences_of context in
    (PyStr.join ". " (PyStr.list_upto 3 sentences) ++ ". " ++ answer)%string
  else answer.

Definition _generate_fallback_answer (context question : string) : string :=
  let sentences := sentences_of context in
  if 4 <=? Z.of_nat (List.length sentences)
  then (PyStr.join ". " (PyStr.list_upto 4 sentences) ++ ".")%string
  else if 2 <=? Z.of_nat (List.length sentences)
  then (PyStr.join ". " sentences ++ ".")%string
  else context.

Definition insufficient_context : Answer :=
  {| answer := "Insufficient context to answer the question.";
     score := 0; start := 0; end_ := 0; error := None |}.

Definition unable_to_answer (e : exn) : Answer :=
  {| answer := "Unable to generate answer from the provided context.";
     score := 0; start := 0; end_ := 0; error := Some (exn_str e) |}.

(** [answer_question] with the two helpers it reaches through [self] as
    arguments, each free to raise. *)
Definition answer_question_with
    (fallback : string -> string -> M t string)
    (enhance : string -> string -> string -> M t string)
    (m : Models.t) (question context : string) (max_answer_length : Z)
  : M t Answer :=
  emit (Call_answer_question question context) ;;
  try_except
    (if PyStr.is_empty context || (PyStr.len (PyStr.strip context) <? 50)
     then ret insufficient_context
     else
       let max_context_length := 2048 in
       let context :=
         if max_context_length <? word_count context
         then PyStr.join " "
                (PyStr.list_upto max_context_length (PyStr.split context))
         else context in
       '(answer, score, result) <-
         try_except
           (result <- call_qa_pipeline m question context
                        max_answer_length None ;;
            let answer := PyStr.strip result.(Models.answer) in
            let score := result.(Models.score) in
            if (word_count answer <? 20)
               || negb (Qle_bool threshold_0_3 score)
            then
              result <- call_qa_pipeline m question context
                          max_answer_length (Some 1) ;;
              ret (PyStr.strip result.(Models.answer),
                   result.(Models.score),
                   (result.(Models.start), result.(Models.end_)))
            else
              ret (answer, score,
                   (result.(Models.start), result.(Models.end_))))
           (fun qa_error =>
              answer <- fallback context question ;;
              ret (answer, 1 # 2, (Some 0, Some (PyStr.len answer)))) ;;
       enhanced_answer <- enhance answer context question ;;
       ret {| answer := enhanced_answer;
              score := score;
              start := match fst result with Some v => v | None => 0 end;
              end_ := match snd result with
                      | Some v => v
                      | None => PyStr.len enhanced_answer
                      end;
              error := None |})
    (fun e => ret (unable_to_answer e)).

Definition answer_question
  : Models.t -> string -> string -> Z -> M t Answer :=
  answer_question_with
    (fun context question => ret (_generate_fallback_answer context question))
    (fun answer context question =>
       ret (_enhance_answer answer context question)).

(** The test [alpha_count / total_chars < 0.5] divides two string lengths;
    it holds exactly when [2 * alpha_count < total_chars]. *)
Definition _is_valid_question (question : string) : bool :=
  if PyStr.is_empty question || (PyStr.len (PyStr.strip question) <? 3)
  then false
  else
    let alpha_count := PyStr.count_chars PyStr.isalpha question in
    let total_chars := PyStr.len (PyStr.strip question) in
    if (0 <? total_chars) && (2 * alpha_count <? total_chars) then false
    else
      let words := PyStr.findall_letters question in
      if Z.of_nat (List.length words) =? 0 then false
      else true.

Definition process_query (m : Models.t) (question : string) (top_k : Z)
  : M t QueryResult :=
  if negb (_is_valid_question question) then
    ret {| question := question;
           q_answer := "Please ask a meaningful question with actual words (not just symbols).";
           relevant_chunks := [];
           confidence := 0 |}
  else
    self <- get ;;
    if Z.of_nat (List.length self.(text_chunks)) =? 0 then
      ret {| question := question;
             q_answer := "No documents have been uploaded yet.";
             relevant_chunks := [];
             confidence := 0 |}
    else
      let top_k := Z.min 3 top_k in
      relevant_chunks <- search_similar_chunks m question top_k ;;
      match relevant_chunks with
      | [] =>
          ret {| question := question;
                 q_answer := "No relevant information found in the documents.";
                 relevant_chunks := [];
                 confidence := 0 |}
      | _ :: _ =>
          let context := PyStr.join " " (map fst relevant_chunks) in
          answer_result <- answer_question m question context 500 ;;
          ret {| question := question;
                 q_answer := answer_result.(answer);
                 relevant_chunks := relevant_chunks;
                 confidence := answer_result.(score) |}
      end.

Definition clear_documents : M t unit :=
  put {| text_chunks := []; embeddings := None |}.

End QAEngine.

(** ** Upload, delete and clear handlers ([main.py]) *)

Module Main.

Record App := {
  files : PDFProcessor.filesystem;
  pdf_processor : PDFProcessor.t;
  qa_engine : QAEngine.t
}.

(** The module-level objects [pdf_processor = PDFProcessor()] and
    [qa_engine = QAEngine()]. *)
Definition startup : App :=
  {| files := [];
     pdf_processor := PDFProcessor.default;
     qa_engine := QAEngine.init |}.

Definition UPLOAD_DIR : string := "uploads".

(** [os.path.join(dir, name)] *)
Definition path_join (dir name : string) : string :=
  if String.prefix "/" name then name else (dir ++ "/" ++ name)%string.

Definition set_files (f : PDFProcessor.filesystem) (app : App) : App :=
  {| files := f; pdf_processor := app.(pdf_processor);
     qa_engine := app.(qa_engine) |}.
Definition set_pdf_processor (p : PDFProcessor.t) (app : App) : App :=
  {| files := app.(files); pdf_processor := p;
     qa_engine := app.(qa_engine) |}.
Definition set_qa_engine (q : QAEngine.t) (app : App) : App :=
  {| files := app.(files); pdf_processor := app.(pdf_processor);
     qa_engine := q |}.

Definition on_pdf_processor {A : Type} (c : M PDFProcessor.t A) : M App A :=
  zoom pdf_processor set_pdf_processor c.
Definition on_qa_engine {A : Type} (c : M QAEngine.t A) : M App A :=
  zoom qa_engine set_qa_engine c.

(** [try: c except Exception as e: raise HTTPException(500, prefix + str(e))] *)
Definition or_500 {A : Type} (prefix : string) (c : M App A) : M App A :=
  try_except c
    (fun e => raise (HTTPException 500 (prefix ++ exn_str e)%string)).

(** What saving an upload under the upload directory does: [open] and
    the copy leave the file on disk; or [open] raises (a directory part
    that does not exist, a null character in the name) and nothing is
    written; or a write raises and what was written so far stays. *)
Inductive upload :=
| Saved (content : PDFProcessor.pdf_file)
| OpenRaises (msg : string)
| CopyRaises (msg : string) (partial : PDFProcessor.pdf_file).

(** [upload_pdf]: [file] is the uploaded file and what saving it does; the
    response carries the number of chunks and of documents. *)
Definition upload_pdf (m : Models.t) (filename : string) (file : upload)
  : M App (Z * Z) :=
  or_500 "Error processing PDF: "
    (if negb (PyStr.endswith filename ".pdf")
     then raise (HTTPException 400 "Only PDF files are allowed")
     else
       let file_path := path_join UPLOAD_DIR filename in
       match file with
       | OpenRaises msg => raise (OSError msg)
       | CopyRaises msg partial =>
           app <- get ;;
           put (set_files (Dict.set file_path partial app.(files)) app) ;;
           raise (OSError msg)
       | Saved content =>
           app <- get ;;
           put (set_files (Dict.set file_path content app.(files)) app) ;;
           app <- get ;;
           chunks <- on_pdf_processor
                       (PDFProcessor.process_pdf app.(files) file_path
                          (Some filename)) ;;
           on_qa_engine (QAEngine.add_documents m chunks) ;;
           app <- get ;;
           ret (Z.of_nat (List.length chunks),
                Z.of_nat (List.length
                            app.(pdf_processor).(PDFProcessor.documents)))
       end).

Definition delete_document (m : Models.t) (doc_name : string) : M App unit :=
  or_500 "Error deleting document: "
    (app <- get ;;
     let p := app.(pdf_processor) in
     if negb (Dict.mem doc_name p.(PDFProcessor.documents))
     then raise (HTTPException 404 "Document not found")
     else
       let p' :=
         {| PDFProcessor.documents :=
              Dict.del doc_name p.(PDFProcessor.documents);
            PDFProcessor.text_chunks := p.(PDFProcessor.text_chunks);
            PDFProcessor.chunk_size := p.(PDFProcessor.chunk_size);
            PDFProcessor.overlap := p.(PDFProcessor.overlap) |} in
       put (set_pdf_processor p' app) ;;
       let all_chunks :=
         flat_map PDFProcessor.chunks
           (Dict.values p'.(PDFProcessor.documents)) in
       app <- get ;;
       put (set_qa_engine
              {| QAEngine.text_chunks := all_chunks;
                 QAEngine.embeddings :=
                   app.(qa_engine).(QAEngine.embeddings) |} app) ;;
       match all_chunks with
       | _ :: _ => on_qa_engine (QAEngine._compute_embeddings m)
       | [] =>
           app <- get ;;
           put (set_qa_engine
                  {| QAEngine.text_chunks :=
                       app.(qa_engine).(QAEngine.text_chunks);
                     QAEngine.embeddings := None |} app)
       end ;;
       let file_path := path_join UPLOAD_DIR doc_name in
       app <- get ;;
       if Dict.mem file_path app.(files)
       then put (set_files (Dict.del file_path app.(files)) app)
       else ret tt).

Definition clear_all : M App unit :=
  or_500 "Error clearing documents: "
    (app <- get ;;
     let p := app.(pdf_processor) in
     put (set_pdf_processor
            {| PDFProcessor.documents := [];
               PDFProcessor.text_chunks := [];
               PDFProcessor.chunk_size := p.(PDFProcessor.chunk_size);
               PDFProcessor.overlap := p.(PDFProcessor.overlap) |} app) ;;
     on_qa_engine QAEngine.clear_documents ;;
     app <- get ;;
     put (set_files [] app)).

Inductive request :=
| Upload (filename : string) (file : upload)
| Delete (doc_name : string)
| Clear.

Definition handle (m : Models.t) (r : request) : M App unit :=
  match r with
  | Upload filename file => upload_pdf m filename file ;; ret tt
  | Delete doc_name => delete_document m doc_name
  | Clear => clear_all
  end.

(** The server answers the requests one after the other; a handler that
    raises leaves its writes behind and the next request is served. *)
Fixpoint serve (m : Models.t) (rs : list request) (app : App)
    (tr : list event) : list (outcome unit) * App * list event :=
  match rs with
  | [] => ([], app, tr)
  | r :: rs' =>
      match handle m r app tr with
      | (o, app', tr') =>
          match serve m rs' app' tr' with
          | (os, app'', tr'') => (o :: os, app'', tr'')
          end
      end
  end.

(** [ask_question]: the response carries the dict of [process_query]. *)
Definition ask_question (m : Models.t) (question : string) (top_k : Z)
  : M App QAEngine.QueryResult :=
  or_500 "Error processing question: "
    (if PyStr.is_empty (PyStr.strip question)
     then raise (HTTPException 400 "Question cannot be empty")
     else
       let words := PyStr.findall_letters question in
       if Z.of_nat (List.length words) =? 0
       then raise (HTTPException 400
                     "Question must contain actual words, not just symbols")
       else
         result <- on_qa_engine (QAEngine.process_query m question top_k) ;;
         ret result).

(** [get_documents]: the number of documents and, for each, its name, its
    number of chunks and the length of its text. *)
Definition get_documents : M App (Z * list (string * (Z * Z))) :=
  or_500 "Error retrieving documents: "
    (app <- get ;;
     let doc_info := PDFProcessor.get_document_info app.(pdf_processor) in
     let documents := doc_info in
     ret (Z.of_nat (List.length documents), documents)).

(** [health_check]: [documents_loaded] and [chunks_indexed]. *)
Definition health_check (app : App) : Z * Z :=
  (Z.of_nat (List.length app.(pdf_processor).(PDFProcessor.documents)),
   Z.of_nat (List.length app.(qa_engine).(QAEngine.text_chunks))).

End Main.

(** ** Properties stated on the state *)

(** One vector per chunk, in the chunks' order; no index when there is no
    chunk. *)
Definition index_aligned (m : Models.t) (self : QAEngine.t) : Prop :=
  match self.(QAEngine.embeddings) with
  | None => self.(QAEngine.text_chunks) = []
  | Some es =>
      List.length es = List.length self.(QAEngine.text_chunks)
      /\ Forall2 (fun chunk v => Models.encode m chunk = Returned v)
           self.(QAEngine.text_chunks) es
  end.

(** Every call of the encoder recorded in the trace returned. *)
Definition encode_calls_returned (m : Models.t) (tr : list event) : bool :=
  forallb (fun ev =>
             match ev with
             | Call_encode sentences =>
                 is_returned (Models.encode_all m sentences)
             | _ => true
             end) tr.

(** The sum over the stored documents of their chunk counts. *)
Definition total_chunk_count (self : PDFProcessor.t) : nat :=
  list_sum (map (fun d => List.length d.(PDFProcessor.chunks))
              (Dict.values self.(PDFProcessor.documents))).

(** Scores in non-increasing order. *)
Fixpoint non_increasing (l : list Q) : Prop :=
  match l with
  | [] => True
  | x :: l' =>
      match l' with
      | [] => True
      | y :: _ => (y <= x)%Q
      end /\ non_increasing l'
  end.

(** A word: non-empty and free of whitespace. *)
Definition is_word (w : string) : Prop :=
  w <> "" /\ PyStr.all_chars PyStr.nonspace w = true.

(** The last [n] elements of a list. *)
Definition lastn {A : Type} (n : nat) (l : list A) : list A :=
  skipn (List.length l - n) l.

(** The loop of [chunk_text] with every chunk kept as its list of words
    instead of their join. *)
Fixpoint chunk_loop_words (chunk_size overlap : Z) (words : list string)
    (chunks : list (list string)) (current_chunk : list string)
  : list (list string) * list string :=
  match words with
  | [] => (chunks, current_chunk)
  | word :: rest =>
      let current_chunk := current_chunk ++ [word] in
      if Z.of_nat (List.length current_chunk) >=? chunk_size
      then chunk_loop_words chunk_size overlap rest
             (chunks ++ [current_chunk])
             (PyStr.list_from (- overlap) current_chunk)
      else chunk_loop_words chunk_size overlap rest chunks current_chunk
  end.

Definition chunk_words (chunk_size overlap : Z) (words : list string)
  : list (list string) :=
  let '(chunks, current_chunk) :=
    chunk_loop_words chunk_size overlap words [] [] in
  match current_chunk with
  | [] => chunks
  | _ :: _ => chunks ++ [current_chunk]
  end.

(** Every two neighbours of a list are related by [R]. *)
Definition adjacent {A : Type} (R : A -> A -> Prop) (l : list A) : Prop :=
  forall i a b,
    nth_error l i = Some a -> nth_error l (S i) = Some b -> R a b.

(** [b] starts with the last [n] words of [a], and there are [n] of them. *)
Definition overlaps (n : nat) (a b : list string) : Prop :=
  firstn n b = lastn n a /\ List.length (firstn n b) = n.

(** What the loop keeps true with chunks of 5 words overlapping by 2. *)
Definition inv_5_2 (chunks : list (list string)) (cur : list string) : Prop :=
  adjacent (overlaps 2) chunks
  /\ (List.length cur < 5)%nat
  /\ (forall a, nth_error chunks (List.length chunks - 1) = Some a ->
                chunks <> [] ->
                firstn 2 cur = lastn 2 a /\ (2 <= List.length cur)%nat).

(** The context [answer_question] hands to the pipeline: the first 2048
    words when there are more. *)
Definition truncated_context (context : string) : string :=
  if 2048 <? QAEngine.word_count context
  then PyStr.join " " (PyStr.list_upto 2048 (PyStr.split context))
  else context.


(** What a handler does to the index: the trace grows, and if the encoder
    calls it made returned, alignment is kept. *)
Definition keeps_aligned (m : Models.t) (app : Main.App) (tr : list event)
    (app' : Main.App) (tr' : list event) : Prop :=
  exists new,
    tr' = tr ++ new
    /\ (encode_calls_returned m new = true ->
        index_aligned m app.(Main.qa_engine) ->
        index_aligned m app'.(Main.qa_engine)).

(** ** Concrete models for the examples *)

(** An encoder that maps a sentence to its length, a similarity that
    multiplies first components, and a pipeline that always answers. *)
Definition toy_models : Models.t :=
  {| Models.encode := fun s => Returned [Z.of_nat (String.length s) # 1];
     Models.cos_sim :=
       fun a b => (hd 0 a * hd 0 b)%Q;
     Models.qa_pipeline :=
       fun _ _ _ _ =>
         Returned {| Models.answer := "Paris"; Models.score := 9 # 10;
                     Models.start := Some 0; Models.end_ := Some 5 |} |}.

(** Models that are unavailable: every call raises. *)
Definition failing_models : Models.t :=
  {| Models.encode := fun _ => Raised (ModelError "encoder unavailable");
     Models.cos_sim := fun _ _ => 0%Q;
     Models.qa_pipeline :=
       fun _ _ _ _ => Raised (ModelError "pipeline unavailable") |}.

Definition paris_context : string :=
  "Paris is the capital of France. It has a population of over two million.".





(** A run of the server: two uploads, a delete that succeeds, one that
    meets no document, a clear and a last upload. *)
Definition example_requests : list Main.request :=
  [ Main.Upload "a.pdf" (Main.Saved (PDFProcessor.Readable "alpha beta"));
    Main.Upload "b.pdf" (Main.Saved (PDFProcessor.Readable "gamma"));
    Main.Delete "a.pdf";
    Main.Delete "missing.pdf";
    Main.Clear;
    Main.Upload "c.pdf" (Main.Saved (PDFProcessor.Readable "delta  epsilon")) ].

(** The processor after two [process_pdf] calls under the name [a.pdf],
    the file holding first the text [x] and then the text [y]. *)
Definition ingested_twice : PDFProcessor.t :=
  let p1 :=
    snd (fst (PDFProcessor.process_pdf
                [("uploads/a.pdf", PDFProcessor.Readable "x")]
                "uploads/a.pdf" (Some "a.pdf") PDFProcessor.default [])) in
  snd (fst (PDFProcessor.process_pdf
              [("uploads/a.pdf", PDFProcessor.Readable "y")]
              "uploads/a.pdf" (Some "a.pdf") p1 [])).

(** The loop of [search_similar_chunks] that pairs each selected score
    with the text of its chunk. *)
Definition collect_results (text_chunks : list string)
  : list (Q * nat) -> M QAEngine.t (list (string * Q)) :=
  mapM (fun '(score, idx) =>
          match nth_error text_chunks idx with
          | Some chunk => ret (chunk, score)
          | None => raise IndexError
          end).

(** An engine holding three chunks and their encodings by [toy_models]. *)
Definition example_engine : QAEngine.t :=
  {| QAEngine.text_chunks := ["aa"; "b"; "cccc"];
     QAEngine.embeddings := Some [[2 # 1]; [1 # 1]; [4 # 1]] |}.

(** ** Further definitions for the chunker *)

(** The words back from a list of chunks that overlap by [o] words: the
    first chunk, then every later chunk without its first [o] words. *)
Definition unchunk (o : nat) (chunks : list (list string)) : list string :=
  match chunks with
  | [] => []
  | first :: rest => first ++ flat_map (skipn o) rest
  end.

(** What the loop of [chunk_text] keeps true for a chunk size [c] and an
    overlap [o] below it, once the words [done] have been read. *)
Definition chunk_inv (c o : nat) (done : list string)
    (chunks : list (list string)) (cur : list string) : Prop :=
  adjacent (overlaps o) chunks
  /\ Forall (fun ch => List.length ch = c) chunks
  /\ (List.length cur < c)%nat
  /\ (forall a, nth_error chunks (List.length chunks - 1) = Some a ->
                chunks <> [] ->
                firstn o cur = lastn o a /\ (o <= List.length cur)%nat)
  /\ unchunk o chunks
       ++ match chunks with [] => cur | _ :: _ => skipn o cur end
     = done.

(** With an overlap of 0 the window is never cut: after the words [done]
    of [all], the chunks are the prefixes of [all] of [c] words and more. *)
Definition cumulative_inv (c : nat) (all done : list string)
    (chunks : list (list string)) (cur : list string) : Prop :=
  cur = done
  /\ chunks
     = map (fun k => firstn k all) (seq c (List.length done + 1 - c)).

(** How many chunks the loop of [chunk_text] has emitted and how long the
    window is once [k] words have been read, for an overlap [ov] that is
    positive and below the chunk size [cs]. *)
Definition count_inv (cs ov k : Z) (chunks : list (list string))
    (cur : list string) : Prop :=
  (k < cs /\ chunks = [] /\ Z.of_nat (List.length cur) = k)
  \/ (exists q r,
         0 <= q /\ 0 <= r < cs - ov
         /\ k - cs = q * (cs - ov) + r
         /\ Z.of_nat (List.length chunks) = q + 1
         /\ Z.of_nat (List.length cur) = ov + r).

(** ** Further definitions for the document store *)

(** No character of [s] is the null character. *)
Definition nul_free (s : string) : bool :=
  PyStr.all_chars (fun c => negb (Ascii.eqb "000"%char c)) s.

(** The keys of a dict, in order. *)
Definition keys {V : Type} (d : list (string * V)) : list string :=
  map fst d.

(** The name [process_pdf] stores a document under. *)
Definition stored_name (file_path : string) (doc_name : option string)
  : string :=
  match doc_name with
  | None => PDFProcessor.basename file_path
  | Some n => n
  end.

(** No character of [s] is a slash. *)
Definition slash_free (s : string) : bool :=
  PyStr.all_chars (fun c => negb (Ascii.eqb c "/"%char)) s.

(** ** Further definitions for the handlers *)

(** The encoder returns on every sentence. *)
Definition encoder_total (m : Models.t) : Prop :=
  forall s, is_returned (Models.encode m s) = true.

(** The engine's corpus is the chunks of the stored documents, in order. *)
Definition corpus_matches (app : Main.App) : Prop :=
  app.(Main.qa_engine).(QAEngine.text_chunks)
  = flat_map PDFProcessor.chunks
      (Dict.values app.(Main.pdf_processor).(PDFProcessor.documents)).

(** What every request keeps true of the store: no name is stored twice,
    the chunk size and overlap are those of the start, every document's
    chunks are the chunks of its text, its path is the upload path of its
    name, and the engine's corpus and the documents' chunks are among the
    chunks the processor has recorded. *)
Definition store_inv (app : Main.App) : Prop :=
  let p := app.(Main.pdf_processor) in
  NoDup (keys p.(PDFProcessor.documents))
  /\ p.(PDFProcessor.chunk_size) = 500
  /\ p.(PDFProcessor.overlap) = 50
  /\ Forall (fun kd =>
               (snd kd).(PDFProcessor.chunks)
               = PDFProcessor.chunk_text PDFProcessor.default
                   (snd kd).(PDFProcessor.full_text) None None
               /\ (snd kd).(PDFProcessor.path)
                  = Main.path_join Main.UPLOAD_DIR (fst kd)
               /\ incl (snd kd).(PDFProcessor.chunks)
                       p.(PDFProcessor.text_chunks))
            p.(PDFProcessor.documents)
  /\ incl app.(Main.qa_engine).(QAEngine.text_chunks)
          p.(PDFProcessor.text_chunks).

(** ** File name helpers ([utils/file_handler.py]) *)

Module FileHandler.

(** [c.lower()] for a code point below 256. *)
Definition lower_char (c : ascii) : ascii :=
  let n := N_of_ascii c in
  if (((65 <=? n) && (n <=? 90))
      || ((192 <=? n) && (n <=? 222) && negb (n =? 215)))%N
  then ascii_of_N (n + 32)
  else c.

(** [s.lower()] *)
Fixpoint lower (s : string) : string :=
  match s with
  | EmptyString => ""
  | String c s' => String (lower_char c) (lower s')
  end.

Definition is_pdf_file (filename : string) : bool :=
  PyStr.endswith (lower filename) ".pdf".

End FileHandler.

(** Some character of [s] is an ASCII letter. *)
Definition has_ascii_letter (s : string) : bool :=
  negb (PyStr.all_chars (fun c => negb (PyStr.is_ascii_letter c)) s).

(** The events a call of [answer_question] may append after the entry
    into the method: no call of the pipeline, one, or one and the retry
    with [top_k = 1]. *)
Definition pipeline_calls (question context : string)
    (max_answer_length : Z) : list (list event) :=
  [ [];
    [Call_qa_pipeline question context max_answer_length None];
    [Call_qa_pipeline question context max_answer_length None;
     Call_qa_pipeline question context max_answer_length (Some 1)] ].

(** ** Facts about the string primitives *)

Section StringFacts.

Local Open Scope string_scope.

Lemma append_empty_r (s : string) : (s ++ "")%string = s.
Proof. induction s as [|c s IH]; simpl; [reflexivity | now rewrite IH]. Qed.

Lemma append_assoc (a b c : string) :
  ((a ++ b) ++ c)%string = (a ++ (b ++ c))%string.
Proof. induction a as [|x a IH]; simpl; [reflexivity | now rewrite IH]. Qed.

Lemma append_snoc_not_empty (cur : string) (c : ascii) :
  PyStr.is_empty (cur ++ String c "") = false.
Proof. destruct cur; reflexivity. Qed.

Lemma is_empty_true (s : string) : PyStr.is_empty s = true <-> s = "".
Proof. destruct s; simpl; split; congruence. Qed.

Lemma is_empty_false (s : string) : PyStr.is_empty s = false <-> s <> "".
Proof. destruct s; simpl; split; congruence. Qed.

Lemma all_chars_append (p : ascii -> bool) (a b : string) :
  PyStr.all_chars p (a ++ b) = PyStr.all_chars p a && PyStr.all_chars p b.
Proof.
  induction a as [|x a IH]; simpl; [reflexivity|].
  now rewrite IH, andb_assoc.
Qed.

(** No run is found exactly when nothing is pending and no character
    satisfies [p]. *)
Lemma runs_from_nil (p : ascii -> bool) (s cur : string) :
  PyStr.runs_from p cur s = []
  <-> cur = "" /\ PyStr.all_chars (fun c => negb (p c)) s = true.
Proof.
  revert cur; induction s as [|c s IH]; intro cur; simpl.
  - destruct cur; simpl; split; try tauto; try congruence.
    intros [H _]; discriminate H.
  - destruct (p c) eqn:Hp; simpl.
    + rewrite IH. split; [|intros [_ H]; discriminate H].
      intros [H _]. destruct cur; discriminate H.
    + destruct cur as [|d cur]; simpl.
      * rewrite IH. tauto.
      * split; [discriminate | intros [H _]; discriminate H].
Qed.

Lemma split_nil (s : string) :
  PyStr.split s = [] <-> PyStr.all_chars PyStr.isspace s = true.
Proof.
  unfold PyStr.split. rewrite runs_from_nil.
  assert (E : forall t, PyStr.all_chars (fun c => negb (PyStr.nonspace c)) t
                        = PyStr.all_chars PyStr.isspace t).
  { induction t as [|c t IH]; simpl; [reflexivity|].
    unfold PyStr.nonspace at 1. now rewrite negb_involutive, IH. }
  rewrite E. tauto.
Qed.

(** Every run is non-empty and made of characters satisfying [p]. *)
Lemma runs_from_all (p : ascii -> bool) (s cur : string) :
  PyStr.all_chars p cur = true ->
  Forall (fun w => w <> "" /\ PyStr.all_chars p w = true)
         (PyStr.runs_from p cur s).
Proof.
  revert cur; induction s as [|c s IH]; intros cur Hcur; simpl.
  - destruct (PyStr.is_empty cur) eqn:E; constructor; [|constructor].
    split; [now apply is_empty_false | assumption].
  - destruct (p c) eqn:Hp.
    + apply IH. rewrite all_chars_append, Hcur. simpl. now rewrite Hp.
    + destruct (PyStr.is_empty cur) eqn:E.
      * now apply IH.
      * constructor; [|now apply IH].
        split; [now apply is_empty_false | assumption].
Qed.

Lemma split_words (s : string) : Forall is_word (PyStr.split s).
Proof. apply (runs_from_all PyStr.nonspace s ""). reflexivity. Qed.

(** Reading a stretch of characters that all satisfy [p] extends the
    pending run. *)
Lemma runs_from_append (p : ascii -> bool) (w s cur : string) :
  PyStr.all_chars p w = true ->
  PyStr.runs_from p cur (w ++ s) = PyStr.runs_from p (cur ++ w) s.
Proof.
  revert cur; induction w as [|c w IH]; intros cur Hw; simpl.
  - now rewrite append_empty_r.
  - simpl in Hw. apply andb_prop in Hw as [Hc Hw].
    rewrite Hc, IH by assumption.
    now rewrite append_assoc.
Qed.

Lemma space_is_space : PyStr.nonspace " "%char = false.
Proof. reflexivity. Qed.

(** Splitting what was joined with single spaces gives the words back. *)
Lemma split_join (ws : list string) :
  Forall is_word ws -> PyStr.split (PyStr.join " " ws) = ws.
Proof.
  unfold PyStr.split, PyStr.join.
  induction 1 as [|w ws [Hne Hw] Hws IH]; [reflexivity|].
  destruct ws as [|w' ws].
  - simpl. rewrite <- (append_empty_r w) at 1.
    rewrite runs_from_append by assumption. simpl.
    now destruct w.
  - change (String.concat " " (w :: w' :: ws))
      with (w ++ String " "%char (String.concat " " (w' :: ws)))%string.
    rewrite runs_from_append by assumption.
    cbn [PyStr.runs_from append]. rewrite space_is_space.
    destruct w as [|c w]; [congruence|].
    cbn [PyStr.is_empty]. now rewrite IH.
Qed.

Lemma lstrip_length (s : string) :
  (String.length (PyStr.lstrip s) <= String.length s)%nat.
Proof.
  induction s as [|c s IH]; simpl; [lia|].
  destruct (PyStr.isspace c); simpl; lia.
Qed.

Lemma rstrip_length (s : string) :
  (String.length (PyStr.rstrip s) <= String.length s)%nat.
Proof.
  induction s as [|c s IH]; simpl; [lia|].
  destruct (PyStr.isspace c && PyStr.is_empty (PyStr.rstrip s)); simpl; lia.
Qed.

Lemma strip_len_le (s : string) : PyStr.len (PyStr.strip s) <= PyStr.len s.
Proof.
  unfold PyStr.len, PyStr.strip.
  pose proof (rstrip_length (PyStr.lstrip s)).
  pose proof (lstrip_length s). lia.
Qed.

End StringFacts.

(** ** The chunker *)

Section Chunker.

Lemma chunk_loop_as_words (cs ov : Z) (words : list string) :
  forall wchunks cur,
    PDFProcessor.chunk_loop cs ov words (map (PyStr.join " ") wchunks) cur
    = (map (PyStr.join " ") (fst (chunk_loop_words cs ov words wchunks cur)),
       snd (chunk_loop_words cs ov words wchunks cur)).
Proof.
  induction words as [|w rest IH]; intros wchunks cur; simpl; [reflexivity|].
  destruct (Z.of_nat (List.length (cur ++ [w])) >=? cs).
  - rewrite <- IH. now rewrite map_app.
  - apply IH.
Qed.

Lemma chunk_text_as_words (self : PDFProcessor.t) (text : string)
    (cs ov : option Z) :
  PDFProcessor.chunk_text self text cs ov
  = map (PyStr.join " ")
      (chunk_words (PyStr.int_or cs self.(PDFProcessor.chunk_size))
                   (PyStr.int_or ov self.(PDFProcessor.overlap))
                   (PyStr.split text)).
Proof.
  unfold PDFProcessor.chunk_text, chunk_words.
  rewrite (chunk_loop_as_words _ _ _ [] []).
  destruct (chunk_loop_words _ _ _ [] []) as [chunks cur]; simpl.
  destruct cur; [reflexivity|]. now rewrite map_app.
Qed.

(** Something is emitted as soon as one word was read. *)
Lemma chunk_loop_words_nonempty (cs ov : Z) (words : list string) :
  forall chunks cur,
    chunks <> [] \/ cur <> [] \/ words <> [] ->
    fst (chunk_loop_words cs ov words chunks cur) <> []
    \/ snd (chunk_loop_words cs ov words chunks cur) <> [].
Proof.
  induction words as [|w rest IH]; intros chunks cur H; simpl.
  - destruct H as [H|[H|H]]; [now left | now right | congruence].
  - destruct (Z.of_nat (List.length (cur ++ [w])) >=? cs); apply IH.
    + left. destruct chunks; discriminate.
    + right; left. destruct cur; discriminate.
Qed.

Lemma chunk_words_nil (cs ov : Z) : chunk_words cs ov [] = [].
Proof. reflexivity. Qed.

Lemma chunk_words_nonempty (cs ov : Z) (words : list string) :
  words <> [] -> chunk_words cs ov words <> [].
Proof.
  intro H. unfold chunk_words.
  destruct (chunk_loop_words_nonempty cs ov words [] []) as [H1|H1];
    [now right; right | |];
    destruct (chunk_loop_words cs ov words [] []) as [chunks cur];
    simpl in H1; destruct cur; try assumption; try congruence;
    destruct chunks; discriminate.
Qed.

End Chunker.

(** C5 (as amended): [chunk_text] returns no chunk when every character of
    the text is whitespace (the empty text included) and at least one chunk
    otherwise, whatever the chunk size and overlap. *)
Theorem chunk_text_count (self : PDFProcessor.t) (text : string)
    (cs ov : option Z) :
  if PyStr.all_chars PyStr.isspace text
  then PDFProcessor.chunk_text self text cs ov = []
  else (1 <= List.length (PDFProcessor.chunk_text self text cs ov))%nat.
Proof.
  rewrite chunk_text_as_words.
  destruct (PyStr.all_chars PyStr.isspace text) eqn:E.
  - apply split_nil in E. now rewrite E, chunk_words_nil.
  - assert (H : PyStr.split text <> []).
    { intro H. apply split_nil in H. congruence. }
    apply (chunk_words_nonempty
             (PyStr.int_or cs self.(PDFProcessor.chunk_size))
             (PyStr.int_or ov self.(PDFProcessor.overlap))) in H.
    rewrite length_map.
    destruct (chunk_words _ _ _); [congruence | simpl; lia].
Qed.

(** C5 fails as stated: a text of one space is non-empty and yields no
    chunk. *)
Lemma chunk_text_blank_counterexample :
  " " <> ""
  /\ ~ (1 <= List.length
              (PDFProcessor.chunk_text PDFProcessor.default " " None None))%nat.
Proof. split; [discriminate | vm_compute; lia]. Qed.

(** ** Overlap of neighbouring chunks *)

Section Overlap.

Lemma adjacent_snoc {A : Type} (R : A -> A -> Prop) (l : list A) (x : A) :
  adjacent R l ->
  (forall a, nth_error l (List.length l - 1) = Some a -> l <> [] -> R a x) ->
  adjacent R (l ++ [x]).
Proof.
  intros Hl Hx i a b Ha Hb.
  destruct (Nat.lt_ge_cases (S i) (List.length l)) as [Hlt|Hge].
  - rewrite nth_error_app1 in Ha, Hb by lia. eauto.
  - assert (Hi : (S i < List.length (l ++ [x]))%nat).
    { apply nth_error_Some. congruence. }
    rewrite length_app in Hi. simpl in Hi.
    assert (E : S i = List.length l) by lia.
    rewrite nth_error_app1 in Ha by lia.
    rewrite nth_error_app2 in Hb by lia.
    replace (S i - List.length l)%nat with 0%nat in Hb by lia.
    simpl in Hb. injection Hb as <-.
    apply Hx.
    + now replace (List.length l - 1)%nat with i by lia.
    + intros ->. simpl in E. lia.
Qed.

Lemma list_from_neg {A : Type} (k : nat) (l : list A) :
  (0 < k)%nat -> PyStr.list_from (- Z.of_nat k) l = lastn k l.
Proof.
  intro Hk. unfold PyStr.list_from, lastn.
  replace (- Z.of_nat k <? 0) with true by (symmetry; apply Z.ltb_lt; lia).
  f_equal. lia.
Qed.

Lemma firstn_snoc_short {A : Type} (n : nat) (l : list A) (x : A) :
  (n <= List.length l)%nat -> firstn n (l ++ [x]) = firstn n l.
Proof.
  intro H. rewrite firstn_app.
  replace (n - List.length l)%nat with 0%nat by lia.
  simpl. apply app_nil_r.
Qed.

Lemma chunk_loop_words_5_2 (words : list string) :
  forall chunks cur,
    inv_5_2 chunks cur ->
    inv_5_2 (fst (chunk_loop_words 5 2 words chunks cur))
            (snd (chunk_loop_words 5 2 words chunks cur)).
Proof.
  induction words as [|w rest IH]; intros chunks cur Hinv; [exact Hinv|].
  destruct Hinv as (Hadj & Hlen & Hlast).
  cbn [chunk_loop_words].
  destruct (Z.of_nat (List.length (cur ++ [w])) >=? 5) eqn:E; apply IH.
  - assert (L : List.length (cur ++ [w]) = 5%nat).
    { rewrite Z.geb_leb in E. apply Z.leb_le in E.
      rewrite length_app in *. simpl in *. lia. }
    change (- (2))%Z with (- Z.of_nat 2). rewrite list_from_neg by lia.
    assert (L2 : List.length (lastn 2 (cur ++ [w])) = 2%nat).
    { unfold lastn. rewrite length_skipn. lia. }
    split; [|split].
    + apply adjacent_snoc; [assumption|].
      intros a Ha Hne. destruct (Hlast a Ha Hne) as [Hf Hc].
      split.
      * now rewrite firstn_snoc_short.
      * rewrite length_firstn. lia.
    + lia.
    + intros a Ha _. rewrite length_app in Ha. simpl in Ha.
      rewrite nth_error_app2 in Ha by lia.
      replace (List.length chunks + 1 - 1 - List.length chunks)%nat
        with 0%nat in Ha by lia.
      simpl in Ha. injection Ha as <-.
      split; [|lia].
      apply firstn_all2. lia.
  - assert (L : (List.length (cur ++ [w]) < 5)%nat).
    { rewrite Z.geb_leb in E. apply Z.leb_gt in E. lia. }
    split; [assumption | split; [assumption|]].
    intros a Ha Hne. destruct (Hlast a Ha Hne) as [Hf Hc].
    split.
    + now rewrite firstn_snoc_short.
    + rewrite length_app. simpl. lia.
Qed.

Lemma chunk_words_5_2 (words : list string) :
  adjacent (overlaps 2) (chunk_words 5 2 words).
Proof.
  unfold chunk_words.
  assert (H0 : inv_5_2 [] []).
  { split; [|split].
    - intros i a b Ha. destruct i; discriminate Ha.
    - simpl. lia.
    - intros a _ H. congruence. }
  pose proof (chunk_loop_words_5_2 words [] [] H0) as H.
  destruct (chunk_loop_words 5 2 words [] []) as [chunks cur].
  simpl in H. destruct H as (Hadj & Hlen & Hlast).
  destruct cur as [|c cur]; [assumption|].
  apply adjacent_snoc; [assumption|].
  intros a Ha Hne. destruct (Hlast a Ha Hne) as [Hf Hc].
  split; [assumption|].
  rewrite length_firstn. lia.
Qed.

Lemma Forall_skipn' {A : Type} (P : A -> Prop) (n : nat) (l : list A) :
  Forall P l -> Forall P (skipn n l).
Proof.
  revert l; induction n as [|n IH]; intros l H; [exact H|].
  destruct l as [|x l]; [constructor|].
  inversion H; subst. simpl. now apply IH.
Qed.

(** The word lists the loop builds are made of words of the text. *)
Lemma chunk_loop_words_Forall (P : string -> Prop) (cs ov : Z)
    (words : list string) :
  forall chunks cur,
    Forall P words -> Forall (Forall P) chunks -> Forall P cur ->
    Forall (Forall P) (fst (chunk_loop_words cs ov words chunks cur))
    /\ Forall P (snd (chunk_loop_words cs ov words chunks cur)).
Proof.
  induction words as [|w rest IH]; intros chunks cur Hw Hc Hcur;
    [now split|].
  inversion Hw as [|? ? Pw Prest]; subst.
  assert (Hcw : Forall P (cur ++ [w])).
  { apply Forall_app. split; [assumption | now constructor]. }
  cbn [chunk_loop_words].
  destruct (Z.of_nat (List.length (cur ++ [w])) >=? cs); apply IH;
    try assumption.
  - apply Forall_app. split; [assumption | now constructor].
  - unfold PyStr.list_from. now apply Forall_skipn'.
Qed.

Lemma chunk_words_Forall (P : string -> Prop) (cs ov : Z)
    (words : list string) :
  Forall P words -> Forall (Forall P) (chunk_words cs ov words).
Proof.
  intro Hw. unfold chunk_words.
  destruct (chunk_loop_words_Forall P cs ov words [] [] Hw)
    as [H1 H2]; try constructor.
  destruct (chunk_loop_words cs ov words [] []) as [chunks cur].
  simpl in *. destruct cur; [assumption|].
  apply Forall_app. split; [assumption | now constructor].
Qed.

End Overlap.

(** C6: with chunks of 5 words and an overlap of 2, the first 2 words of
    every chunk after the first are the last 2 words of the chunk before
    it (the last chunk included). *)
Theorem chunk_text_overlap_5_2 (self : PDFProcessor.t) (text : string)
    (cs ov : option Z) (i : nat) (c1 c2 : string) :
  PyStr.int_or cs self.(PDFProcessor.chunk_size) = 5 ->
  PyStr.int_or ov self.(PDFProcessor.overlap) = 2 ->
  nth_error (PDFProcessor.chunk_text self text cs ov) i = Some c1 ->
  nth_error (PDFProcessor.chunk_text self text cs ov) (S i) = Some c2 ->
  overlaps 2 (PyStr.split c1) (PyStr.split c2).
Proof.
  intros Hcs Hov. rewrite chunk_text_as_words, Hcs, Hov.
  intros H1 H2.
  rewrite nth_error_map in H1, H2.
  destruct (nth_error (chunk_words 5 2 (PyStr.split text)) i)
    as [w1|] eqn:E1; [|discriminate].
  destruct (nth_error (chunk_words 5 2 (PyStr.split text)) (S i))
    as [w2|] eqn:E2; [|discriminate].
  simpl in H1, H2. injection H1 as <-. injection H2 as <-.
  pose proof (chunk_words_Forall is_word 5 2 _ (split_words text)) as HF.
  rewrite Forall_forall in HF.
  rewrite !split_join by (apply HF; eapply nth_error_In; eassumption).
  exact (chunk_words_5_2 _ i w1 w2 E1 E2).
Qed.

Lemma chunk_text_overlap_5_2_witness :
  overlaps 2 (PyStr.split "a b c d e") (PyStr.split "d e f g").
Proof.
  apply (chunk_text_overlap_5_2 PDFProcessor.default "a b c d e f g"
           (Some 5) (Some 2) 0 "a b c d e" "d e f g");
    reflexivity.
Defined.

(** ** An overlap that is not below the chunk size *)

Section Degenerate.

Variables cs ov : Z.
Hypothesis cs_pos : 1 <= cs.
Hypothesis ov_ge : cs <= ov.

Lemma list_from_neg_length {A : Type} (l : list A) :
  Z.of_nat (List.length (PyStr.list_from (- ov) l))
  = Z.min (Z.of_nat (List.length l)) ov.
Proof.
  unfold PyStr.list_from.
  replace (- ov <? 0) with true by (symmetry; apply Z.ltb_lt; lia).
  rewrite length_skipn. lia.
Qed.

(** Below the chunk size nothing is emitted. *)
Lemma chunk_loop_words_filling (words : list string) :
  forall chunks cur,
    Z.of_nat (List.length cur + List.length words) < cs ->
    chunk_loop_words cs ov words chunks cur = (chunks, cur ++ words).
Proof.
  induction words as [|w rest IH]; intros chunks cur H; simpl.
  - now rewrite app_nil_r.
  - replace (Z.of_nat (List.length (cur ++ [w])) >=? cs) with false.
    + rewrite IH.
      * now rewrite <- app_assoc.
      * rewrite length_app. simpl in *. lia.
    + symmetry. rewrite Z.geb_leb. apply Z.leb_gt.
      rewrite length_app. simpl in *. lia.
Qed.

(** Once the window holds [cs] words it never shrinks below [cs], and every
    further word emits a chunk. *)
Lemma chunk_loop_words_saturated (words : list string) :
  forall chunks cur,
    cs - 1 <= Z.of_nat (List.length cur) ->
    List.length (fst (chunk_loop_words cs ov words chunks cur))
    = (List.length chunks + List.length words)%nat
    /\ cs - 1 <= Z.of_nat
                   (List.length (snd (chunk_loop_words cs ov words chunks cur)))
    /\ (words <> [] ->
        cs <= Z.of_nat
                (List.length (snd (chunk_loop_words cs ov words chunks cur)))).
Proof.
  induction words as [|w rest IH]; intros chunks cur H; simpl.
  - split; [lia | split; [assumption | congruence]].
  - assert (L : cs <= Z.of_nat (List.length (cur ++ [w]))).
    { rewrite length_app. simpl. lia. }
    replace (Z.of_nat (List.length (cur ++ [w])) >=? cs) with true
      by (symmetry; rewrite Z.geb_leb; apply Z.leb_le; exact L).
    assert (L' : cs <= Z.of_nat
                        (List.length (PyStr.list_from (- ov) (cur ++ [w])))).
    { rewrite list_from_neg_length. lia. }
    destruct (IH (chunks ++ [cur ++ [w]])
                 (PyStr.list_from (- ov) (cur ++ [w]))) as (H1 & H2 & H3);
      [lia|].
    split; [|split].
    + rewrite H1, length_app. simpl. lia.
    + assumption.
    + intros _. destruct rest as [|x rest]; [exact L'|].
      apply H3. discriminate.
Qed.

Lemma chunk_loop_words_app (w1 w2 : list string) :
  forall chunks cur,
    chunk_loop_words cs ov (w1 ++ w2) chunks cur
    = chunk_loop_words cs ov w2
        (fst (chunk_loop_words cs ov w1 chunks cur))
        (snd (chunk_loop_words cs ov w1 chunks cur)).
Proof.
  induction w1 as [|w rest IH]; intros chunks cur; simpl; [reflexivity|].
  destruct (Z.of_nat (List.length (cur ++ [w])) >=? cs); apply IH.
Qed.

Lemma chunk_words_degenerate_count (words : list string) :
  cs <= Z.of_nat (List.length words) ->
  Z.of_nat (List.length (chunk_words cs ov words))
  = Z.of_nat (List.length words) - cs + 2.
Proof.
  intro Hn.
  rewrite <- (firstn_skipn (Z.to_nat (cs - 1)) words) at 1.
  set (w1 := firstn (Z.to_nat (cs - 1)) words).
  set (w2 := skipn (Z.to_nat (cs - 1)) words).
  assert (L1 : Z.of_nat (List.length w1) = cs - 1).
  { unfold w1. rewrite length_firstn. lia. }
  assert (L2 : Z.of_nat (List.length w2) = Z.of_nat (List.length words) - cs + 1).
  { unfold w2. rewrite length_skipn. lia. }
  unfold chunk_words. rewrite chunk_loop_words_app.
  rewrite (chunk_loop_words_filling w1 [] []) by (simpl; lia).
  cbn [fst snd app].
  destruct (chunk_loop_words_saturated w2 [] w1) as (H1 & _ & H3); [lia|].
  assert (Hne : w2 <> []) by (intros E; rewrite E in L2; simpl in L2; lia).
  specialize (H3 Hne).
  destruct (chunk_loop_words cs ov w2 [] w1) as [chunks cur].
  simpl in H1, H3.
  destruct cur as [|c cur]; [simpl in H3; lia|].
  rewrite length_app, H1. simpl. lia.
Qed.

End Degenerate.

(** C9 (as amended): an overlap at or above the chunk size is accepted.
    The constructor stores both values as given, and [chunk_text] returns
    chunks: for a text of [n >= chunk_size] words, [n - chunk_size + 2] of
    them. *)
Theorem chunk_text_degenerate_accepted (chunk_size overlap : Z)
    (text : string) :
  1 <= chunk_size <= overlap ->
  chunk_size <= Z.of_nat (List.length (PyStr.split text)) ->
  (PDFProcessor.init chunk_size overlap).(PDFProcessor.chunk_size) = chunk_size
  /\ (PDFProcessor.init chunk_size overlap).(PDFProcessor.overlap) = overlap
  /\ Z.of_nat (List.length
                 (PDFProcessor.chunk_text
                    (PDFProcessor.init chunk_size overlap) text None None))
     = Z.of_nat (List.length (PyStr.split text)) - chunk_size + 2.
Proof.
  intros [Hc Ho] Hn. split; [reflexivity | split; [reflexivity|]].
  rewrite chunk_text_as_words, length_map. simpl.
  now apply chunk_words_degenerate_count.
Qed.

Lemma chunk_text_degenerate_accepted_witness :
  Z.of_nat (List.length
              (PDFProcessor.chunk_text (PDFProcessor.init 2 3)
                 "a b c" None None))
  = 3.
Proof.
  apply (chunk_text_degenerate_accepted 2 3 "a b c"); vm_compute;
    intuition discriminate.
Defined.

(** C9 fails as stated: with chunk size 2 and overlap 3 the constructor
    and [chunk_text] both go through, and chunks come back. *)
Lemma chunk_text_degenerate_counterexample :
  3 >= 2
  /\ PDFProcessor.init 2 3
     = {| PDFProcessor.documents := []; PDFProcessor.text_chunks := [];
          PDFProcessor.chunk_size := 2; PDFProcessor.overlap := 3 |}
  /\ PDFProcessor.chunk_text (PDFProcessor.init 2 3) "a b c" None None
     = ["a b"; "a b c"; "a b c"].
Proof. split; [lia | split; reflexivity]. Qed.

(** ** Answer synthesis *)

(** C8: on a context that is empty or shorter than 50 characters,
    [answer_question] returns the fixed insufficient-context answer with
    score 0.0 and offsets 0/0; the trace gains the entry into the method
    and no call of the question-answering pipeline. *)
Theorem answer_question_short_context (m : Models.t)
    (question context : string) (max_answer_length : Z)
    (self : QAEngine.t) (tr : list event) :
  context = "" \/ PyStr.len context < 50 ->
  QAEngine.answer_question m question context max_answer_length self tr
  = (Returned
       {| QAEngine.answer := "Insufficient context to answer the question.";
          QAEngine.score := 0;
          QAEngine.start := 0;
          QAEngine.end_ := 0;
          QAEngine.error := None |},
     self,
     tr ++ [Call_answer_question question context]).
Proof.
  intro H.
  assert (G : PyStr.is_empty context
              || (PyStr.len (PyStr.strip context) <? 50) = true).
  { destruct H as [-> | H]; [reflexivity|].
    apply orb_true_iff. right. apply Z.ltb_lt.
    pose proof (strip_len_le context). lia. }
  unfold QAEngine.answer_question, QAEngine.answer_question_with.
  unfold try_except, bind, emit. rewrite G. reflexivity.
Qed.

Lemma answer_question_short_context_witness :
  QAEngine.answer_question toy_models "What is the capital of France?"
    "Paris is the capital." 500 QAEngine.init []
  = (Returned QAEngine.insufficient_context, QAEngine.init,
     [Call_answer_question "What is the capital of France?"
        "Paris is the capital."]).
Proof.
  apply (answer_question_short_context toy_models
           "What is the capital of France?" "Paris is the capital." 500
           QAEngine.init []).
  right. vm_compute. reflexivity.
Defined.

(** C7: for a question that passes validation and an empty corpus,
    [process_query] returns the fixed no-documents answer with confidence
    0.0 and no relevant chunks; the engine and the trace are untouched, so
    neither [search_similar_chunks] nor [answer_question] was entered and
    no model was called. *)
Theorem process_query_empty_corpus (m : Models.t) (question : string)
    (top_k : Z) (self : QAEngine.t) (tr : list event) :
  QAEngine._is_valid_question question = true ->
  self.(QAEngine.text_chunks) = [] ->
  QAEngine.process_query m question top_k self tr
  = (Returned
       {| QAEngine.question := question;
          QAEngine.q_answer := "No documents have been uploaded yet.";
          QAEngine.relevant_chunks := [];
          QAEngine.confidence := 0 |},
     self, tr).
Proof.
  intros Hv He. unfold QAEngine.process_query.
  rewrite Hv. simpl. unfold bind, get. rewrite He. reflexivity.
Qed.

Lemma process_query_empty_corpus_witness :
  QAEngine.process_query toy_models "What is the capital of France?" 3
    QAEngine.init []
  = (Returned
       {| QAEngine.question := "What is the capital of France?";
          QAEngine.q_answer := "No documents have been uploaded yet.";
          QAEngine.relevant_chunks := [];
          QAEngine.confidence := 0 |},
     QAEngine.init, []).
Proof.
  apply (process_query_empty_corpus toy_models
           "What is the capital of France?" 3 QAEngine.init []);
    reflexivity.
Defined.

Example is_valid_question_examples :
  QAEngine._is_valid_question "???" = false
  /\ QAEngine._is_valid_question "What is the capital of France?" = true
  /\ QAEngine._is_valid_question "" = false.
Proof. repeat split; reflexivity. Qed.

Section AnswerQuestionErrors.

Variables (fallback : string -> string -> M QAEngine.t string)
          (enhance : string -> string -> string -> M QAEngine.t string).
Variables (m : Models.t) (question context : string) (max_answer_length : Z).



End AnswerQuestionErrors.






(** ** The embedding index *)

Section Index.

Variable m : Models.t.

Lemma encode_all_Forall2 (l : list string) :
  forall es,
    Models.encode_all m l = Returned es ->
    Forall2 (fun chunk v => Models.encode m chunk = Returned v) l es.
Proof.
  induction l as [|s l IH]; simpl; intros es H.
  - injection H as <-. constructor.
  - destruct (Models.encode m s) as [v|e] eqn:Ev; [|discriminate].
    destruct (Models.encode_all m l) as [vs|e]; [|discriminate].
    injection H as <-. constructor; [assumption | now apply IH].
Qed.

Lemma encode_all_aligned (l : list string) (es : list Models.vec) :
  Models.encode_all m l = Returned es ->
  index_aligned m {| QAEngine.text_chunks := l;
                     QAEngine.embeddings := Some es |}.
Proof.
  intro H. apply encode_all_Forall2 in H. split; [|exact H].
  symmetry. eapply Forall2_length. exact H.
Qed.

Lemma compute_embeddings_eq (self : QAEngine.t) (tr : list event) :
  QAEngine._compute_embeddings m self tr
  = match Models.encode_all m self.(QAEngine.text_chunks) with
    | Returned es =>
        (Returned tt,
         {| QAEngine.text_chunks := self.(QAEngine.text_chunks);
            QAEngine.embeddings := Some es |},
         tr ++ [Call_encode self.(QAEngine.text_chunks)])
    | Raised e =>
        (Raised e, self, tr ++ [Call_encode self.(QAEngine.text_chunks)])
    end.
Proof.
  unfold QAEngine._compute_embeddings, QAEngine.call_encode.
  unfold bind, get, emit, lift, put.
  now destruct (Models.encode_all m _).
Qed.

Lemma add_documents_eq (chunks : list string) (self : QAEngine.t)
    (tr : list event) :
  let all := self.(QAEngine.text_chunks) ++ chunks in
  QAEngine.add_documents m chunks self tr
  = match Models.encode_all m all with
    | Returned es =>
        (Returned tt,
         {| QAEngine.text_chunks := all; QAEngine.embeddings := Some es |},
         tr ++ [Call_encode all])
    | Raised e =>
        (Raised e,
         {| QAEngine.text_chunks := all;
            QAEngine.embeddings := self.(QAEngine.embeddings) |},
         tr ++ [Call_encode all])
    end.
Proof.
  unfold QAEngine.add_documents.
  unfold bind at 1. unfold get. unfold bind at 1. unfold put.
  now rewrite compute_embeddings_eq.
Qed.

End Index.

(** C3 (as amended): when the encoder raises during the rebuild that
    [add_documents] triggers, the exception goes on to the caller, the
    stored embeddings are the previous ones, and [text_chunks] already
    holds the new chunks appended to the previous ones. *)
Theorem add_documents_encoder_raises (m : Models.t) (chunks : list string)
    (self : QAEngine.t) (tr : list event) (e : exn) :
  Models.encode_all m (self.(QAEngine.text_chunks) ++ chunks) = Raised e ->
  QAEngine.add_documents m chunks self tr
  = (Raised e,
     {| QAEngine.text_chunks := self.(QAEngine.text_chunks) ++ chunks;
        QAEngine.embeddings := self.(QAEngine.embeddings) |},
     tr ++ [Call_encode (self.(QAEngine.text_chunks) ++ chunks)]).
Proof.
  intro H. rewrite add_documents_eq. cbv zeta. now rewrite H.
Qed.

Lemma add_documents_encoder_raises_witness :
  QAEngine.add_documents failing_models ["a"] QAEngine.init []
  = (Raised (ModelError "encoder unavailable"),
     {| QAEngine.text_chunks := ["a"]; QAEngine.embeddings := None |},
     [Call_encode ["a"]]).
Proof.
  apply (add_documents_encoder_raises failing_models ["a"] QAEngine.init []
           (ModelError "encoder unavailable")).
  reflexivity.
Defined.

(** C3 fails as stated: starting from the aligned empty pair, an ingest
    whose encoder call raises leaves the new chunk in [text_chunks]. *)
Lemma add_documents_not_atomic_counterexample :
  index_aligned failing_models QAEngine.init
  /\ fst (fst (QAEngine.add_documents failing_models ["a"] QAEngine.init []))
     = Raised (ModelError "encoder unavailable")
  /\ (snd (fst (QAEngine.add_documents failing_models ["a"]
                  QAEngine.init []))).(QAEngine.text_chunks)
     <> QAEngine.init.(QAEngine.text_chunks).
Proof. split; [reflexivity | split; [reflexivity | discriminate]]. Qed.

(** ** Alignment of corpus and index across requests *)

Section Alignment.

Variable m : Models.t.

Lemma encode_calls_returned_app (a b : list event) :
  encode_calls_returned m (a ++ b)
  = encode_calls_returned m a && encode_calls_returned m b.
Proof. apply forallb_app. Qed.

(** [process_pdf] calls no model. *)
Lemma process_pdf_trace (fs : PDFProcessor.filesystem) (file_path : string)
    (doc_name : option string) (self : PDFProcessor.t) (tr : list event) :
  snd (PDFProcessor.process_pdf fs file_path doc_name self tr) = tr.
Proof.
  unfold PDFProcessor.process_pdf.
  destruct (negb (Dict.mem file_path fs)); [reflexivity|].
  unfold bind, lift, get, put, ret.
  now destruct (PDFProcessor.extract_text_from_pdf fs file_path).
Qed.

Lemma upload_pdf_keeps_aligned (filename : string) (file : Main.upload)
    (app : Main.App) (tr : list event)
    (o : outcome (Z * Z)) (app' : Main.App) (tr' : list event) :
  Main.upload_pdf m filename file app tr = (o, app', tr') ->
  keeps_aligned m app tr app' tr'.
Proof.
  unfold Main.upload_pdf, Main.or_500, try_except.
  destruct (negb (PyStr.endswith filename ".pdf")).
  - unfold raise. intro H. inversion H; subst.
    exists []. rewrite app_nil_r. auto.
  - destruct file as [content | msg | msg partial].
    + unfold Main.on_pdf_processor, Main.on_qa_engine, zoom, bind, get, put,
        ret, raise.
      match goal with
      | |- context [PDFProcessor.process_pdf ?fs ?fp ?dn ?p ?t] =>
          pose proof (process_pdf_trace fs fp dn p t) as Htr;
          destruct (PDFProcessor.process_pdf fs fp dn p t)
            as [[[chunks|e] p'] tr1]
      end; simpl in Htr; subst tr1.
      * rewrite add_documents_eq. cbv zeta. simpl.
        destruct (Models.encode_all m _) as [es|e] eqn:E;
          intro H; inversion H; subst; clear H;
          eexists; (split; [reflexivity|]); simpl.
        -- intros _ _. now apply encode_all_aligned.
        -- rewrite E. discriminate.
      * intro H. inversion H; subst.
        exists []. rewrite app_nil_r. auto.
    + unfold raise. intro H. inversion H; subst.
      exists []. rewrite app_nil_r. auto.
    + unfold bind, get, put, raise. intro H. inversion H; subst.
      exists []. rewrite app_nil_r. auto.
Qed.

Lemma delete_document_keeps_aligned (doc_name : string) (app : Main.App)
    (tr : list event) (o : outcome unit) (app' : Main.App)
    (tr' : list event) :
  Main.delete_document m doc_name app tr = (o, app', tr') ->
  keeps_aligned m app tr app' tr'.
Proof.
  unfold Main.delete_document, Main.or_500, try_except.
  unfold bind at 1. unfold get at 1.
  destruct (negb (Dict.mem doc_name _)).
  - unfold raise. intro H. inversion H; subst.
    exists []. rewrite app_nil_r. auto.
  - unfold Main.on_qa_engine, zoom, bind, get, put, ret, raise.
    cbn [Main.qa_engine Main.set_qa_engine Main.set_pdf_processor
         Main.pdf_processor Main.files PDFProcessor.documents].
    destruct (flat_map PDFProcessor.chunks _) as [|c cs] eqn:F.
    + intro H.
      assert (E : tr' = tr /\ app'.(Main.qa_engine)
                                = {| QAEngine.text_chunks := [];
                                     QAEngine.embeddings := None |}).
      { destruct (Dict.mem _ _); inversion H; subst; now split. }
      destruct E as [-> E]. exists []. rewrite app_nil_r.
      split; [reflexivity|]. intros _ _. now rewrite E.
    + rewrite compute_embeddings_eq.
      cbn [Main.qa_engine Main.set_qa_engine Main.set_pdf_processor
           Main.pdf_processor Main.files QAEngine.text_chunks
           QAEngine.embeddings].
      destruct (Models.encode_all m (c :: cs)) as [es|e] eqn:E.
      * intro H.
        assert (G : tr' = tr ++ [Call_encode (c :: cs)]
                    /\ app'.(Main.qa_engine)
                       = {| QAEngine.text_chunks := c :: cs;
                            QAEngine.embeddings := Some es |}).
        { cbn in H. destruct (Dict.mem _ _); inversion H; subst; now split. }
        destruct G as [-> G]. eexists. split; [reflexivity|].
        intros _ _. rewrite G. now apply encode_all_aligned.
      * intro H. inversion H; subst. eexists. split; [reflexivity|].
        unfold encode_calls_returned. cbn [forallb].
        rewrite E. discriminate.
Qed.

Lemma clear_all_keeps_aligned (app : Main.App) (tr : list event)
    (o : outcome unit) (app' : Main.App) (tr' : list event) :
  Main.clear_all app tr = (o, app', tr') ->
  keeps_aligned m app tr app' tr'.
Proof.
  unfold Main.clear_all, Main.or_500, try_except.
  unfold Main.on_qa_engine, zoom, bind, QAEngine.clear_documents, get, put.
  intro H. inversion H; subst.
  exists []. rewrite app_nil_r. split; [reflexivity|].
  intros _ _. reflexivity.
Qed.

Lemma handle_keeps_aligned (r : Main.request) (app : Main.App)
    (tr : list event) (o : outcome unit) (app' : Main.App)
    (tr' : list event) :
  Main.handle m r app tr = (o, app', tr') ->
  keeps_aligned m app tr app' tr'.
Proof.
  destruct r as [filename file | doc_name |]; simpl.
  - unfold bind.
    destruct (Main.upload_pdf m filename file app tr)
      as [[o1 app1] tr1] eqn:E.
    apply upload_pdf_keeps_aligned in E.
    destruct o1; unfold ret; intro H; inversion H; subst; exact E.
  - apply delete_document_keeps_aligned.
  - apply clear_all_keeps_aligned.
Qed.

Lemma serve_keeps_aligned (rs : list Main.request) :
  forall app tr os app' tr',
    Main.serve m rs app tr = (os, app', tr') ->
    keeps_aligned m app tr app' tr'.
Proof.
  induction rs as [|r rs IH]; intros app tr os app' tr'; simpl.
  - intro H. inversion H; subst. exists []. rewrite app_nil_r. auto.
  - destruct (Main.handle m r app tr) as [[o1 app1] tr1] eqn:E1.
    destruct (Main.serve m rs app1 tr1) as [[os2 app2] tr2] eqn:E2.
    intro H. inversion H; subst.
    apply handle_keeps_aligned in E1. apply IH in E2.
    destruct E1 as (n1 & -> & H1). destruct E2 as (n2 & -> & H2).
    exists (n1 ++ n2). split; [now rewrite app_assoc|].
    rewrite encode_calls_returned_app.
    intros Hn Ha. apply andb_prop in Hn as [Hn1 Hn2]. auto.
Qed.

End Alignment.

(** C1 (as amended): after every sequence of upload, delete and clear
    requests served
    from the start state, if the encoder calls made on the way returned,
    the engine holds no index and no chunk, or exactly one vector per
    chunk, each the encoding of the chunk at its position. *)
Theorem index_aligned_after_requests (m : Models.t)
    (rs : list Main.request) (os : list (outcome unit)) (app : Main.App)
    (tr : list event) :
  Main.serve m rs Main.startup [] = (os, app, tr) ->
  encode_calls_returned m tr = true ->
  index_aligned m app.(Main.qa_engine)
  /\ match app.(Main.qa_engine).(QAEngine.embeddings) with
     | None => app.(Main.qa_engine).(QAEngine.text_chunks) = []
     | Some es =>
         List.length es
         = List.length app.(Main.qa_engine).(QAEngine.text_chunks)
     end.
Proof.
  intros H Htr.
  apply serve_keeps_aligned in H. destruct H as (new & E & H).
  simpl in E. subst new.
  assert (A : index_aligned m app.(Main.qa_engine)).
  { apply H; [assumption | reflexivity]. }
  split; [exact A|].
  unfold index_aligned in A.
  destruct (QAEngine.embeddings (Main.qa_engine app)); tauto.
Qed.

(** C1 fails as stated: one upload during which the encoder raises leaves
    a chunk in the engine's corpus and no index. *)
Lemma index_not_aligned_counterexample :
  let app :=
    snd (fst (Main.serve failing_models
                [Main.Upload "a.pdf" (Main.Saved (PDFProcessor.Readable "x"))]
                Main.startup [])) in
  app.(Main.qa_engine)
  = {| QAEngine.text_chunks := ["x"]; QAEngine.embeddings := None |}
  /\ ~ index_aligned failing_models app.(Main.qa_engine).
Proof.
  split; [vm_compute; reflexivity|].
  intro H. vm_compute in H. discriminate H.
Qed.

Lemma index_aligned_after_requests_witness :
  let r := Main.serve toy_models example_requests Main.startup [] in
  index_aligned toy_models (snd (fst r)).(Main.qa_engine)
  /\ match (snd (fst r)).(Main.qa_engine).(QAEngine.embeddings) with
     | None => (snd (fst r)).(Main.qa_engine).(QAEngine.text_chunks) = []
     | Some es =>
         List.length es
         = List.length (snd (fst r)).(Main.qa_engine).(QAEngine.text_chunks)
     end.
Proof.
  intro r.
  apply (index_aligned_after_requests toy_models example_requests
           (fst (fst r)) (snd (fst r)) (snd r)).
  - vm_compute. reflexivity.
  - vm_compute. reflexivity.
Defined.

Example serve_example :
  Main.serve toy_models example_requests Main.startup []
  = ([Returned tt; Returned tt; Returned tt;
      Raised (HTTPException 500
                ("Error deleting document: "
                   ++ exn_str (HTTPException 404 "Document not found"))%string);
      Returned tt; Returned tt],
     {| Main.files := [("uploads/c.pdf", PDFProcessor.Readable "delta  epsilon")];
        Main.pdf_processor :=
          {| PDFProcessor.documents :=
               [("c.pdf",
                 {| PDFProcessor.path := "uploads/c.pdf";
                    PDFProcessor.chunks := ["delta epsilon"];
                    PDFProcessor.full_text := "delta epsilon" |})];
             PDFProcessor.text_chunks := ["delta epsilon"];
             PDFProcessor.chunk_size := 500;
             PDFProcessor.overlap := 50 |};
        Main.qa_engine :=
          {| QAEngine.text_chunks := ["delta epsilon"];
             QAEngine.embeddings := Some [[13 # 1]] |} |},
     [Call_encode ["alpha beta"];
      Call_encode ["alpha beta"; "gamma"];
      Call_encode ["gamma"];
      Call_encode ["delta epsilon"]]).
Proof. vm_compute. reflexivity. Qed.

(** ** Corpus length against the stored documents *)

Section CorpusCount.

Lemma dict_set_fresh_values {V : Type} (k : string) (v : V)
    (d : list (string * V)) :
  Dict.mem k d = false -> Dict.values (Dict.set k v d) = Dict.values d ++ [v].
Proof.
  unfold Dict.values.
  induction d as [|[k' v'] d IH]; simpl; intro H; [reflexivity|].
  apply orb_false_iff in H as [H1 H2].
  rewrite H1. simpl. now rewrite IH.
Qed.

Lemma list_sum_snoc (l : list nat) (n : nat) :
  list_sum (l ++ [n]) = (list_sum l + n)%nat.
Proof. rewrite list_sum_app. simpl. lia. Qed.

(** An ingest under a name that is not stored yet keeps the corpus as long
    as the documents' chunk counts add up to. *)
Lemma process_pdf_fresh_name (fs : PDFProcessor.filesystem)
    (file_path doc_name : string) (self self' : PDFProcessor.t)
    (tr tr' : list event) (o : outcome (list string)) :
  PDFProcessor.process_pdf fs file_path (Some doc_name) self tr
  = (o, self', tr') ->
  Dict.mem doc_name self.(PDFProcessor.documents) = false ->
  List.length self.(PDFProcessor.text_chunks) = total_chunk_count self ->
  List.length self'.(PDFProcessor.text_chunks) = total_chunk_count self'.
Proof.
  unfold PDFProcessor.process_pdf.
  destruct (negb (Dict.mem file_path fs)).
  - unfold raise. intro H. inversion H; subst. auto.
  - unfold bind, lift, get, put, ret.
    destruct (PDFProcessor.extract_text_from_pdf fs file_path) as [text|e];
      intro H; inversion H; subst; clear H; [|auto].
    intros Hfresh Hcount. unfold total_chunk_count in *.
    cbn [PDFProcessor.documents PDFProcessor.text_chunks].
    rewrite dict_set_fresh_values by assumption.
    rewrite map_app. cbn [map]. rewrite list_sum_snoc, length_app.
    cbn [PDFProcessor.chunks]. lia.
Qed.

End CorpusCount.

(** C2 on the code: after two ingests under the same name the corpus holds
    the chunks of both texts, while the one stored document counts only
    the chunks of the second. *)
Theorem process_pdf_same_name_twice :
  ingested_twice
  = {| PDFProcessor.documents :=
         [("a.pdf",
           {| PDFProcessor.path := "uploads/a.pdf";
              PDFProcessor.chunks := ["y"];
              PDFProcessor.full_text := "y" |})];
       PDFProcessor.text_chunks := ["x"; "y"];
       PDFProcessor.chunk_size := 500;
       PDFProcessor.overlap := 50 |}
  /\ List.length ingested_twice.(PDFProcessor.text_chunks) = 2%nat
  /\ total_chunk_count ingested_twice = 1%nat.
Proof. repeat split; vm_compute; reflexivity. Qed.

(** ** Retrieval *)

Section TopK.

Lemma non_increasing_cons (x : Q) (l : list Q) :
  non_increasing (x :: l)
  <-> match l with [] => True | y :: _ => (y <= x)%Q end /\ non_increasing l.
Proof. reflexivity. Qed.

Lemma insert_desc_head (x : Q * nat) (l : list (Q * nat)) :
  exists rest,
    Models.insert_desc x l = x :: rest
    \/ (exists y l', l = y :: l' /\ Models.insert_desc x l = y :: rest
                     /\ (fst x <= fst y)%Q).
Proof.
  destruct l as [|y l']; simpl.
  - exists []. now left.
  - destruct (Qle_bool (fst y) (fst x)) eqn:E.
    + exists (y :: l'). now left.
    + exists (Models.insert_desc x l'). right. exists y, l'.
      repeat split.
      destruct (Qlt_le_dec (fst y) (fst x)) as [H|H]; [|exact H].
      apply Qlt_le_weak in H. apply Qle_bool_iff in H. congruence.
Qed.

Lemma insert_desc_sorted (x : Q * nat) (l : list (Q * nat)) :
  non_increasing (map fst l) ->
  non_increasing (map fst (Models.insert_desc x l)).
Proof.
  induction l as [|y l IH]; intro H; [simpl; tauto|].
  cbn [Models.insert_desc].
  destruct (Qle_bool (fst y) (fst x)) eqn:E.
  - cbn [map]. apply non_increasing_cons. split; [|exact H].
    now apply Qle_bool_iff.
  - cbn [map] in *. apply non_increasing_cons in H as [H1 H2].
    apply non_increasing_cons. split; [|now apply IH].
    assert (Hxy : (fst x <= fst y)%Q).
    { destruct (Qlt_le_dec (fst y) (fst x)) as [L|L]; [|exact L].
      apply Qlt_le_weak in L. apply Qle_bool_iff in L. congruence. }
    destruct (insert_desc_head x l) as (rest & [Hh | (z & l' & -> & Hh & _)]);
      rewrite Hh; cbn [map]; [exact Hxy | exact H1].
Qed.

Lemma sort_desc_sorted (l : list (Q * nat)) :
  non_increasing (map fst (Models.sort_desc l)).
Proof.
  induction l as [|x l IH]; simpl; [exact I|].
  now apply insert_desc_sorted.
Qed.

Lemma insert_desc_length (x : Q * nat) (l : list (Q * nat)) :
  List.length (Models.insert_desc x l) = S (List.length l).
Proof.
  induction l as [|y l IH]; simpl; [reflexivity|].
  destruct (Qle_bool (fst y) (fst x)); simpl; [reflexivity | now rewrite IH].
Qed.

Lemma sort_desc_length (l : list (Q * nat)) :
  List.length (Models.sort_desc l) = List.length l.
Proof.
  induction l as [|x l IH]; simpl; [reflexivity|].
  now rewrite insert_desc_length, IH.
Qed.

Lemma insert_desc_Forall (P : Q * nat -> Prop) (x : Q * nat)
    (l : list (Q * nat)) :
  P x -> Forall P l -> Forall P (Models.insert_desc x l).
Proof.
  intros Hx; induction 1 as [|y l Hy Hl IH]; simpl.
  - now constructor.
  - destruct (Qle_bool (fst y) (fst x)); repeat constructor; assumption.
Qed.

Lemma sort_desc_Forall (P : Q * nat -> Prop) (l : list (Q * nat)) :
  Forall P l -> Forall P (Models.sort_desc l).
Proof.
  induction 1 as [|x l Hx Hl IH]; simpl; [constructor|].
  now apply insert_desc_Forall.
Qed.

Lemma enumerate_from_length (scores : list Q) :
  forall i, List.length (Models.enumerate_from i scores) = List.length scores.
Proof.
  induction scores as [|q rest IH]; intro i; simpl; [reflexivity|].
  now rewrite IH.
Qed.

Lemma enumerate_from_bound (scores : list Q) :
  forall i,
    Forall (fun p => (snd p < i + List.length scores)%nat)
           (Models.enumerate_from i scores).
Proof.
  induction scores as [|q rest IH]; intro i; simpl; constructor.
  - simpl. lia.
  - eapply Forall_impl; [|apply (IH (S i))]. simpl. intros p Hp. lia.
Qed.

Lemma non_increasing_firstn (n : nat) (l : list Q) :
  non_increasing l -> non_increasing (firstn n l).
Proof.
  revert l; induction n as [|n IH]; intros l H; [exact I|].
  destruct l as [|x l]; [exact I|].
  apply non_increasing_cons in H as [H1 H2].
  cbn [firstn]. apply non_increasing_cons. split; [|now apply IH].
  destruct l as [|y l]; [destruct n; exact I|].
  destruct n; [exact I | exact H1].
Qed.

Lemma Forall_firstn' {A : Type} (P : A -> Prop) (n : nat) (l : list A) :
  Forall P l -> Forall P (firstn n l).
Proof.
  revert l; induction n as [|n IH]; intros l H; [constructor|].
  destruct l as [|x l]; [constructor|].
  inversion H; subst. simpl. constructor; [assumption | now apply IH].
Qed.

(** What [torch.topk] returns, when it returns. *)
Lemma topk_returned (scores : list Q) (k : Z) (top : list (Q * nat)) :
  Models.topk scores k = Returned top ->
  Z.of_nat (List.length top) = k
  /\ non_increasing (map fst top)
  /\ Forall (fun p => (snd p < List.length scores)%nat) top.
Proof.
  unfold Models.topk.
  destruct ((k <? 0) || (Z.of_nat (List.length scores) <? k)) eqn:E;
    [discriminate|].
  apply orb_false_iff in E as [E1 E2].
  apply Z.ltb_ge in E1, E2.
  intro H. injection H as <-.
  split; [|split].
  - rewrite length_firstn, sort_desc_length, enumerate_from_length. lia.
  - rewrite <- firstn_map. apply non_increasing_firstn, sort_desc_sorted.
  - apply Forall_firstn', sort_desc_Forall.
    exact (enumerate_from_bound scores 0).
Qed.

Lemma topk_returns (scores : list Q) (k : Z) :
  0 <= k <= Z.of_nat (List.length scores) ->
  exists top, Models.topk scores k = Returned top.
Proof.
  intros [H1 H2]. unfold Models.topk.
  replace ((k <? 0) || (Z.of_nat (List.length scores) <? k)) with false.
  - eauto.
  - symmetry. apply orb_false_iff. split; apply Z.ltb_ge; lia.
Qed.

End TopK.

Section Search.

Variable m : Models.t.

Lemma collect_results_returned (text_chunks : list string)
    (top : list (Q * nat)) :
  forall res self self' tr tr',
    collect_results text_chunks top self tr = (Returned res, self', tr') ->
    map snd res = map fst top /\ self' = self /\ tr' = tr.
Proof.
  unfold collect_results.
  induction top as [|[score idx] top IH]; intros res self self' tr tr'; simpl.
  - unfold ret. intro H. inversion H; subst. auto.
  - unfold bind at 1.
    destruct (nth_error text_chunks idx) as [chunk|];
      [|unfold raise; discriminate].
    unfold ret at 1. unfold bind at 1.
    match goal with
    | |- context [mapM ?f top self tr] =>
        destruct (mapM f top self tr) as [[[bs|e] s1] t1] eqn:E
    end; [|discriminate].
    unfold ret. intro H. inversion H; subst.
    destruct (IH _ _ _ _ _ E) as (H1 & H2 & H3).
    simpl. now rewrite H1.
Qed.

Lemma collect_results_returns (text_chunks : list string)
    (top : list (Q * nat)) (self : QAEngine.t) (tr : list event) :
  Forall (fun p => (snd p < List.length text_chunks)%nat) top ->
  exists res, collect_results text_chunks top self tr = (Returned res, self, tr).
Proof.
  unfold collect_results.
  induction 1 as [|[score idx] top Hp Htop (res & IH)]; simpl.
  - unfold ret. eauto.
  - unfold bind at 1. simpl in Hp.
    destruct (nth_error text_chunks idx) as [chunk|] eqn:E.
    + unfold ret at 1. unfold bind at 1. rewrite IH. unfold ret. eauto.
    + apply nth_error_None in E. lia.
Qed.

(** [search_similar_chunks] on a corpus that is not empty, step by step. *)
Lemma search_similar_chunks_eq (query : string) (top_k : Z)
    (self : QAEngine.t) (tr : list event) :
  self.(QAEngine.text_chunks) <> [] ->
  let tr2 := (tr ++ [Call_search_similar_chunks query top_k])
               ++ [Call_encode [query]] in
  QAEngine.search_similar_chunks m query top_k self tr
  = match Models.encode m query with
    | Raised e => (Raised e, self, tr2)
    | Returned v =>
        match self.(QAEngine.embeddings) with
        | None => (Raised (TypeError "embeddings is None"), self, tr2)
        | Some es =>
            match Models.topk (map (Models.cos_sim m v) es)
                    (Z.min top_k
                       (Z.of_nat (List.length self.(QAEngine.text_chunks))))
            with
            | Raised e => (Raised e, self, tr2)
            | Returned top =>
                collect_results self.(QAEngine.text_chunks) top self tr2
            end
        end
    end.
Proof.
  intros Hne tr2. unfold QAEngine.search_similar_chunks.
  unfold bind at 1. unfold emit at 1. unfold bind at 1. unfold get at 1.
  replace (Z.of_nat (List.length (QAEngine.text_chunks self)) =? 0)
    with false.
  2:{ symmetry. apply Z.eqb_neq.
      destruct (QAEngine.text_chunks self); [congruence | simpl; lia]. }
  unfold bind at 1. unfold QAEngine.call_encode.
  unfold bind at 1. unfold emit at 1. unfold lift at 1.
  cbn [Models.encode_all].
  destruct (Models.encode m query) as [v|e]; [|reflexivity].
  unfold bind at 1. unfold ret at 1. unfold bind at 1.
  destruct (QAEngine.embeddings self) as [es|]; [|reflexivity].
  unfold ret at 1. unfold bind at 1. unfold lift at 1.
  destruct (Models.topk _ _) as [top|e]; reflexivity.
Qed.

End Search.

(** C4: [search_similar_chunks] returns the empty list on an empty corpus.
    On a corpus of [n > 0] chunks, whatever it returns has at most
    [min(top_k, n)] pairs, in non-increasing order of score; and it does
    return, with exactly [min(top_k, n)] pairs, when [top_k] is not
    negative, the index is aligned with the corpus and the encoder returns
    on the query. *)
Theorem search_similar_chunks_bounded (m : Models.t) (query : string)
    (top_k : Z) (self : QAEngine.t) (tr : list event) :
  let n := Z.of_nat (List.length self.(QAEngine.text_chunks)) in
  (self.(QAEngine.text_chunks) = [] ->
   QAEngine.search_similar_chunks m query top_k self tr
   = (Returned [], self, tr ++ [Call_search_similar_chunks query top_k]))
  /\ (self.(QAEngine.text_chunks) <> [] ->
      forall res self' tr',
        QAEngine.search_similar_chunks m query top_k self tr
        = (Returned res, self', tr') ->
        Z.of_nat (List.length res) <= Z.min top_k n
        /\ non_increasing (map snd res))
  /\ (self.(QAEngine.text_chunks) <> [] ->
      0 <= top_k ->
      index_aligned m self ->
      is_returned (Models.encode m query) = true ->
      exists res tr',
        QAEngine.search_similar_chunks m query top_k self tr
        = (Returned res, self, tr')
        /\ Z.of_nat (List.length res) = Z.min top_k n
        /\ non_increasing (map snd res)).
Proof.
  intro n. split; [|split].
  - intro He. unfold QAEngine.search_similar_chunks.
    unfold bind, emit, get. now rewrite He.
  - intros Hne res self' tr'.
    rewrite search_similar_chunks_eq by assumption. cbv zeta.
    destruct (Models.encode m query) as [v|e]; [|discriminate].
    destruct (QAEngine.embeddings self) as [es|]; [|discriminate].
    destruct (Models.topk _ _) as [top|e] eqn:T; [|discriminate].
    intro H. apply collect_results_returned in H as (H1 & _ & _).
    apply topk_returned in T as (T1 & T2 & _).
    split.
    + rewrite <- (length_map snd), H1, length_map. fold n in T1. lia.
    + now rewrite H1.
  - intros Hne Hk Hal Henc.
    rewrite search_similar_chunks_eq by assumption. cbv zeta.
    destruct (Models.encode m query) as [v|e]; [|discriminate].
    unfold index_aligned in Hal.
    destruct (QAEngine.embeddings self) as [es|]; [|congruence].
    destruct Hal as [Hlen _].
    destruct (topk_returns (map (Models.cos_sim m v) es) (Z.min top_k n))
      as [top T].
    { rewrite length_map, Hlen. fold n. lia. }
    fold n. rewrite T.
    apply topk_returned in T as (T1 & T2 & T3).
    rewrite length_map, Hlen in T3.
    destruct (collect_results_returns (QAEngine.text_chunks self) top self
                ((tr ++ [Call_search_similar_chunks query top_k])
                   ++ [Call_encode [query]]) T3)
      as [res R].
    exists res. eexists. split; [exact R|].
    apply collect_results_returned in R as (R1 & _ & _).
    split.
    + rewrite <- (length_map snd), R1, length_map. exact T1.
    + now rewrite R1.
Qed.

Lemma search_similar_chunks_bounded_witness :
  exists res tr',
    QAEngine.search_similar_chunks toy_models "xx" 2 example_engine []
    = (Returned res, example_engine, tr')
    /\ Z.of_nat (List.length res) = 2
    /\ non_increasing (map snd res).
Proof.
  apply (search_similar_chunks_bounded toy_models "xx" 2 example_engine []).
  - discriminate.
  - lia.
  - split; [reflexivity | repeat constructor].
  - reflexivity.
Defined.

Example search_example :
  QAEngine.search_similar_chunks toy_models "xx" 2 example_engine []
  = (Returned [("cccc", 8 # 1); ("aa", 4 # 1)], example_engine,
     [Call_search_similar_chunks "xx" 2; Call_encode ["xx"]]).
Proof. vm_compute. reflexivity. Qed.

(** ** Scenarios *)

(** One document of two sentences, with the default chunk size and
    overlap, is one chunk holding both sentences. *)
Example ingest_paris :
  fst (fst (PDFProcessor.process_pdf
              [("uploads/paris.pdf", PDFProcessor.Readable paris_context)]
              "uploads/paris.pdf" None PDFProcessor.default []))
  = Returned [paris_context]
  /\ PDFProcessor.get_document_info
       (snd (fst (PDFProcessor.process_pdf
                    [("uploads/paris.pdf",
                      PDFProcessor.Readable paris_context)]
                    "uploads/paris.pdf" None PDFProcessor.default [])))
     = [("paris.pdf", (1, 72))].
Proof. split; vm_compute; reflexivity. Qed.

(** After the only document is deleted, a query gets the answer for an
    empty corpus. *)
Example delete_then_query :
  let '(_, app, tr) :=
    Main.serve toy_models
      [Main.Upload "paris.pdf" (Main.Saved (PDFProcessor.Readable paris_context));
       Main.Delete "paris.pdf"]
      Main.startup [] in
  app.(Main.qa_engine) = QAEngine.init
  /\ fst (fst (QAEngine.process_query toy_models
                 "What is the capital of France?" 3 app.(Main.qa_engine) tr))
     = Returned
         {| QAEngine.question := "What is the capital of France?";
            QAEngine.q_answer := "No documents have been uploaded yet.";
            QAEngine.relevant_chunks := [];
            QAEngine.confidence := 0 |}.
Proof. vm_compute. split; reflexivity. Qed.

(** A query over one uploaded document: the chunk is retrieved, the
    pipeline is asked twice (its answer is short), and the answer is
    widened from the context. *)
Example query_paris :
  let '(_, app, _) :=
    Main.serve toy_models
      [Main.Upload "paris.pdf" (Main.Saved (PDFProcessor.Readable paris_context))]
      Main.startup [] in
  QAEngine.process_query toy_models "What is the capital of France?" 3
    app.(Main.qa_engine) []
  = (Returned
       {| QAEngine.question := "What is the capital of France?";
          QAEngine.q_answer :=
            "Paris is the capital of France. It has a population of over two million.. Paris is the capital of France. It has a population of over two million..";
          QAEngine.relevant_chunks := [(paris_context, 2160 # 1)];
          QAEngine.confidence := 9 # 10 |},
     app.(Main.qa_engine),
     [Call_search_similar_chunks "What is the capital of France?" 3;
      Call_encode ["What is the capital of France?"];
      Call_answer_question "What is the capital of France?" paris_context;
      Call_qa_pipeline "What is the capital of France?" paris_context 500 None;
      Call_qa_pipeline "What is the capital of France?" paris_context 500
        (Some 1)]).
Proof. vm_compute. reflexivity. Qed.

(** ** More on the chunker *)

Section GeneralOverlap.

Variables cs ov : Z.
Hypothesis ov_pos : 0 < ov.
Hypothesis ov_lt : ov < cs.

Let c := Z.to_nat cs.
Let o := Z.to_nat ov.

Lemma unchunk_snoc (n : nat) (chunks : list (list string))
    (x : list string) :
  chunks <> [] -> unchunk n (chunks ++ [x]) = unchunk n chunks ++ skipn n x.
Proof.
  destruct chunks as [|f rest]; [congruence|]. intros _. simpl.
  rewrite flat_map_app. simpl. now rewrite app_nil_r, app_assoc.
Qed.

Lemma skipn_snoc_short {A : Type} (n : nat) (l : list A) (x : A) :
  (n <= List.length l)%nat -> skipn n (l ++ [x]) = skipn n l ++ [x].
Proof.
  intro H. rewrite skipn_app.
  replace (n - List.length l)%nat with 0%nat by lia. reflexivity.
Qed.

Lemma last_snoc {A : Type} (l : list A) (x : A) :
  nth_error (l ++ [x]) (List.length (l ++ [x]) - 1) = Some x.
Proof.
  rewrite length_app. simpl. rewrite nth_error_app2 by lia.
  replace (List.length l + 1 - 1 - List.length l)%nat with 0%nat by lia.
  reflexivity.
Qed.

Lemma chunk_loop_words_inv (words : list string) :
  forall done chunks cur,
    chunk_inv c o done chunks cur ->
    chunk_inv c o (done ++ words)
      (fst (chunk_loop_words cs ov words chunks cur))
      (snd (chunk_loop_words cs ov words chunks cur)).
Proof.
  induction words as [|w rest IH]; intros done chunks cur Hinv.
  { now rewrite app_nil_r. }
  destruct Hinv as (Hadj & Hall & Hlen & Hlast & Hrec).
  cbn [chunk_loop_words].
  replace (done ++ w :: rest) with ((done ++ [w]) ++ rest)
    by (now rewrite <- app_assoc).
  destruct (Z.of_nat (List.length (cur ++ [w])) >=? cs) eqn:E; apply IH.
  - assert (L : List.length (cur ++ [w]) = c).
    { rewrite Z.geb_leb in E. apply Z.leb_le in E.
      rewrite length_app in *. simpl in *. unfold c in *. lia. }
    replace (- ov) with (- Z.of_nat o) by (unfold o; lia).
    rewrite list_from_neg by (unfold o; lia).
    assert (Lo : List.length (lastn o (cur ++ [w])) = o).
    { unfold lastn. rewrite length_skipn. unfold o, c in *. lia. }
    split; [|split; [|split; [|split]]].
    + apply adjacent_snoc; [assumption|].
      intros a Ha Hne. destruct (Hlast a Ha Hne) as [Hf Hc].
      split.
      * now rewrite firstn_snoc_short.
      * rewrite length_firstn. unfold o, c in *. lia.
    + apply Forall_app. split; [assumption | now repeat constructor].
    + unfold o, c in *. lia.
    + intros a Ha _. rewrite last_snoc in Ha. injection Ha as <-.
      split; [|lia]. apply firstn_all2. lia.
    + assert (S0 : skipn o (lastn o (cur ++ [w])) = []).
      { apply skipn_all2. lia. }
      destruct chunks as [|f chunks'].
      * simpl in Hrec. subst done. simpl.
        now rewrite S0, !app_nil_r.
      * assert (Hc : (o <= List.length cur)%nat).
        { destruct (nth_error (f :: chunks')
                      (List.length (f :: chunks') - 1)) as [a|] eqn:Ea.
          - apply (Hlast a eq_refl). discriminate.
          - apply nth_error_None in Ea. simpl in Ea. lia. }
        rewrite unchunk_snoc by discriminate.
        destruct ((f :: chunks') ++ [cur ++ [w]]) eqn:Ef;
          [destruct chunks'; discriminate|].
        rewrite S0, app_nil_r, skipn_snoc_short by assumption.
        rewrite app_assoc. now rewrite Hrec.
  - assert (L : (List.length (cur ++ [w]) < c)%nat).
    { rewrite Z.geb_leb in E. apply Z.leb_gt in E. unfold c. lia. }
    split; [assumption | split; [assumption | split; [assumption|split]]].
    + intros a Ha Hne. destruct (Hlast a Ha Hne) as [Hf Hc].
      split.
      * now rewrite firstn_snoc_short.
      * rewrite length_app. simpl. lia.
    + destruct chunks as [|f chunks'].
      * simpl in *. now subst done.
      * assert (Hc : (o <= List.length cur)%nat).
        { destruct (nth_error (f :: chunks')
                      (List.length (f :: chunks') - 1)) as [a|] eqn:Ea.
          - apply (Hlast a eq_refl). discriminate.
          - apply nth_error_None in Ea. simpl in Ea. lia. }
        rewrite skipn_snoc_short by assumption.
        rewrite app_assoc. now rewrite Hrec.
Qed.

Lemma chunk_inv_start : chunk_inv c o [] [] [].
Proof.
  split; [|split; [|split; [|split]]].
  - intros i a b Ha. destruct i; discriminate Ha.
  - constructor.
  - simpl. unfold c. lia.
  - intros a _ H. congruence.
  - reflexivity.
Qed.

(** The chunks of a word list: neighbours overlap by [o] words, all but
    the last have [c] words, the last has between 1 and [c], and the words
    can be put together again. *)
Lemma chunk_words_general (words : list string) :
  adjacent (overlaps o) (chunk_words cs ov words)
  /\ (forall i ch,
         nth_error (chunk_words cs ov words) i = Some ch ->
         (1 <= List.length ch <= c)%nat
         /\ (S i < List.length (chunk_words cs ov words) ->
             List.length ch = c)%nat)
  /\ unchunk o (chunk_words cs ov words) = words.
Proof.
  unfold chunk_words.
  pose proof (chunk_loop_words_inv words [] [] [] chunk_inv_start) as H.
  destruct (chunk_loop_words cs ov words [] []) as [chunks cur].
  cbn [fst snd app] in H.
  destruct H as (Hadj & Hall & Hlen & Hlast & Hrec).
  assert (Hc1 : (1 <= c)%nat) by (unfold c; lia).
  assert (Ho1 : (1 <= o)%nat) by (unfold o; lia).
  rewrite Forall_forall in Hall.
  destruct cur as [|x cur].
  - split; [assumption | split].
    + intros i ch Hi.
      rewrite (Hall ch) by (eapply nth_error_In; eassumption). split; lia.
    + destruct chunks as [|f chunks'].
      * simpl in Hrec. now subst words.
      * exfalso.
        destruct (nth_error (f :: chunks')
                    (List.length (f :: chunks') - 1)) as [a|] eqn:Ea.
        -- destruct (Hlast a eq_refl) as [_ Hc]; [discriminate|].
           simpl in Hc. lia.
        -- apply nth_error_None in Ea. simpl in Ea. lia.
  - split; [|split].
    + apply adjacent_snoc; [assumption|].
      intros a Ha Hne. destruct (Hlast a Ha Hne) as [Hf Hc].
      split; [assumption|]. rewrite length_firstn. lia.
    + intros i ch Hi.
      destruct (Nat.lt_ge_cases i (List.length chunks)) as [Hlt|Hge].
      * rewrite nth_error_app1 in Hi by assumption.
        rewrite (Hall ch) by (eapply nth_error_In; eassumption). split; lia.
      * assert (Hlt : (i < List.length (chunks ++ [x :: cur]))%nat).
        { apply nth_error_Some. congruence. }
        rewrite length_app in *. simpl in Hlt.
        rewrite nth_error_app2 in Hi by assumption.
        replace (i - List.length chunks)%nat with 0%nat in Hi by lia.
        injection Hi as <-. simpl in *. split; lia.
    + destruct chunks as [|f chunks'].
      * simpl in *. now rewrite app_nil_r.
      * rewrite unchunk_snoc by discriminate. exact Hrec.
Qed.

End GeneralOverlap.

Lemma map_split_join (wchunks : list (list string)) :
  Forall (Forall is_word) wchunks ->
  map PyStr.split (map (PyStr.join " ") wchunks) = wchunks.
Proof.
  induction 1 as [|ws rest Hws Hrest IH]; simpl; [reflexivity|].
  now rewrite split_join, IH.
Qed.

Lemma chunk_text_split (self : PDFProcessor.t) (text : string)
    (cs ov : option Z) :
  map PyStr.split (PDFProcessor.chunk_text self text cs ov)
  = chunk_words (PyStr.int_or cs self.(PDFProcessor.chunk_size))
      (PyStr.int_or ov self.(PDFProcessor.overlap)) (PyStr.split text).
Proof.
  rewrite chunk_text_as_words. apply map_split_join.
  apply chunk_words_Forall, split_words.
Qed.

Lemma nth_error_chunk_text_split (self : PDFProcessor.t) (text : string)
    (cs ov : option Z) (i : nat) (ch : string) :
  nth_error (PDFProcessor.chunk_text self text cs ov) i = Some ch ->
  nth_error (chunk_words (PyStr.int_or cs self.(PDFProcessor.chunk_size))
               (PyStr.int_or ov self.(PDFProcessor.overlap))
               (PyStr.split text)) i
  = Some (PyStr.split ch).
Proof.
  intro H. rewrite <- chunk_text_split, nth_error_map, H. reflexivity.
Qed.

(** X1: whenever the overlap in force is positive and below the chunk size
    in force, the first [overlap] words of every chunk after the first are
    the last [overlap] words of the chunk before it. *)
Theorem chunk_text_overlap (self : PDFProcessor.t) (text : string)
    (cs ov : option Z) (i : nat) (c1 c2 : string) :
  0 < PyStr.int_or ov self.(PDFProcessor.overlap)
    < PyStr.int_or cs self.(PDFProcessor.chunk_size) ->
  nth_error (PDFProcessor.chunk_text self text cs ov) i = Some c1 ->
  nth_error (PDFProcessor.chunk_text self text cs ov) (S i) = Some c2 ->
  overlaps (Z.to_nat (PyStr.int_or ov self.(PDFProcessor.overlap)))
    (PyStr.split c1) (PyStr.split c2).
Proof.
  intros [H1 H2] E1 E2.
  apply nth_error_chunk_text_split in E1, E2.
  destruct (chunk_words_general _ _ H1 H2 (PyStr.split text)) as (Hadj & _).
  exact (Hadj i _ _ E1 E2).
Qed.

Lemma chunk_text_overlap_witness :
  overlaps 1 (PyStr.split "a b c") (PyStr.split "c d e").
Proof.
  apply (chunk_text_overlap (PDFProcessor.init 3 1) "a b c d e f"
           None None 0 "a b c" "c d e");
    [vm_compute; split; reflexivity | reflexivity | reflexivity].
Defined.

(** X2: with an overlap in force that is positive and below the chunk size
    in force, every chunk holds at least one word and at most [chunk_size]
    words, and every chunk but the last holds exactly [chunk_size]. *)
Theorem chunk_text_chunk_length (self : PDFProcessor.t) (text : string)
    (cs ov : option Z) (i : nat) (ch : string) :
  0 < PyStr.int_or ov self.(PDFProcessor.overlap)
    < PyStr.int_or cs self.(PDFProcessor.chunk_size) ->
  nth_error (PDFProcessor.chunk_text self text cs ov) i = Some ch ->
  1 <= QAEngine.word_count ch
    <= PyStr.int_or cs self.(PDFProcessor.chunk_size)
  /\ ((S i < List.length (PDFProcessor.chunk_text self text cs ov))%nat ->
      QAEngine.word_count ch
      = PyStr.int_or cs self.(PDFProcessor.chunk_size)).
Proof.
  intros [H1 H2] E.
  apply nth_error_chunk_text_split in E.
  destruct (chunk_words_general _ _ H1 H2 (PyStr.split text))
    as (_ & Hlen & _).
  destruct (Hlen i _ E) as [Hb Hex].
  rewrite <- chunk_text_split, length_map in Hex.
  unfold QAEngine.word_count. split; [lia|].
  intro Hi. specialize (Hex Hi). lia.
Qed.

Lemma chunk_text_chunk_length_witness :
  1 <= QAEngine.word_count "a b c" <= 3
  /\ ((1 < List.length
             (PDFProcessor.chunk_text (PDFProcessor.init 3 1) "a b c d e f"
                None None))%nat ->
      QAEngine.word_count "a b c" = 3).
Proof.
  apply (chunk_text_chunk_length (PDFProcessor.init 3 1) "a b c d e f"
           None None 0 "a b c");
    [vm_compute; split; reflexivity | reflexivity].
Defined.

(** X3: with an overlap in force that is positive and below the chunk size
    in force, no word is lost or reordered: the first chunk followed by
    every later chunk without its first [overlap] words is the word
    sequence of the text. *)
Theorem chunk_text_unchunk (self : PDFProcessor.t) (text : string)
    (cs ov : option Z) :
  0 < PyStr.int_or ov self.(PDFProcessor.overlap)
    < PyStr.int_or cs self.(PDFProcessor.chunk_size) ->
  unchunk (Z.to_nat (PyStr.int_or ov self.(PDFProcessor.overlap)))
    (map PyStr.split (PDFProcessor.chunk_text self text cs ov))
  = PyStr.split text.
Proof.
  intros [H1 H2]. rewrite chunk_text_split.
  now destruct (chunk_words_general _ _ H1 H2 (PyStr.split text))
    as (_ & _ & H).
Qed.

Lemma chunk_text_unchunk_witness :
  unchunk 1
    (map PyStr.split
       (PDFProcessor.chunk_text (PDFProcessor.init 3 1) "a b  c d e f"
          None None))
  = ["a"; "b"; "c"; "d"; "e"; "f"].
Proof.
  apply (chunk_text_unchunk (PDFProcessor.init 3 1) "a b  c d e f" None None).
  vm_compute. split; reflexivity.
Defined.

Section AnyConfiguration.

Variables cs ov : Z.

Lemma chunk_loop_words_nonempty_chunks (words : list string) :
  forall chunks cur,
    Forall (fun ch => ch <> []) chunks ->
    Forall (fun ch : list string => ch <> [])
           (fst (chunk_loop_words cs ov words chunks cur)).
Proof.
  induction words as [|w rest IH]; intros chunks cur H; [exact H|].
  cbn [chunk_loop_words].
  destruct (Z.of_nat (List.length (cur ++ [w])) >=? cs); apply IH;
    [|assumption].
  apply Forall_app. split; [assumption|].
  constructor; [|constructor]. destruct cur; discriminate.
Qed.

Lemma chunk_words_nonempty_chunks (words : list string) :
  Forall (fun ch : list string => ch <> []) (chunk_words cs ov words).
Proof.
  unfold chunk_words.
  pose proof (chunk_loop_words_nonempty_chunks words [] []
                (Forall_nil _)) as H.
  destruct (chunk_loop_words cs ov words [] []) as [chunks cur].
  simpl in H. destruct cur; [assumption|].
  apply Forall_app. split; [assumption|].
  constructor; [discriminate | constructor].
Qed.

End AnyConfiguration.

(** X4: whatever the chunk size and overlap, every chunk that [chunk_text]
    returns holds at least one word, holds only words of the text, and is
    these words joined by single spaces. *)
Theorem chunk_text_chunks_well_formed (self : PDFProcessor.t)
    (text : string) (cs ov : option Z) :
  Forall (fun ch =>
            PyStr.split ch <> []
            /\ Forall (fun w => In w (PyStr.split text)) (PyStr.split ch)
            /\ PyStr.join " " (PyStr.split ch) = ch)
         (PDFProcessor.chunk_text self text cs ov).
Proof.
  rewrite chunk_text_as_words.
  set (c := PyStr.int_or cs _). set (o := PyStr.int_or ov _).
  pose proof (chunk_words_nonempty_chunks c o (PyStr.split text)) as Hne.
  assert (Hw : Forall (Forall (fun w => is_word w /\ In w (PyStr.split text)))
                      (chunk_words c o (PyStr.split text))).
  { apply chunk_words_Forall. apply Forall_forall. intros w Hin.
    split; [|assumption].
    pose proof (split_words text) as Hs. rewrite Forall_forall in Hs. auto. }
  apply Forall_map.
  rewrite Forall_forall in *. intros ws Hin.
  assert (Hws : Forall is_word ws).
  { eapply Forall_impl; [|apply (Hw ws Hin)]. now intros w [H _]. }
  rewrite split_join by assumption.
  split; [now apply Hne | split; [|reflexivity]].
  eapply Forall_impl; [|apply (Hw ws Hin)]. now intros w [_ H].
Qed.

Section ZeroOverlap.

Variable cs : Z.
Hypothesis cs_pos : 1 <= cs.
Let c := Z.to_nat cs.

Lemma chunk_loop_words_cumulative (all : list string) (rest : list string) :
  forall done chunks cur,
    all = done ++ rest ->
    cumulative_inv c all done chunks cur ->
    cumulative_inv c all all
      (fst (chunk_loop_words cs 0 rest chunks cur))
      (snd (chunk_loop_words cs 0 rest chunks cur)).
Proof.
  induction rest as [|w rest IH]; intros done chunks cur Hall Hinv.
  { rewrite app_nil_r in Hall. now subst done. }
  destruct Hinv as [-> ->].
  assert (Hall' : all = (done ++ [w]) ++ rest)
    by (now rewrite <- app_assoc).
  assert (Hpre : firstn (List.length (done ++ [w])) all = done ++ [w]).
  { rewrite Hall'. rewrite firstn_app, Nat.sub_diag. simpl.
    now rewrite firstn_all, app_nil_r. }
  cbn [chunk_loop_words].
  destruct (Z.of_nat (List.length (done ++ [w])) >=? cs) eqn:E;
    apply (IH (done ++ [w])); try assumption; split.
  - change (- 0) with 0. unfold PyStr.list_from.
    change (0 <? 0) with false. cbv beta iota zeta.
    replace (Z.min 0 (Z.of_nat (List.length (done ++ [w])))) with 0 by lia.
    reflexivity.
  - rewrite Z.geb_leb in E. apply Z.leb_le in E.
    rewrite length_app in *. simpl in *.
    replace (List.length done + 1 + 1 - c)%nat
      with (S (List.length done + 1 - c)) by (unfold c; lia).
    rewrite seq_S, map_app. simpl. f_equal. f_equal.
    replace (c + (List.length done + 1 - c))%nat
      with (List.length done + 1)%nat by (unfold c; lia).
    symmetry. exact Hpre.
  - reflexivity.
  - rewrite Z.geb_leb in E. apply Z.leb_gt in E.
    rewrite length_app in *. simpl in *.
    replace (List.length done + 1 - c)%nat with 0%nat by (unfold c; lia).
    replace (List.length done + 1 + 1 - c)%nat with 0%nat by (unfold c; lia).
    reflexivity.
Qed.

Lemma chunk_words_cumulative (words : list string) (i : nat)
    (ch : list string) :
  nth_error (chunk_words cs 0 words) i = Some ch ->
  ch = firstn (c + i) words.
Proof.
  unfold chunk_words.
  assert (H0 : cumulative_inv c words [] [] []).
  { split; [reflexivity|]. cbn [List.length Nat.add].
    replace (1 - c)%nat with 0%nat by (unfold c; lia). reflexivity. }
  pose proof (chunk_loop_words_cumulative words words [] [] [] eq_refl H0)
    as H.
  destruct (chunk_loop_words cs 0 words [] []) as [chunks cur].
  cbn [fst snd] in H. destruct H as [-> ->].
  set (n := List.length words).
  assert (Hnth : forall j,
             (j < n + 1 - c)%nat ->
             nth_error (map (fun k => firstn k words) (seq c (n + 1 - c))) j
             = Some (firstn (c + j) words)).
  { intros j Hj. rewrite nth_error_map.
    rewrite nth_error_nth' with (d := 0%nat) by (now rewrite length_seq).
    simpl. now rewrite seq_nth. }
  assert (Hlen : List.length
                   (map (fun k => firstn k words) (seq c (n + 1 - c)))
                 = (n + 1 - c)%nat)
    by (now rewrite length_map, length_seq).
  destruct words as [|x words'] eqn:Ew.
  - intro H. destruct (Nat.lt_ge_cases i (n + 1 - c)) as [Hlt|Hge].
    + rewrite Hnth in H by assumption. now injection H as <-.
    + assert (N : nth_error
                    (map (fun k => firstn k []) (seq c (n + 1 - c))) i = None)
        by (apply nth_error_None; rewrite Hlen; exact Hge).
      congruence.
  - rewrite <- Ew in *. intro H.
    destruct (Nat.lt_ge_cases i (n + 1 - c)) as [Hlt|Hge].
    + rewrite nth_error_app1 in H by (now rewrite Hlen).
      rewrite Hnth in H by assumption. now injection H as <-.
    + rewrite nth_error_app2 in H by (now rewrite Hlen).
      rewrite Hlen in H.
      destruct (i - (n + 1 - c))%nat eqn:Ei; [|destruct n0; discriminate].
      simpl in H. injection H as <-.
      symmetry. apply firstn_all2. rewrite Ew. fold n. lia.
Qed.

End ZeroOverlap.

(** X5: with an overlap in force of 0 and a chunk size in force of at
    least 1, the window is never cut back ([current_chunk[-0:]] is the
    whole list): the chunk at position [i] is the first [chunk_size + i]
    words of the text, so every chunk starts at the first word. *)
Theorem chunk_text_zero_overlap (self : PDFProcessor.t) (text : string)
    (cs ov : option Z) (i : nat) (ch : string) :
  PyStr.int_or ov self.(PDFProcessor.overlap) = 0 ->
  1 <= PyStr.int_or cs self.(PDFProcessor.chunk_size) ->
  nth_error (PDFProcessor.chunk_text self text cs ov) i = Some ch ->
  ch = PyStr.join " "
         (firstn (Z.to_nat (PyStr.int_or cs self.(PDFProcessor.chunk_size)) + i)
                 (PyStr.split text)).
Proof.
  intros Ho Hc. rewrite chunk_text_as_words, Ho, nth_error_map.
  destruct (nth_error _ i) as [ws|] eqn:E; [|discriminate].
  intro H. injection H as <-.
  now rewrite (chunk_words_cumulative _ Hc _ _ _ E).
Qed.

Lemma chunk_text_zero_overlap_witness :
  "a b c" = PyStr.join " " (firstn (2 + 1) (PyStr.split "a b c d")).
Proof.
  apply (chunk_text_zero_overlap (PDFProcessor.init 2 0) "a b c d"
           None None 1 "a b c");
    [reflexivity | vm_compute; discriminate | reflexivity].
Defined.

Example chunk_text_zero_overlap_example :
  PDFProcessor.chunk_text (PDFProcessor.init 2 0) "a b c d" None None
  = ["a b"; "a b c"; "a b c d"; "a b c d"].
Proof. vm_compute. reflexivity. Qed.

(** ** Cleaning and the document store *)

Section Cleaning.

Lemma remove_char_absent (c : ascii) (s : string) :
  PyStr.all_chars (fun d => negb (Ascii.eqb c d)) (PyStr.remove_char c s)
  = true.
Proof.
  induction s as [|d s IH]; simpl; [reflexivity|].
  destruct (Ascii.eqb c d) eqn:E; simpl; [assumption|].
  now rewrite E, IH.
Qed.

Lemma remove_char_id (c : ascii) (s : string) :
  PyStr.all_chars (fun d => negb (Ascii.eqb c d)) s = true ->
  PyStr.remove_char c s = s.
Proof.
  induction s as [|d s IH]; simpl; [reflexivity|].
  intro H. apply andb_prop in H as [H1 H2].
  apply negb_true_iff in H1. rewrite H1. now rewrite IH.
Qed.

(** The runs keep the characters of the string. *)
Lemma runs_from_chars (q p : ascii -> bool) (s cur : string) :
  PyStr.all_chars q cur = true -> PyStr.all_chars q s = true ->
  Forall (fun w => PyStr.all_chars q w = true) (PyStr.runs_from p cur s).
Proof.
  revert cur; induction s as [|c s IH]; intros cur Hcur Hs; simpl.
  - destruct (PyStr.is_empty cur); repeat constructor; assumption.
  - simpl in Hs. apply andb_prop in Hs as [Hc Hs].
    destruct (p c).
    + apply IH; [|assumption].
      rewrite all_chars_append, Hcur. simpl. now rewrite Hc.
    + destruct (PyStr.is_empty cur); [now apply IH|].
      constructor; [assumption | now apply IH].
Qed.

Lemma join_chars (q : ascii -> bool) (sep : string) (l : list string) :
  PyStr.all_chars q sep = true ->
  Forall (fun w => PyStr.all_chars q w = true) l ->
  PyStr.all_chars q (PyStr.join sep l) = true.
Proof.
  intros Hsep. unfold PyStr.join.
  induction 1 as [|w l Hw Hl IH]; [reflexivity|].
  destruct l as [|w' l]; [exact Hw|].
  change (String.concat sep (w :: w' :: l))
    with (w ++ sep ++ String.concat sep (w' :: l))%string.
  now rewrite !all_chars_append, Hw, Hsep, IH.
Qed.

End Cleaning.

(** X6: the text [_clean_text] returns holds no null character.  When the
    text given holds none either, the result is the words of the text
    joined by single spaces, it has the same words as the text, and
    cleaning it again changes nothing. *)
Theorem clean_text_normal_form (text : string) :
  nul_free (PDFProcessor._clean_text text) = true
  /\ (nul_free text = true ->
      PDFProcessor._clean_text text = PyStr.join " " (PyStr.split text)
      /\ PyStr.split (PDFProcessor._clean_text text) = PyStr.split text
      /\ PDFProcessor._clean_text (PDFProcessor._clean_text text)
         = PDFProcessor._clean_text text).
Proof.
  split.
  - apply remove_char_absent.
  - intro H.
    assert (E : PDFProcessor._clean_text text
                = PyStr.join " " (PyStr.split text)).
    { unfold PDFProcessor._clean_text. apply remove_char_id.
      apply join_chars; [reflexivity|].
      now apply runs_from_chars. }
    assert (S : PyStr.split (PDFProcessor._clean_text text)
                = PyStr.split text).
    { rewrite E. apply split_join, split_words. }
    split; [exact E | split; [exact S|]].
    unfold PDFProcessor._clean_text at 1. rewrite S.
    fold (PDFProcessor._clean_text text). symmetry.
    unfold PDFProcessor._clean_text at 1. reflexivity.
Qed.

Lemma clean_text_normal_form_witness :
  PDFProcessor._clean_text "  a   b " = PyStr.join " " (PyStr.split "  a   b ")
  /\ PyStr.split (PDFProcessor._clean_text "  a   b ")
     = PyStr.split "  a   b "
  /\ PDFProcessor._clean_text (PDFProcessor._clean_text "  a   b ")
     = PDFProcessor._clean_text "  a   b ".
Proof.
  apply (clean_text_normal_form "  a   b "). reflexivity.
Defined.

(** A null character between two spaces leaves a double space behind, and
    a second cleaning removes it. *)
Example clean_text_with_nul :
  PDFProcessor._clean_text (String "a" (String " " (String "000" " b")))
  = "a  b"
  /\ PDFProcessor._clean_text "a  b" = "a b".
Proof. split; vm_compute; reflexivity. Qed.

Section DictFacts.

Context {V : Type}.

Lemma dict_mem_lookup (k : string) (d : list (string * V)) :
  Dict.mem k d = match Dict.lookup k d with Some _ => true | None => false end.
Proof.
  induction d as [|[k' v'] d IH]; simpl; [reflexivity|].
  destruct (String.eqb k k'); simpl; [reflexivity | exact IH].
Qed.

Lemma dict_lookup_set_same (k : string) (v : V) (d : list (string * V)) :
  Dict.lookup k (Dict.set k v d) = Some v.
Proof.
  induction d as [|[k' v'] d IH]; simpl.
  - now rewrite String.eqb_refl.
  - destruct (String.eqb k k') eqn:E; simpl; rewrite E; [reflexivity|].
    exact IH.
Qed.

Lemma dict_lookup_set_other (k k0 : string) (v : V)
    (d : list (string * V)) :
  k0 <> k -> Dict.lookup k0 (Dict.set k v d) = Dict.lookup k0 d.
Proof.
  intro Hne. induction d as [|[k' v'] d IH]; simpl.
  - apply String.eqb_neq in Hne. now rewrite Hne.
  - destruct (String.eqb k k') eqn:E; simpl.
    + apply String.eqb_eq in E. subst k'.
      apply String.eqb_neq in Hne. now rewrite Hne.
    + now rewrite IH.
Qed.

Lemma dict_lookup_del_same (k : string) (d : list (string * V)) :
  NoDup (keys d) -> Dict.lookup k (Dict.del k d) = None.
Proof.
  induction d as [|[k' v'] d IH]; simpl; intro H; [reflexivity|].
  inversion H as [|? ? Hnin Hnd]; subst.
  destruct (String.eqb k k') eqn:E; simpl.
  - apply String.eqb_eq in E. subst k'.
    destruct (Dict.lookup k d) eqn:L; [|reflexivity].
    exfalso. apply Hnin. clear - L.
    induction d as [|[k2 v2] d IH]; simpl in *; [discriminate|].
    destruct (String.eqb k k2) eqn:E2.
    + apply String.eqb_eq in E2. now left.
    + right. now apply IH.
  - rewrite E. now apply IH.
Qed.

Lemma dict_lookup_del_other (k k0 : string) (d : list (string * V)) :
  k0 <> k -> Dict.lookup k0 (Dict.del k d) = Dict.lookup k0 d.
Proof.
  intro Hne. induction d as [|[k' v'] d IH]; simpl; [reflexivity|].
  destruct (String.eqb k k') eqn:E; simpl.
  - apply String.eqb_eq in E. subst k'.
    apply String.eqb_neq in Hne. now rewrite Hne.
  - now rewrite IH.
Qed.

Lemma dict_keys_set (k : string) (v : V) (d : list (string * V)) :
  keys (Dict.set k v d)
  = if Dict.mem k d then keys d else keys d ++ [k].
Proof.
  unfold keys. induction d as [|[k' v'] d IH]; simpl; [reflexivity|].
  destruct (String.eqb k k') eqn:E; simpl; [reflexivity|].
  rewrite IH. now destruct (Dict.mem k d).
Qed.

Lemma dict_mem_In (k : string) (d : list (string * V)) :
  Dict.mem k d = true <-> In k (keys d).
Proof.
  unfold keys. induction d as [|[k' v'] d IH]; simpl.
  - split; [discriminate | tauto].
  - rewrite orb_true_iff, IH, String.eqb_eq. intuition congruence.
Qed.

Lemma dict_set_NoDup (k : string) (v : V) (d : list (string * V)) :
  NoDup (keys d) -> NoDup (keys (Dict.set k v d)).
Proof.
  intro H. rewrite dict_keys_set.
  destruct (Dict.mem k d) eqn:E; [assumption|].
  apply NoDup_app; [assumption | repeat constructor; simpl; tauto |].
  intros x Hx [<-|[]].
  apply dict_mem_In in Hx. congruence.
Qed.

Lemma dict_keys_del_incl (k : string) (d : list (string * V)) :
  incl (keys (Dict.del k d)) (keys d).
Proof.
  unfold keys. induction d as [|[k' v'] d IH]; simpl; [apply incl_refl|].
  destruct (String.eqb k k'); simpl.
  - apply incl_tl, incl_refl.
  - apply incl_cons; [now left | now apply incl_tl].
Qed.

Lemma dict_del_NoDup (k : string) (d : list (string * V)) :
  NoDup (keys d) -> NoDup (keys (Dict.del k d)).
Proof.
  induction d as [|[k' v'] d IH]; simpl; intro H; [constructor|].
  inversion H as [|? ? Hnin Hnd]; subst.
  destruct (String.eqb k k'); simpl; [assumption|].
  constructor; [|now apply IH].
  intro Hin. apply Hnin. now apply (dict_keys_del_incl k d).
Qed.

End DictFacts.

Section ProcessPdf.

Variables (fs : PDFProcessor.filesystem) (file_path : string)
          (doc_name : option string).

Lemma process_pdf_readable (raw : string) (self : PDFProcessor.t)
    (tr : list event) :
  Dict.lookup file_path fs = Some (PDFProcessor.Readable raw) ->
  let text := PDFProcessor._clean_text raw in
  let chunks := PDFProcessor.chunk_text self text None None in
  PDFProcessor.process_pdf fs file_path doc_name self tr
  = (Returned chunks,
     {| PDFProcessor.documents :=
          Dict.set (stored_name file_path doc_name)
            {| PDFProcessor.path := file_path;
               PDFProcessor.chunks := chunks;
               PDFProcessor.full_text := text |}
            self.(PDFProcessor.documents);
        PDFProcessor.text_chunks := self.(PDFProcessor.text_chunks) ++ chunks;
        PDFProcessor.chunk_size := self.(PDFProcessor.chunk_size);
        PDFProcessor.overlap := self.(PDFProcessor.overlap) |},
     tr).
Proof.
  intros L text chunks. unfold PDFProcessor.process_pdf.
  rewrite dict_mem_lookup, L. simpl.
  unfold bind, lift, get, put, ret, PDFProcessor.extract_text_from_pdf.
  rewrite L. unfold stored_name. now destruct doc_name.
Qed.

Lemma get_document_info_lookup (k : string) (self : PDFProcessor.t) :
  Dict.lookup k (PDFProcessor.get_document_info self)
  = option_map
      (fun d => (Z.of_nat (List.length d.(PDFProcessor.chunks)),
                 PyStr.len d.(PDFProcessor.full_text)))
      (Dict.lookup k self.(PDFProcessor.documents)).
Proof.
  unfold PDFProcessor.get_document_info.
  induction (PDFProcessor.documents self) as [|[k' d] ds IH]; simpl;
    [reflexivity|].
  destruct (String.eqb k k'); [reflexivity | exact IH].
Qed.

End ProcessPdf.

(** X7: a [process_pdf] call that raises leaves the processor as it was.
    It raises exactly when the file is missing ([FileNotFoundError]) or
    cannot be read (the wrapped extraction error). *)
Theorem process_pdf_failure (fs : PDFProcessor.filesystem)
    (file_path : string) (doc_name : option string)
    (self : PDFProcessor.t) (tr : list event) :
  match Dict.lookup file_path fs with
  | Some (PDFProcessor.Readable _) =>
      is_returned
        (fst (fst (PDFProcessor.process_pdf fs file_path doc_name self tr)))
      = true
  | Some (PDFProcessor.Unreadable msg) =>
      PDFProcessor.process_pdf fs file_path doc_name self tr
      = (Raised (ExtractionError
                   ("Error extracting text from PDF: " ++ msg)%string),
         self, tr)
  | None =>
      PDFProcessor.process_pdf fs file_path doc_name self tr
      = (Raised (FileNotFoundError file_path), self, tr)
  end.
Proof.
  destruct (Dict.lookup file_path fs) as [[raw|msg]|] eqn:L.
  - now rewrite (process_pdf_readable fs file_path doc_name raw self tr L).
  - unfold PDFProcessor.process_pdf. rewrite dict_mem_lookup, L. simpl.
    unfold bind, lift, PDFProcessor.extract_text_from_pdf. now rewrite L.
  - unfold PDFProcessor.process_pdf. rewrite dict_mem_lookup, L. reflexivity.
Qed.

(** X8: after a [process_pdf] call on a readable file, [get_document_info]
    lists the document under its name with the number of chunks returned
    and the length of the cleaned text; the entries of the other names are
    as before, and no name is listed twice. *)
Theorem process_pdf_then_info (fs : PDFProcessor.filesystem)
    (file_path : string) (doc_name : option string) (raw : string)
    (self : PDFProcessor.t) (tr : list event) :
  Dict.lookup file_path fs = Some (PDFProcessor.Readable raw) ->
  NoDup (keys self.(PDFProcessor.documents)) ->
  let r := PDFProcessor.process_pdf fs file_path doc_name self tr in
  let self' := snd (fst r) in
  exists chunks,
    fst (fst r) = Returned chunks
    /\ Dict.lookup (stored_name file_path doc_name)
         (PDFProcessor.get_document_info self')
       = Some (Z.of_nat (List.length chunks),
               PyStr.len (PDFProcessor._clean_text raw))
    /\ (forall other,
           other <> stored_name file_path doc_name ->
           Dict.lookup other (PDFProcessor.get_document_info self')
           = Dict.lookup other (PDFProcessor.get_document_info self))
    /\ NoDup (keys (PDFProcessor.get_document_info self')).
Proof.
  intros L Hnd r self'. subst r self'.
  rewrite (process_pdf_readable fs file_path doc_name raw self tr L).
  cbn [fst snd]. eexists. split; [reflexivity|].
  split; [|split].
  - rewrite get_document_info_lookup. cbn [PDFProcessor.documents].
    now rewrite dict_lookup_set_same.
  - intros other Hne. rewrite !get_document_info_lookup.
    cbn [PDFProcessor.documents]. now rewrite dict_lookup_set_other.
  - assert (K : forall p, keys (PDFProcessor.get_document_info p)
                          = keys p.(PDFProcessor.documents)).
    { intro p. unfold keys, PDFProcessor.get_document_info.
      rewrite map_map. apply map_ext. now intros [k d]. }
    rewrite K. cbn [PDFProcessor.documents]. now apply dict_set_NoDup.
Qed.

Lemma process_pdf_then_info_witness :
  let r :=
    PDFProcessor.process_pdf
      [("uploads/paris.pdf", PDFProcessor.Readable paris_context)]
      "uploads/paris.pdf" None PDFProcessor.default [] in
  exists chunks,
    fst (fst r) = Returned chunks
    /\ Dict.lookup (stored_name "uploads/paris.pdf" None)
         (PDFProcessor.get_document_info (snd (fst r)))
       = Some (Z.of_nat (List.length chunks),
               PyStr.len (PDFProcessor._clean_text paris_context))
    /\ (forall other,
           other <> stored_name "uploads/paris.pdf" None ->
           Dict.lookup other (PDFProcessor.get_document_info (snd (fst r)))
           = Dict.lookup other
               (PDFProcessor.get_document_info PDFProcessor.default))
    /\ NoDup (keys (PDFProcessor.get_document_info (snd (fst r)))).
Proof.
  apply (process_pdf_then_info
           [("uploads/paris.pdf", PDFProcessor.Readable paris_context)]
           "uploads/paris.pdf" None paris_context PDFProcessor.default []).
  - reflexivity.
  - constructor.
Defined.

Section Basename.

Lemma basename_from_slash_free (s cur : string) :
  slash_free s = true ->
  PDFProcessor.basename_from cur s = (cur ++ s)%string.
Proof.
  revert cur; induction s as [|c s IH]; intros cur H; simpl.
  - now rewrite append_empty_r.
  - unfold slash_free in H. simpl in H. apply andb_prop in H as [Hc Hs].
    apply negb_true_iff in Hc. rewrite Hc, IH by exact Hs.
    now rewrite append_assoc.
Qed.

Lemma basename_from_dir (dir rest cur : string) :
  PDFProcessor.basename_from cur (dir ++ String "/"%char rest)
  = PDFProcessor.basename_from "" rest.
Proof.
  revert cur; induction dir as [|c dir IH]; intro cur; simpl.
  - reflexivity.
  - destruct (Ascii.eqb c "/"%char); apply IH.
Qed.

End Basename.

(** X9: for a file name without a slash, the base name of the path
    [upload_pdf] saves the file under is the file name itself, so the name
    [process_pdf] would choose on its own is the one [upload_pdf] passes. *)
Theorem upload_path_basename (filename : string) :
  slash_free filename = true ->
  PDFProcessor.basename (Main.path_join Main.UPLOAD_DIR filename) = filename
  /\ stored_name (Main.path_join Main.UPLOAD_DIR filename) None
     = stored_name (Main.path_join Main.UPLOAD_DIR filename) (Some filename).
Proof.
  intro H.
  assert (E : PDFProcessor.basename (Main.path_join Main.UPLOAD_DIR filename)
              = filename).
  { unfold Main.path_join.
    assert (P : String.prefix "/" filename = false).
    { destruct filename as [|c f]; [reflexivity|].
      unfold slash_free in H. simpl in H. apply andb_prop in H as [Hc _].
      apply negb_true_iff in Hc. cbn [String.prefix].
      destruct (ascii_dec "/"%char c) as [<-|N]; [discriminate Hc|].
      reflexivity. }
    rewrite P. unfold PDFProcessor.basename.
    change (Main.UPLOAD_DIR ++ "/" ++ filename)%string
      with (Main.UPLOAD_DIR ++ String "/"%char filename)%string.
    rewrite basename_from_dir. now apply basename_from_slash_free. }
  split; [exact E | exact E].
Qed.

Lemma upload_path_basename_witness :
  PDFProcessor.basename (Main.path_join Main.UPLOAD_DIR "report.pdf")
  = "report.pdf"
  /\ stored_name (Main.path_join Main.UPLOAD_DIR "report.pdf") None
     = stored_name (Main.path_join Main.UPLOAD_DIR "report.pdf")
         (Some "report.pdf").
Proof. apply (upload_path_basename "report.pdf"). reflexivity. Defined.

(** ** The handlers, branch by branch *)

Section Handlers.

Variable m : Models.t.

Lemma process_pdf_unreadable (fs : PDFProcessor.filesystem)
    (file_path : string) (doc_name : option string) (msg : string)
    (self : PDFProcessor.t) (tr : list event) :
  Dict.lookup file_path fs = Some (PDFProcessor.Unreadable msg) ->
  PDFProcessor.process_pdf fs file_path doc_name self tr
  = (Raised (ExtractionError
               ("Error extracting text from PDF: " ++ msg)%string),
     self, tr).
Proof.
  intro L. unfold PDFProcessor.process_pdf. rewrite dict_mem_lookup, L. simpl.
  unfold bind, lift, PDFProcessor.extract_text_from_pdf. now rewrite L.
Qed.

Lemma upload_pdf_eq (filename : string) (file : Main.upload)
    (app : Main.App) (tr : list event) :
  Main.upload_pdf m filename file app tr
  = if negb (PyStr.endswith filename ".pdf")
    then (Raised (HTTPException 500
                    ("Error processing PDF: "
                       ++ exn_str (HTTPException 400
                                     "Only PDF files are allowed"))%string),
          app, tr)
    else
      let file_path := Main.path_join Main.UPLOAD_DIR filename in
      match file with
      | Main.OpenRaises msg =>
          (Raised (HTTPException 500 ("Error processing PDF: " ++ msg)%string),
           app, tr)
      | Main.CopyRaises msg partial =>
          (Raised (HTTPException 500 ("Error processing PDF: " ++ msg)%string),
           Main.set_files (Dict.set file_path partial app.(Main.files)) app,
           tr)
      | Main.Saved (PDFProcessor.Unreadable msg) =>
          (Raised (HTTPException 500
                     ("Error processing PDF: "
                        ++ "Error extracting text from PDF: " ++ msg)%string),
           Main.set_files
             (Dict.set file_path (PDFProcessor.Unreadable msg)
                app.(Main.files)) app,
           tr)
      | Main.Saved (PDFProcessor.Readable raw) =>
          let fs' :=
            Dict.set file_path (PDFProcessor.Readable raw) app.(Main.files) in
          let p := app.(Main.pdf_processor) in
          let text := PDFProcessor._clean_text raw in
          let chunks := PDFProcessor.chunk_text p text None None in
          let p' :=
            {| PDFProcessor.documents :=
                 Dict.set filename
                   {| PDFProcessor.path := file_path;
                      PDFProcessor.chunks := chunks;
                      PDFProcessor.full_text := text |}
                   p.(PDFProcessor.documents);
               PDFProcessor.text_chunks :=
                 p.(PDFProcessor.text_chunks) ++ chunks;
               PDFProcessor.chunk_size := p.(PDFProcessor.chunk_size);
               PDFProcessor.overlap := p.(PDFProcessor.overlap) |} in
          let all := app.(Main.qa_engine).(QAEngine.text_chunks) ++ chunks in
          match Models.encode_all m all with
          | Returned es =>
              (Returned (Z.of_nat (List.length chunks),
                         Z.of_nat (List.length p'.(PDFProcessor.documents))),
               {| Main.files := fs';
                  Main.pdf_processor := p';
                  Main.qa_engine :=
                    {| QAEngine.text_chunks := all;
                       QAEngine.embeddings := Some es |} |},
               tr ++ [Call_encode all])
          | Raised e =>
              (Raised (HTTPException 500
                         ("Error processing PDF: " ++ exn_str e)%string),
               {| Main.files := fs';
                  Main.pdf_processor := p';
                  Main.qa_engine :=
                    {| QAEngine.text_chunks := all;
                       QAEngine.embeddings :=
                         app.(Main.qa_engine).(QAEngine.embeddings) |} |},
               tr ++ [Call_encode all])
          end
      end.
Proof.
  unfold Main.upload_pdf, Main.or_500, try_except.
  destruct (negb (PyStr.endswith filename ".pdf")); [reflexivity|].
  cbv zeta.
  destruct file as [[raw|msg] | msg | msg partial];
    [| | reflexivity | reflexivity];
    unfold Main.on_pdf_processor, Main.on_qa_engine, zoom, bind, get, put,
      ret, raise;
    cbn [Main.files Main.set_files Main.pdf_processor Main.qa_engine].
  - rewrite (process_pdf_readable _ _ (Some filename) raw)
      by apply dict_lookup_set_same.
    cbv zeta. cbn [stored_name]. rewrite add_documents_eq. cbv zeta.
    cbn [Main.files Main.set_files Main.pdf_processor Main.qa_engine
         Main.set_pdf_processor].
    destruct (Models.encode_all m _); reflexivity.
  - rewrite (process_pdf_unreadable _ _ (Some filename) msg)
      by apply dict_lookup_set_same.
    reflexivity.
Qed.

Lemma delete_document_eq (doc_name : string) (app : Main.App)
    (tr : list event) :
  Main.delete_document m doc_name app tr
  = let p := app.(Main.pdf_processor) in
    if negb (Dict.mem doc_name p.(PDFProcessor.documents))
    then (Raised (HTTPException 500
                    ("Error deleting document: "
                       ++ exn_str (HTTPException 404
                                     "Document not found"))%string),
          app, tr)
    else
      let p' :=
        {| PDFProcessor.documents :=
             Dict.del doc_name p.(PDFProcessor.documents);
           PDFProcessor.text_chunks := p.(PDFProcessor.text_chunks);
           PDFProcessor.chunk_size := p.(PDFProcessor.chunk_size);
           PDFProcessor.overlap := p.(PDFProcessor.overlap) |} in
      let all_chunks :=
        flat_map PDFProcessor.chunks
          (Dict.values p'.(PDFProcessor.documents)) in
      let file_path := Main.path_join Main.UPLOAD_DIR doc_name in
      let fs' :=
        if Dict.mem file_path app.(Main.files)
        then Dict.del file_path app.(Main.files)
        else app.(Main.files) in
      match all_chunks with
      | [] =>
          (Returned tt,
           {| Main.files := fs';
              Main.pdf_processor := p';
              Main.qa_engine :=
                {| QAEngine.text_chunks := [];
                   QAEngine.embeddings := None |} |},
           tr)
      | _ :: _ =>
          match Models.encode_all m all_chunks with
          | Returned es =>
              (Returned tt,
               {| Main.files := fs';
                  Main.pdf_processor := p';
                  Main.qa_engine :=
                    {| QAEngine.text_chunks := all_chunks;
                       QAEngine.embeddings := Some es |} |},
               tr ++ [Call_encode all_chunks])
          | Raised e =>
              (Raised (HTTPException 500
                         ("Error deleting document: " ++ exn_str e)%string),
               {| Main.files := app.(Main.files);
                  Main.pdf_processor := p';
                  Main.qa_engine :=
                    {| QAEngine.text_chunks := all_chunks;
                       QAEngine.embeddings :=
                         app.(Main.qa_engine).(QAEngine.embeddings) |} |},
               tr ++ [Call_encode all_chunks])
          end
      end.
Proof.
  unfold Main.delete_document, Main.or_500, try_except.
  unfold bind at 1. unfold get at 1. cbv zeta.
  destruct (negb (Dict.mem doc_name _)); [reflexivity|].
  unfold Main.on_qa_engine, zoom, bind, get, put, ret, raise.
  cbn [Main.qa_engine Main.set_qa_engine Main.set_pdf_processor
       Main.pdf_processor Main.files PDFProcessor.documents].
  destruct (flat_map PDFProcessor.chunks _) as [|c cs] eqn:F.
  - cbn [Main.qa_engine Main.set_qa_engine Main.set_pdf_processor
         Main.pdf_processor Main.files QAEngine.text_chunks].
    destruct (Dict.mem _ _); reflexivity.
  - rewrite compute_embeddings_eq.
    cbn [Main.qa_engine Main.set_qa_engine Main.set_pdf_processor
         Main.pdf_processor Main.files QAEngine.text_chunks
         QAEngine.embeddings].
    destruct (Models.encode_all m (c :: cs)); [|reflexivity].
    cbn [Main.qa_engine Main.set_qa_engine Main.set_pdf_processor
         Main.pdf_processor Main.files Main.set_files].
    destruct (Dict.mem _ _); reflexivity.
Qed.

Lemma clear_all_eq (app : Main.App) (tr : list event) :
  Main.clear_all app tr
  = (Returned tt,
     {| Main.files := [];
        Main.pdf_processor :=
          {| PDFProcessor.documents := [];
             PDFProcessor.text_chunks := [];
             PDFProcessor.chunk_size :=
               app.(Main.pdf_processor).(PDFProcessor.chunk_size);
             PDFProcessor.overlap :=
               app.(Main.pdf_processor).(PDFProcessor.overlap) |};
        Main.qa_engine := QAEngine.init |},
     tr).
Proof. reflexivity. Qed.

End Handlers.

Section HandlerFacts.

Variable m : Models.t.

Lemma encode_all_total (l : list string) :
  encoder_total m -> exists es, Models.encode_all m l = Returned es.
Proof.
  intro T. induction l as [|s l [es IH]]; simpl; [eauto|].
  specialize (T s). destruct (Models.encode m s); [|discriminate].
  rewrite IH. eauto.
Qed.

Lemma dict_del_set_fresh {V : Type} (k : string) (v : V)
    (d : list (string * V)) :
  Dict.mem k d = false -> Dict.del k (Dict.set k v d) = d.
Proof.
  induction d as [|[k' v'] d IH]; simpl; intro H.
  - now rewrite String.eqb_refl.
  - apply orb_false_iff in H as [H1 H2]. rewrite H1. simpl. rewrite H1.
    now rewrite IH.
Qed.

Lemma dict_mem_set {V : Type} (k : string) (v : V) (d : list (string * V)) :
  Dict.mem k (Dict.set k v d) = true.
Proof. rewrite dict_mem_lookup, dict_lookup_set_same. reflexivity. Qed.

Lemma Forall_dict_set {V : Type} (P : string * V -> Prop) (k : string)
    (v : V) (d : list (string * V)) :
  Forall P d -> P (k, v) -> Forall P (Dict.set k v d).
Proof.
  intros Hd Hk. induction Hd as [|[k' v'] d Hp Hd IH]; simpl.
  - now constructor.
  - destruct (String.eqb k k') eqn:E.
    + apply String.eqb_eq in E. subst k'. now constructor.
    + now constructor.
Qed.

Lemma Forall_dict_del {V : Type} (P : string * V -> Prop) (k : string)
    (d : list (string * V)) :
  Forall P d -> Forall P (Dict.del k d).
Proof.
  induction 1 as [|[k' v'] d Hp Hd IH]; simpl; [constructor|].
  destruct (String.eqb k k'); [assumption | now constructor].
Qed.

Lemma chunk_text_config (p q : PDFProcessor.t) (text : string)
    (cs ov : option Z) :
  p.(PDFProcessor.chunk_size) = q.(PDFProcessor.chunk_size) ->
  p.(PDFProcessor.overlap) = q.(PDFProcessor.overlap) ->
  PDFProcessor.chunk_text p text cs ov = PDFProcessor.chunk_text q text cs ov.
Proof. intros H1 H2. unfold PDFProcessor.chunk_text. now rewrite H1, H2. Qed.

Lemma handle_eq_upload (filename : string) (file : Main.upload)
    (app : Main.App) (tr : list event) :
  Main.handle m (Main.Upload filename file) app tr
  = match Main.upload_pdf m filename file app tr with
    | (Returned _, app', tr') => (Returned tt, app', tr')
    | (Raised e, app', tr') => (Raised e, app', tr')
    end.
Proof.
  simpl. unfold bind, ret.
  now destruct (Main.upload_pdf m filename file app tr) as [[[?|?] ?] ?].
Qed.

End HandlerFacts.

(** X10: whatever goes wrong inside [upload_pdf], [delete_document] or
    [clear_all], the exception that leaves the handler is an
    [HTTPException] with status 500: the 400 for a file that is no PDF and
    the 404 for an unknown document are raised inside the [try] and caught
    by its [except Exception]. *)
Theorem handlers_raise_only_500 (m : Models.t) (r : Main.request)
    (app app' : Main.App) (tr tr' : list event) (e : exn) :
  Main.handle m r app tr = (Raised e, app', tr') ->
  exists detail, e = HTTPException 500 detail.
Proof.
  destruct r as [filename file | doc_name |].
  - rewrite handle_eq_upload, upload_pdf_eq.
    destruct (negb (PyStr.endswith filename ".pdf")).
    + intro H. inversion H. eauto.
    + cbv zeta. destruct file as [[raw|msg] | msg | msg partial].
      * destruct (Models.encode_all m _); intro H; inversion H. eauto.
      * intro H. inversion H. eauto.
      * intro H. inversion H. eauto.
      * intro H. inversion H. eauto.
  - simpl. rewrite delete_document_eq. cbv zeta.
    destruct (negb (Dict.mem doc_name _)).
    + intro H. inversion H. eauto.
    + destruct (flat_map PDFProcessor.chunks _).
      * discriminate.
      * destruct (Models.encode_all m _); intro H; inversion H. eauto.
  - simpl. rewrite clear_all_eq. discriminate.
Qed.

Lemma handlers_raise_only_500_witness :
  exists detail,
    HTTPException 500
      ("Error deleting document: "
         ++ exn_str (HTTPException 404 "Document not found"))%string
    = HTTPException 500 detail.
Proof.
  apply (handlers_raise_only_500 toy_models (Main.Delete "missing.pdf")
           Main.startup Main.startup [] []).
  reflexivity.
Defined.

(** X11: an upload whose file name does not end in [.pdf], or whose file
    cannot be opened for writing, changes nothing, not even the upload
    directory.  An upload that is saved but cannot be read, or whose copy
    breaks off, leaves a file in the upload directory, while the
    documents, both corpora and the index stay as they were and no model
    is called.  All four end in status 500. *)
Theorem upload_pdf_rejected (m : Models.t) (filename : string)
    (file : Main.upload) (app : Main.App) (tr : list event) :
  (PyStr.endswith filename ".pdf" = false
   \/ (exists msg, file = Main.OpenRaises msg) ->
   exists detail,
     Main.upload_pdf m filename file app tr
     = (Raised (HTTPException 500 detail), app, tr))
  /\ (PyStr.endswith filename ".pdf" = true ->
      forall left,
        (exists msg, left = PDFProcessor.Unreadable msg /\ file = Main.Saved left)
        \/ (exists msg, file = Main.CopyRaises msg left) ->
        exists detail,
          Main.upload_pdf m filename file app tr
          = (Raised (HTTPException 500 detail),
             {| Main.files :=
                  Dict.set (Main.path_join Main.UPLOAD_DIR filename)
                    left app.(Main.files);
                Main.pdf_processor := app.(Main.pdf_processor);
                Main.qa_engine := app.(Main.qa_engine) |},
             tr)).
Proof.
  split.
  - intros [H | [msg ->]]; rewrite upload_pdf_eq.
    + rewrite H. simpl. eauto.
    + destruct (negb (PyStr.endswith filename ".pdf")); simpl; eauto.
  - intros H left [(msg & -> & ->) | (msg & ->)];
      rewrite upload_pdf_eq, H; simpl; eauto.
Qed.

Lemma upload_pdf_rejected_witness :
  (exists detail,
      Main.upload_pdf toy_models "notes.txt"
        (Main.Saved (PDFProcessor.Readable "x")) Main.startup []
      = (Raised (HTTPException 500 detail), Main.startup, []))
  /\ (exists detail,
        Main.upload_pdf toy_models "sub/x.pdf"
          (Main.OpenRaises "No such file or directory") Main.startup []
        = (Raised (HTTPException 500 detail), Main.startup, []))
  /\ (exists detail,
        Main.upload_pdf toy_models "bad.pdf"
          (Main.Saved (PDFProcessor.Unreadable "EOF")) Main.startup []
        = (Raised (HTTPException 500 detail),
           {| Main.files :=
                Dict.set (Main.path_join Main.UPLOAD_DIR "bad.pdf")
                  (PDFProcessor.Unreadable "EOF") Main.startup.(Main.files);
              Main.pdf_processor := Main.startup.(Main.pdf_processor);
              Main.qa_engine := Main.startup.(Main.qa_engine) |},
           [])).
Proof.
  split; [|split].
  - apply (upload_pdf_rejected toy_models "notes.txt"
             (Main.Saved (PDFProcessor.Readable "x")) Main.startup []).
    left. reflexivity.
  - apply (upload_pdf_rejected toy_models "sub/x.pdf"
             (Main.OpenRaises "No such file or directory") Main.startup []).
    right. eexists. reflexivity.
  - apply (upload_pdf_rejected toy_models "bad.pdf"
             (Main.Saved (PDFProcessor.Unreadable "EOF")) Main.startup []).
    + reflexivity.
    + left. exists "EOF". split; reflexivity.
Defined.

(** X12: an upload of a PDF that is saved and can be read, with an encoder
    that returns, answers with the number of chunks of
    the document and the number of stored documents; the document is
    listed under the file name, the processor's corpus and the engine's
    corpus have both grown by the document's chunks, and the index is
    aligned with the engine's corpus. *)
Theorem upload_pdf_accepted (m : Models.t) (filename raw : string)
    (app : Main.App) (tr : list event) :
  PyStr.endswith filename ".pdf" = true ->
  encoder_total m ->
  let r := Main.upload_pdf m filename
      (Main.Saved (PDFProcessor.Readable raw)) app tr in
  let app' := snd (fst r) in
  let chunks :=
    PDFProcessor.chunk_text app.(Main.pdf_processor)
      (PDFProcessor._clean_text raw) None None in
  fst (fst r)
  = Returned (Z.of_nat (List.length chunks),
              Z.of_nat (List.length
                          app'.(Main.pdf_processor).(PDFProcessor.documents)))
  /\ Dict.lookup filename
       (PDFProcessor.get_document_info app'.(Main.pdf_processor))
     = Some (Z.of_nat (List.length chunks),
             PyStr.len (PDFProcessor._clean_text raw))
  /\ app'.(Main.pdf_processor).(PDFProcessor.text_chunks)
     = app.(Main.pdf_processor).(PDFProcessor.text_chunks) ++ chunks
  /\ app'.(Main.qa_engine).(QAEngine.text_chunks)
     = app.(Main.qa_engine).(QAEngine.text_chunks) ++ chunks
  /\ index_aligned m app'.(Main.qa_engine).
Proof.
  intros He T r app' chunks. subst r app'.
  rewrite upload_pdf_eq, He. cbv zeta. cbn [negb].
  destruct (encode_all_total m
              (QAEngine.text_chunks (Main.qa_engine app) ++ chunks) T)
    as [es E].
  fold chunks. rewrite E. cbn [fst snd Main.pdf_processor Main.qa_engine
                                PDFProcessor.documents
                                PDFProcessor.text_chunks
                                QAEngine.text_chunks].
  split; [reflexivity | split; [|split; [reflexivity | split]]].
  - rewrite get_document_info_lookup. cbn [PDFProcessor.documents].
    now rewrite dict_lookup_set_same.
  - reflexivity.
  - now apply encode_all_aligned.
Qed.

Lemma toy_models_total : encoder_total toy_models.
Proof. intro s. reflexivity. Qed.

Lemma upload_pdf_accepted_witness :
  let r := Main.upload_pdf toy_models "paris.pdf"
      (Main.Saved (PDFProcessor.Readable paris_context)) Main.startup [] in
  (snd (fst r)).(Main.qa_engine).(QAEngine.text_chunks)
  = Main.startup.(Main.qa_engine).(QAEngine.text_chunks)
      ++ PDFProcessor.chunk_text Main.startup.(Main.pdf_processor)
           (PDFProcessor._clean_text paris_context) None None
  /\ index_aligned toy_models (snd (fst r)).(Main.qa_engine).
Proof.
  apply (upload_pdf_accepted toy_models "paris.pdf" paris_context
           Main.startup []).
  - reflexivity.
  - exact toy_models_total.
Defined.

(** X13: when the encoder raises during the upload of a PDF that was saved
    and read, the request fails with status 500 but is not undone: the file is saved, the document is
    stored and listed, and both corpora hold its chunks, while the index
    is the one from before the upload. *)
Theorem upload_pdf_encoder_raises (m : Models.t) (filename raw : string)
    (app : Main.App) (tr : list event) (e : exn) :
  PyStr.endswith filename ".pdf" = true ->
  let chunks :=
    PDFProcessor.chunk_text app.(Main.pdf_processor)
      (PDFProcessor._clean_text raw) None None in
  Models.encode_all m
    (app.(Main.qa_engine).(QAEngine.text_chunks) ++ chunks) = Raised e ->
  let r := Main.upload_pdf m filename
      (Main.Saved (PDFProcessor.Readable raw)) app tr in
  let app' := snd (fst r) in
  fst (fst r)
  = Raised (HTTPException 500 ("Error processing PDF: " ++ exn_str e)%string)
  /\ Dict.lookup (Main.path_join Main.UPLOAD_DIR filename) app'.(Main.files)
     = Some (PDFProcessor.Readable raw)
  /\ Dict.lookup filename
       (PDFProcessor.get_document_info app'.(Main.pdf_processor))
     = Some (Z.of_nat (List.length chunks),
             PyStr.len (PDFProcessor._clean_text raw))
  /\ app'.(Main.pdf_processor).(PDFProcessor.text_chunks)
     = app.(Main.pdf_processor).(PDFProcessor.text_chunks) ++ chunks
  /\ app'.(Main.qa_engine).(QAEngine.text_chunks)
     = app.(Main.qa_engine).(QAEngine.text_chunks) ++ chunks
  /\ app'.(Main.qa_engine).(QAEngine.embeddings)
     = app.(Main.qa_engine).(QAEngine.embeddings).
Proof.
  intros He chunks E r app'. subst r app'.
  rewrite upload_pdf_eq, He. cbv zeta. cbn [negb].
  fold chunks. rewrite E.
  cbn [fst snd Main.pdf_processor Main.qa_engine Main.files
       PDFProcessor.documents PDFProcessor.text_chunks
       QAEngine.text_chunks QAEngine.embeddings].
  split; [reflexivity | split; [|split; [|repeat split]]].
  - apply dict_lookup_set_same.
  - rewrite get_document_info_lookup. cbn [PDFProcessor.documents].
    now rewrite dict_lookup_set_same.
Qed.

Lemma upload_pdf_encoder_raises_witness :
  let r := Main.upload_pdf failing_models "a.pdf"
      (Main.Saved (PDFProcessor.Readable "x")) Main.startup [] in
  fst (fst r)
  = Raised (HTTPException 500
              ("Error processing PDF: "
                 ++ exn_str (ModelError "encoder unavailable"))%string)
  /\ Dict.lookup (Main.path_join Main.UPLOAD_DIR "a.pdf")
       (snd (fst r)).(Main.files)
     = Some (PDFProcessor.Readable "x").
Proof.
  pose proof (upload_pdf_encoder_raises failing_models "a.pdf" "x"
                Main.startup [] (ModelError "encoder unavailable")
                eq_refl eq_refl) as H.
  cbv zeta in H. destruct H as (H1 & H2 & _).
  split; assumption.
Defined.

(** X14: deleting a name that is not stored changes nothing and calls no
    model; the 404 raised for it leaves the handler as a status 500. *)
Theorem delete_document_unknown (m : Models.t) (doc_name : string)
    (app : Main.App) (tr : list event) :
  Dict.mem doc_name app.(Main.pdf_processor).(PDFProcessor.documents)
  = false ->
  exists detail,
    Main.delete_document m doc_name app tr
    = (Raised (HTTPException 500 detail), app, tr).
Proof.
  intro H. rewrite delete_document_eq. cbv zeta. rewrite H. simpl. eauto.
Qed.

Lemma delete_document_unknown_witness :
  exists detail,
    Main.delete_document toy_models "missing.pdf" Main.startup []
    = (Raised (HTTPException 500 detail), Main.startup, []).
Proof.
  apply (delete_document_unknown toy_models "missing.pdf" Main.startup []).
  reflexivity.
Defined.

(** X15: deleting a stored document, with an encoder that returns, takes
    the document off the list and leaves the other entries alone; the
    engine's corpus becomes the chunks of the remaining documents in
    order, with an aligned index, while the processor's own [text_chunks]
    keeps the deleted document's chunks. *)
Theorem delete_document_stored (m : Models.t) (doc_name : string)
    (app : Main.App) (tr : list event) :
  Dict.mem doc_name app.(Main.pdf_processor).(PDFProcessor.documents)
  = true ->
  NoDup (keys app.(Main.pdf_processor).(PDFProcessor.documents)) ->
  encoder_total m ->
  let r := Main.delete_document m doc_name app tr in
  let app' := snd (fst r) in
  fst (fst r) = Returned tt
  /\ Dict.lookup doc_name
       (PDFProcessor.get_document_info app'.(Main.pdf_processor)) = None
  /\ (forall other,
         other <> doc_name ->
         Dict.lookup other
           (PDFProcessor.get_document_info app'.(Main.pdf_processor))
         = Dict.lookup other
             (PDFProcessor.get_document_info app.(Main.pdf_processor)))
  /\ corpus_matches app'
  /\ index_aligned m app'.(Main.qa_engine)
  /\ app'.(Main.pdf_processor).(PDFProcessor.text_chunks)
     = app.(Main.pdf_processor).(PDFProcessor.text_chunks).
Proof.
  intros Hm Hnd T r app'. subst r app'.
  rewrite delete_document_eq. cbv zeta. rewrite Hm. cbn [negb].
  set (docs' := Dict.del doc_name
                  (PDFProcessor.documents (Main.pdf_processor app))).
  cbn [PDFProcessor.documents].
  assert (L1 : forall p',
             PDFProcessor.documents p' = docs' ->
             Dict.lookup doc_name (PDFProcessor.get_document_info p') = None).
  { intros p' E. rewrite get_document_info_lookup, E.
    unfold docs'. now rewrite dict_lookup_del_same. }
  assert (L2 : forall p' other,
             PDFProcessor.documents p' = docs' ->
             other <> doc_name ->
             Dict.lookup other (PDFProcessor.get_document_info p')
             = Dict.lookup other
                 (PDFProcessor.get_document_info (Main.pdf_processor app))).
  { intros p' other E Hne. rewrite !get_document_info_lookup, E.
    unfold docs'. now rewrite dict_lookup_del_other. }
  destruct (flat_map PDFProcessor.chunks (Dict.values docs'))
    as [|c cs] eqn:F.
  - cbn [fst snd Main.pdf_processor Main.qa_engine].
    split; [reflexivity|].
    split; [now apply L1|].
    split; [intros other Hne; now apply L2|].
    split; [|split; reflexivity].
    unfold corpus_matches.
    cbn [Main.pdf_processor Main.qa_engine PDFProcessor.documents
         QAEngine.text_chunks].
    fold docs'. now rewrite F.
  - destruct (encode_all_total m (c :: cs) T) as [es E]. rewrite E.
    cbn [fst snd Main.pdf_processor Main.qa_engine].
    split; [reflexivity|].
    split; [now apply L1|].
    split; [intros other Hne; now apply L2|].
    split; [|split; [now apply encode_all_aligned | reflexivity]].
    unfold corpus_matches.
    cbn [Main.pdf_processor Main.qa_engine PDFProcessor.documents
         QAEngine.text_chunks].
    fold docs'. now rewrite F.
Qed.

Lemma delete_document_stored_witness :
  let app :=
    snd (fst (Main.serve toy_models
                [Main.Upload "a.pdf" (Main.Saved (PDFProcessor.Readable "alpha beta"));
                 Main.Upload "b.pdf" (Main.Saved (PDFProcessor.Readable "gamma"))]
                Main.startup [])) in
  let r := Main.delete_document toy_models "a.pdf" app [] in
  fst (fst r) = Returned tt
  /\ (snd (fst r)).(Main.qa_engine).(QAEngine.text_chunks) = ["gamma"]
  /\ (snd (fst r)).(Main.pdf_processor).(PDFProcessor.text_chunks)
     = ["alpha beta"; "gamma"].
Proof.
  intros app r.
  pose proof (delete_document_stored toy_models "a.pdf" app []) as H.
  destruct H as (H1 & _ & _ & H4 & _ & H6).
  - reflexivity.
  - vm_compute. repeat constructor; simpl; intuition discriminate.
  - exact toy_models_total.
  - split; [exact H1 | split; [exact H4 | exact H6]].
Defined.

(** X16: uploading a PDF that is saved and can be read, under a name that
    is not stored, and then deleting it, with an encoder that returns and an engine corpus that
    matched the documents, brings the documents and the engine's corpus
    back to what they were; the processor's own [text_chunks] keeps the
    chunks of the deleted document. *)
Theorem upload_then_delete (m : Models.t) (filename raw : string)
    (app : Main.App) (tr : list event) :
  PyStr.endswith filename ".pdf" = true ->
  Dict.mem filename app.(Main.pdf_processor).(PDFProcessor.documents)
  = false ->
  corpus_matches app ->
  encoder_total m ->
  let r :=
    Main.serve m
      [Main.Upload filename (Main.Saved (PDFProcessor.Readable raw)); Main.Delete filename]
      app tr in
  let app' := snd (fst r) in
  fst (fst r) = [Returned tt; Returned tt]
  /\ app'.(Main.pdf_processor).(PDFProcessor.documents)
     = app.(Main.pdf_processor).(PDFProcessor.documents)
  /\ app'.(Main.qa_engine).(QAEngine.text_chunks)
     = app.(Main.qa_engine).(QAEngine.text_chunks)
  /\ index_aligned m app'.(Main.qa_engine)
  /\ app'.(Main.pdf_processor).(PDFProcessor.text_chunks)
     = app.(Main.pdf_processor).(PDFProcessor.text_chunks)
         ++ PDFProcessor.chunk_text app.(Main.pdf_processor)
              (PDFProcessor._clean_text raw) None None.
Proof.
  intros He Hf Hc T r app'. subst r app'.
  cbn [Main.serve]. rewrite handle_eq_upload, upload_pdf_eq, He.
  cbv zeta. cbn [negb].
  set (chunks := PDFProcessor.chunk_text (Main.pdf_processor app)
                   (PDFProcessor._clean_text raw) None None).
  destruct (encode_all_total m
              (QAEngine.text_chunks (Main.qa_engine app) ++ chunks) T)
    as [es E].
  rewrite E. cbn [Main.handle].
  rewrite delete_document_eq. cbv zeta.
  cbn [Main.pdf_processor Main.qa_engine Main.files PDFProcessor.documents
       PDFProcessor.text_chunks PDFProcessor.chunk_size PDFProcessor.overlap
       QAEngine.text_chunks QAEngine.embeddings].
  rewrite dict_mem_set. cbn [negb].
  rewrite dict_del_set_fresh by assumption.
  rewrite <- Hc.
  destruct (QAEngine.text_chunks (Main.qa_engine app)) as [|c cs] eqn:Q.
  - cbn [fst snd Main.pdf_processor Main.qa_engine PDFProcessor.documents
         PDFProcessor.text_chunks QAEngine.text_chunks].
    repeat split; reflexivity.
  - destruct (encode_all_total m (c :: cs) T) as [es' E']. rewrite E'.
    cbn [fst snd Main.pdf_processor Main.qa_engine PDFProcessor.documents
         PDFProcessor.text_chunks QAEngine.text_chunks].
    split; [reflexivity | split; [reflexivity | split; [reflexivity|]]].
    split; [now apply encode_all_aligned | reflexivity].
Qed.

Lemma upload_then_delete_witness :
  let r :=
    Main.serve toy_models
      [Main.Upload "paris.pdf" (Main.Saved (PDFProcessor.Readable paris_context));
       Main.Delete "paris.pdf"]
      Main.startup [] in
  fst (fst r) = [Returned tt; Returned tt]
  /\ (snd (fst r)).(Main.pdf_processor).(PDFProcessor.documents)
     = Main.startup.(Main.pdf_processor).(PDFProcessor.documents)
  /\ (snd (fst r)).(Main.qa_engine).(QAEngine.text_chunks)
     = Main.startup.(Main.qa_engine).(QAEngine.text_chunks)
  /\ index_aligned toy_models (snd (fst r)).(Main.qa_engine)
  /\ (snd (fst r)).(Main.pdf_processor).(PDFProcessor.text_chunks)
     = Main.startup.(Main.pdf_processor).(PDFProcessor.text_chunks)
         ++ PDFProcessor.chunk_text Main.startup.(Main.pdf_processor)
              (PDFProcessor._clean_text paris_context) None None.
Proof.
  apply (upload_then_delete toy_models "paris.pdf" paris_context
           Main.startup []).
  - reflexivity.
  - reflexivity.
  - reflexivity.
  - exact toy_models_total.
Defined.

Section StoreInvariant.

Variable m : Models.t.

Lemma store_inv_startup : store_inv Main.startup.
Proof.
  unfold store_inv. simpl.
  repeat split; try constructor. intros x [].
Qed.

Lemma incl_flat_map_chunks (docs : list (string * PDFProcessor.Document))
    (corpus : list string) :
  Forall (fun kd => incl (snd kd).(PDFProcessor.chunks) corpus) docs ->
  incl (flat_map PDFProcessor.chunks (Dict.values docs)) corpus.
Proof.
  unfold Dict.values.
  induction 1 as [|[k d] docs Hd Hdocs IH]; simpl; [intros x []|].
  apply incl_app; assumption.
Qed.

Lemma handle_store_inv (r : Main.request) (app : Main.App)
    (tr : list event) :
  store_inv app -> store_inv (snd (fst (Main.handle m r app tr))).
Proof.
  intros (Hnd & Hcs & Hov & Hdocs & Hq).
  destruct r as [filename content | doc_name |].
  - rewrite handle_eq_upload, upload_pdf_eq.
    destruct (negb (PyStr.endswith filename ".pdf")).
    { unfold store_inv. simpl. tauto. }
    cbv zeta. destruct content as [[raw|msg] | msg | msg partial].
    2,3,4:(unfold store_inv; simpl; tauto).
    set (chunks := PDFProcessor.chunk_text (Main.pdf_processor app)
                     (PDFProcessor._clean_text raw) None None).
    assert (G : store_inv
                  {| Main.files :=
                       Dict.set (Main.path_join Main.UPLOAD_DIR filename)
                         (PDFProcessor.Readable raw) (Main.files app);
                     Main.pdf_processor :=
                       {| PDFProcessor.documents :=
                            Dict.set filename
                              {| PDFProcessor.path :=
                                   Main.path_join Main.UPLOAD_DIR filename;
                                 PDFProcessor.chunks := chunks;
                                 PDFProcessor.full_text :=
                                   PDFProcessor._clean_text raw |}
                              (PDFProcessor.documents
                                 (Main.pdf_processor app));
                          PDFProcessor.text_chunks :=
                            PDFProcessor.text_chunks (Main.pdf_processor app)
                              ++ chunks;
                          PDFProcessor.chunk_size :=
                            PDFProcessor.chunk_size (Main.pdf_processor app);
                          PDFProcessor.overlap :=
                            PDFProcessor.overlap (Main.pdf_processor app) |};
                     Main.qa_engine :=
                       {| QAEngine.text_chunks :=
                            QAEngine.text_chunks (Main.qa_engine app)
                              ++ chunks;
                          QAEngine.embeddings := None |} |}).
    { unfold store_inv.
      cbn [Main.pdf_processor Main.qa_engine PDFProcessor.documents
           PDFProcessor.text_chunks PDFProcessor.chunk_size
           PDFProcessor.overlap QAEngine.text_chunks].
      split; [now apply dict_set_NoDup|].
      split; [assumption | split; [assumption | split]].
      - apply Forall_dict_set.
        + eapply Forall_impl; [|exact Hdocs].
          intros kd (H1 & H2 & H3). split; [assumption|].
          split; [assumption|]. now apply incl_appl.
        + cbn [fst snd PDFProcessor.chunks PDFProcessor.full_text
               PDFProcessor.path].
          split; [|split; [reflexivity | apply incl_appr, incl_refl]].
          unfold chunks. apply chunk_text_config; assumption.
      - apply incl_app; [now apply incl_appl | apply incl_appr, incl_refl]. }
    destruct (Models.encode_all m _); exact G.
  - cbn [Main.handle]. rewrite delete_document_eq. cbv zeta.
    destruct (negb (Dict.mem doc_name _)).
    { unfold store_inv. simpl. tauto. }
    assert (Hd' : Forall
                    (fun kd =>
                       (snd kd).(PDFProcessor.chunks)
                       = PDFProcessor.chunk_text PDFProcessor.default
                           (snd kd).(PDFProcessor.full_text) None None
                       /\ (snd kd).(PDFProcessor.path)
                          = Main.path_join Main.UPLOAD_DIR (fst kd)
                       /\ incl (snd kd).(PDFProcessor.chunks)
                            (PDFProcessor.text_chunks
                               (Main.pdf_processor app)))
                    (Dict.del doc_name
                       (PDFProcessor.documents (Main.pdf_processor app))))
      by (now apply Forall_dict_del).
    assert (Hi : incl
                   (flat_map PDFProcessor.chunks
                      (Dict.values
                         (Dict.del doc_name
                            (PDFProcessor.documents
                               (Main.pdf_processor app)))))
                   (PDFProcessor.text_chunks (Main.pdf_processor app))).
    { apply incl_flat_map_chunks.
      eapply Forall_impl; [|exact Hd']. now intros kd (_ & _ & H). }
    cbn [PDFProcessor.documents] in *.
    destruct (flat_map PDFProcessor.chunks _) as [|c cs].
    + unfold store_inv.
      cbn [fst snd Main.pdf_processor Main.qa_engine PDFProcessor.documents
           PDFProcessor.text_chunks PDFProcessor.chunk_size
           PDFProcessor.overlap QAEngine.text_chunks].
      split; [now apply dict_del_NoDup|].
      repeat (split; [assumption|]). intros x [].
    + destruct (Models.encode_all m (c :: cs)); unfold store_inv;
        cbn [fst snd Main.pdf_processor Main.qa_engine
             PDFProcessor.documents PDFProcessor.text_chunks
             PDFProcessor.chunk_size PDFProcessor.overlap
             QAEngine.text_chunks];
        (split; [now apply dict_del_NoDup|]);
        repeat (split; [assumption|]); assumption.
  - cbn [Main.handle]. rewrite clear_all_eq.
    unfold store_inv. simpl.
    repeat split; try constructor; try assumption. intros x [].
Qed.

Lemma serve_store_inv (rs : list Main.request) :
  forall app tr,
    store_inv app -> store_inv (snd (fst (Main.serve m rs app tr))).
Proof.
  induction rs as [|r rs IH]; intros app tr H; [exact H|].
  cbn [Main.serve].
  pose proof (handle_store_inv r app tr H) as H1.
  destruct (Main.handle m r app tr) as [[o1 app1] tr1].
  cbn [fst snd] in H1.
  specialize (IH app1 tr1 H1).
  now destruct (Main.serve m rs app1 tr1) as [[os app2] tr2].
Qed.

End StoreInvariant.

(** X17: after every sequence of upload, delete and clear requests served
    from the start state, whatever the handlers returned or raised: no
    document name is stored twice; the chunk size and overlap are still
    500 and 50; every stored document's chunks are the chunks of its
    cleaned text and its path is the upload path of its name; and the
    engine's corpus and every document's chunks are among the chunks the
    processor has recorded. *)
Theorem store_inv_after_requests (m : Models.t) (rs : list Main.request) :
  store_inv (snd (fst (Main.serve m rs Main.startup []))).
Proof. apply serve_store_inv, store_inv_startup. Qed.

(** ** More on retrieval *)

Section TopKSelection.

Lemma insert_desc_In (x y : Q * nat) (l : list (Q * nat)) :
  In y (Models.insert_desc x l) <-> y = x \/ In y l.
Proof.
  induction l as [|z l IH]; simpl; [intuition|].
  destruct (Qle_bool (fst z) (fst x)); simpl; [intuition|].
  rewrite IH. intuition.
Qed.

Lemma sort_desc_In (y : Q * nat) (l : list (Q * nat)) :
  In y (Models.sort_desc l) <-> In y l.
Proof.
  induction l as [|x l IH]; simpl; [tauto|].
  rewrite insert_desc_In, IH. intuition.
Qed.

Lemma enumerate_from_In (scores : list Q) :
  forall start i q,
    nth_error scores i = Some q ->
    In (q, (start + i)%nat) (Models.enumerate_from start scores).
Proof.
  induction scores as [|s rest IH]; intros start i q H.
  - destruct i; discriminate.
  - destruct i as [|i]; simpl in *.
    + injection H as <-. left. f_equal. lia.
    + right. replace (start + S i)%nat with (S start + i)%nat by lia.
      now apply IH.
Qed.

Lemma enumerate_from_nth (scores : list Q) :
  forall start,
    Forall (fun p => (start <= snd p)%nat
                     /\ nth_error scores (snd p - start) = Some (fst p))
           (Models.enumerate_from start scores).
Proof.
  induction scores as [|s rest IH]; intro start; simpl; constructor.
  - simpl. split; [lia|]. now rewrite Nat.sub_diag.
  - eapply Forall_impl; [|apply (IH (S start))].
    intros [q i] [H1 H2]. simpl in *. split; [lia|].
    replace (i - start)%nat with (S (i - S start)) by lia. exact H2.
Qed.

(** In a non-increasing list, whatever comes later is not above what
    comes earlier. *)
Lemma non_increasing_app (a b : list Q) :
  non_increasing (a ++ b) ->
  forall x y, In x a -> In y b -> (y <= x)%Q.
Proof.
  induction a as [|h a IH]; intros H x y Hx Hy; [destruct Hx|].
  assert (Hhead : forall l, non_increasing (h :: l) ->
                            forall z, In z l -> (z <= h)%Q).
  { clear. induction l as [|u l IHl]; intros H z Hz; [destruct Hz|].
    apply non_increasing_cons in H as [H1 H2].
    destruct Hz as [<-|Hz]; [exact H1|].
    apply IHl; [|exact Hz].
    apply non_increasing_cons in H2 as [H2a H2b].
    apply non_increasing_cons. split; [|exact H2b].
    destruct l as [|w l]; [exact I|].
    eapply Qle_trans; eassumption. }
  change ((h :: a) ++ b) with (h :: (a ++ b)) in H.
  destruct Hx as [<-|Hx].
  - apply (Hhead _ H). apply in_or_app. now right.
  - apply non_increasing_cons in H as [_ H]. now apply IH.
Qed.

(** What [torch.topk] leaves out is not above what it selects. *)
Lemma topk_selects_highest (scores : list Q) (k : Z)
    (top : list (Q * nat)) (i : nat) (q : Q) :
  Models.topk scores k = Returned top ->
  nth_error scores i = Some q ->
  In (q, i) top \/ forall p, In p top -> (q <= fst p)%Q.
Proof.
  unfold Models.topk.
  destruct ((k <? 0) || (Z.of_nat (List.length scores) <? k));
    [discriminate|].
  intros H Hq. injection H as <-.
  set (S := Models.sort_desc (Models.enumerate_from 0 scores)).
  assert (Hin : In (q, i) S).
  { apply sort_desc_In. exact (enumerate_from_In scores 0 i q Hq). }
  rewrite <- (firstn_skipn (Z.to_nat k) S) in Hin.
  apply in_app_or in Hin as [Hin|Hin]; [now left | right].
  intros p Hp.
  pose proof (sort_desc_sorted (Models.enumerate_from 0 scores)) as Hs.
  fold S in Hs. rewrite <- (firstn_skipn (Z.to_nat k) S), map_app in Hs.
  apply (non_increasing_app _ _ Hs (fst p) (fst (q, i))).
  - now apply in_map.
  - now apply (in_map fst) in Hin.
Qed.

Lemma topk_Forall (P : Q * nat -> Prop) (scores : list Q) (k : Z)
    (top : list (Q * nat)) :
  Forall P (Models.enumerate_from 0 scores) ->
  Models.topk scores k = Returned top ->
  Forall P top.
Proof.
  unfold Models.topk.
  destruct ((k <? 0) || (Z.of_nat (List.length scores) <? k));
    [discriminate|].
  intros HP H. injection H as <-.
  now apply Forall_firstn', sort_desc_Forall.
Qed.

End TopKSelection.

Section CollectResults.

Variable text_chunks : list string.

Lemma collect_results_Forall2 (top : list (Q * nat)) :
  forall res self self' tr tr',
    collect_results text_chunks top self tr = (Returned res, self', tr') ->
    Forall2 (fun p r => nth_error text_chunks (snd p) = Some (fst r)
                        /\ snd r = fst p)
            top res.
Proof.
  unfold collect_results.
  induction top as [|[score idx] top IH]; intros res self self' tr tr'; simpl.
  - unfold ret. intro H. inversion H; subst. constructor.
  - unfold bind at 1.
    destruct (nth_error text_chunks idx) as [chunk|] eqn:N;
      [|unfold raise; discriminate].
    unfold ret at 1. unfold bind at 1.
    match goal with
    | |- context [mapM ?f top self tr] =>
        destruct (mapM f top self tr) as [[[bs|e] s1] t1] eqn:E
    end; [|discriminate].
    unfold ret. intro H. inversion H; subst.
    constructor; [now split | eapply IH; eassumption].
Qed.

(** The loop writes nothing, whether it returns or raises. *)
Lemma collect_results_pure (top : list (Q * nat)) (self : QAEngine.t)
    (tr : list event) :
  snd (fst (collect_results text_chunks top self tr)) = self
  /\ snd (collect_results text_chunks top self tr) = tr.
Proof.
  unfold collect_results.
  induction top as [|[score idx] top [IH1 IH2]]; simpl; [now split|].
  unfold bind, ret, raise in *.
  destruct (nth_error text_chunks idx) as [chunk|]; [|now split].
  match goal with
  | |- context [mapM ?f top self tr] =>
      destruct (mapM f top self tr) as [[[bs|e] s1] t1]
  end; simpl in *; now split.
Qed.

End CollectResults.

(** X18: on a corpus that is not empty, what [search_similar_chunks]
    returns is read off the stored pair: every pair is the text of a
    corpus chunk with the cosine similarity between the query's vector
    and the vector stored at that chunk's position.  Every corpus chunk
    either is returned with its score or scores no higher than every
    returned pair.  The engine is left as it was and the encoder is
    called once, on the query alone. *)
Theorem search_similar_chunks_selects (m : Models.t) (query : string)
    (top_k : Z) (self self' : QAEngine.t) (tr tr' : list event)
    (res : list (string * Q)) :
  self.(QAEngine.text_chunks) <> [] ->
  QAEngine.search_similar_chunks m query top_k self tr
  = (Returned res, self', tr') ->
  self' = self
  /\ tr' = tr ++ [Call_search_similar_chunks query top_k; Call_encode [query]]
  /\ exists q es,
       Models.encode m query = Returned q
       /\ self.(QAEngine.embeddings) = Some es
       /\ Forall (fun r =>
                    exists idx v,
                      nth_error self.(QAEngine.text_chunks) idx = Some (fst r)
                      /\ nth_error es idx = Some v
                      /\ snd r = Models.cos_sim m q v)
                 res
       /\ (forall idx chunk v,
              nth_error self.(QAEngine.text_chunks) idx = Some chunk ->
              nth_error es idx = Some v ->
              In (chunk, Models.cos_sim m q v) res
              \/ forall r, In r res -> (Models.cos_sim m q v <= snd r)%Q).
Proof.
  intros Hne. rewrite search_similar_chunks_eq by assumption. cbv zeta.
  destruct (Models.encode m query) as [q|e]; [|discriminate].
  destruct (QAEngine.embeddings self) as [es|]; [|discriminate].
  destruct (Models.topk _ _) as [top|e] eqn:T; [|discriminate].
  intro H.
  pose proof (collect_results_pure (QAEngine.text_chunks self) top self
                ((tr ++ [Call_search_similar_chunks query top_k])
                   ++ [Call_encode [query]])) as [P1 P2].
  rewrite H in P1, P2. cbn [fst snd] in P1, P2.
  apply collect_results_Forall2 in H.
  split; [exact P1|].
  split; [now rewrite P2, <- app_assoc|].
  exists q, es. split; [reflexivity | split; [reflexivity | split]].
  - pose proof (topk_Forall _ _ _ _
                  (enumerate_from_nth (map (Models.cos_sim m q) es) 0) T)
      as Htop.
    clear T. induction H as [|p r top res [Hp1 Hp2] H IH]; [constructor|].
    inversion Htop as [|? ? [_ Hn] Htop']; subst.
    constructor; [|now apply IH].
    rewrite Nat.sub_0_r, nth_error_map in Hn.
    destruct (nth_error es (snd p)) as [v|] eqn:Ev; [|discriminate].
    exists (snd p), v. repeat split; try assumption.
    simpl in Hn. rewrite Hp2. now injection Hn as <-.
  - intros idx chunk v Hc Hv.
    assert (Hs : nth_error (map (Models.cos_sim m q) es) idx
                 = Some (Models.cos_sim m q v))
      by (now rewrite nth_error_map, Hv).
    destruct (topk_selects_highest _ _ _ _ _ T Hs) as [Hin|Hle].
    + left. clear - H Hin Hc.
      induction H as [|p r top res [Hp1 Hp2] H IH]; [destruct Hin|].
      destruct Hin as [->|Hin]; [|right; now apply IH].
      left. simpl in *. destruct r as [c s]. simpl in *.
      rewrite Hc in Hp1. now injection Hp1 as <-; subst.
    + right. intros r Hr. clear - H Hle Hr.
      induction H as [|p r0 top res [Hp1 Hp2] H IH]; [destruct Hr|].
      destruct Hr as [<-|Hr].
      * rewrite Hp2. apply Hle. now left.
      * apply IH; [|exact Hr]. intros p' Hp'. apply Hle. now right.
Qed.

Lemma search_similar_chunks_selects_witness :
  exists q es,
    Models.encode toy_models "xx" = Returned q
    /\ example_engine.(QAEngine.embeddings) = Some es
    /\ Forall (fun r =>
                 exists idx v,
                   nth_error example_engine.(QAEngine.text_chunks) idx
                   = Some (fst r)
                   /\ nth_error es idx = Some v
                   /\ snd r = Models.cos_sim toy_models q v)
              [("cccc", 8 # 1); ("aa", 4 # 1)]
    /\ (forall idx chunk v,
           nth_error example_engine.(QAEngine.text_chunks) idx = Some chunk ->
           nth_error es idx = Some v ->
           In (chunk, Models.cos_sim toy_models q v)
              [("cccc", 8 # 1); ("aa", 4 # 1)]
           \/ forall r, In r [("cccc", 8 # 1); ("aa", 4 # 1)] ->
                        (Models.cos_sim toy_models q v <= snd r)%Q).
Proof.
  apply (search_similar_chunks_selects toy_models "xx" 2 example_engine
           example_engine []
           [Call_search_similar_chunks "xx" 2; Call_encode ["xx"]]
           [("cccc", 8 # 1); ("aa", 4 # 1)]).
  - discriminate.
  - vm_compute. reflexivity.
Defined.

(** ** More on questions and answers *)

(** A question that fails validation gets the fixed request for a
    meaningful question, with confidence 0.0 and no relevant chunks,
    whatever the corpus holds; the engine and the trace are untouched. *)
Theorem process_query_invalid_question (m : Models.t) (question : string)
    (top_k : Z) (self : QAEngine.t) (tr : list event) :
  QAEngine._is_valid_question question = false ->
  QAEngine.process_query m question top_k self tr
  = (Returned
       {| QAEngine.question := question;
          QAEngine.q_answer :=
            "Please ask a meaningful question with actual words (not just symbols).";
          QAEngine.relevant_chunks := [];
          QAEngine.confidence := 0 |},
     self, tr).
Proof. intro H. unfold QAEngine.process_query. now rewrite H. Qed.

Lemma process_query_invalid_question_witness :
  QAEngine.process_query toy_models "?? 42 !!" 3 example_engine []
  = (Returned
       {| QAEngine.question := "?? 42 !!";
          QAEngine.q_answer :=
            "Please ask a meaningful question with actual words (not just symbols).";
          QAEngine.relevant_chunks := [];
          QAEngine.confidence := 0 |},
     example_engine, []).
Proof.
  apply (process_query_invalid_question toy_models "?? 42 !!" 3
           example_engine []).
  reflexivity.
Defined.

Section Validation.

Lemma findall_letters_nil (s : string) :
  PyStr.findall_letters s = [] <-> has_ascii_letter s = false.
Proof.
  unfold PyStr.findall_letters, has_ascii_letter.
  rewrite runs_from_nil, negb_false_iff. tauto.
Qed.

Lemma strip_empty : PyStr.strip "" = "".
Proof. reflexivity. Qed.

End Validation.

(** X19: a question is valid exactly when, stripped, it has at least 3
    characters, at least half as many alphabetic characters (counted
    before stripping) as it has characters after stripping, and at least
    one ASCII letter. *)
Theorem is_valid_question_iff (question : string) :
  QAEngine._is_valid_question question = true
  <-> 3 <= PyStr.len (PyStr.strip question)
      /\ PyStr.len (PyStr.strip question)
         <= 2 * PyStr.count_chars PyStr.isalpha question
      /\ has_ascii_letter question = true.
Proof.
  unfold QAEngine._is_valid_question.
  destruct (PyStr.is_empty question) eqn:E.
  - apply is_empty_true in E. subst question. simpl.
    split; [discriminate|]. unfold PyStr.len. simpl. lia.
  - cbn [orb].
    destruct (PyStr.len (PyStr.strip question) <? 3) eqn:L.
    + apply Z.ltb_lt in L. split; [discriminate | lia].
    + apply Z.ltb_ge in L.
      replace (0 <? PyStr.len (PyStr.strip question)) with true
        by (symmetry; apply Z.ltb_lt; lia).
      cbn [andb].
      destruct (2 * PyStr.count_chars PyStr.isalpha question
                <? PyStr.len (PyStr.strip question)) eqn:R.
      * apply Z.ltb_lt in R. split; [discriminate | lia].
      * apply Z.ltb_ge in R.
        destruct (PyStr.findall_letters question) as [|w ws] eqn:F.
        -- apply findall_letters_nil in F. simpl. rewrite F.
           split; [discriminate | intros (_ & _ & H); discriminate].
        -- assert (H : has_ascii_letter question = true).
           { destruct (has_ascii_letter question) eqn:G; [reflexivity|].
             apply findall_letters_nil in G. congruence. }
           replace (Z.of_nat (List.length (w :: ws)) =? 0) with false
             by (symmetry; apply Z.eqb_neq; simpl; lia).
           tauto.
Qed.

(** A question of accented letters only is alphabetic and long enough but
    holds no ASCII letter: it is not valid. *)
Example is_valid_question_accented :
  let q := String "233" (String "224" (String "252" "")) in
  PyStr.count_chars PyStr.isalpha q = 3
  /\ QAEngine._is_valid_question q = false.
Proof. split; reflexivity. Qed.

Section AnswerShape.

Variables (m : Models.t) (question context : string)
          (max_answer_length : Z).

Lemma answer_question_shape (self : QAEngine.t) (tr : list event) :
  exists a calls,
    QAEngine.answer_question m question context max_answer_length self tr
    = (Returned a, self, tr ++ Call_answer_question question context :: calls)
    /\ In calls (pipeline_calls question (truncated_context context)
                   max_answer_length).
Proof.
  unfold QAEngine.answer_question, QAEngine.answer_question_with.
  unfold truncated_context, pipeline_calls.
  unfold try_except, bind, emit, QAEngine.call_qa_pipeline, bind, emit,
    lift, ret.
  destruct (PyStr.is_empty context
            || (PyStr.len (PyStr.strip context) <? 50)).
  - exists QAEngine.insufficient_context, []. split; [reflexivity|].
    now left.
  - repeat match goal with
           | |- context [match ?c with Returned _ => _ | Raised _ => _ end] =>
               destruct c
           | |- context [if ?c then _ else _] => destruct c
           end;
      eexists; eexists;
      (split; [rewrite <- ?app_assoc; reflexivity | simpl; tauto]).
Qed.

Lemma truncated_context_words :
  QAEngine.word_count (truncated_context context) <= 2048.
Proof.
  unfold truncated_context.
  destruct (2048 <? QAEngine.word_count context) eqn:E.
  - unfold QAEngine.word_count, PyStr.list_upto.
    rewrite split_join.
    + rewrite length_firstn. lia.
    + apply Forall_firstn', split_words.
  - apply Z.ltb_ge in E. exact E.
Qed.

End AnswerShape.

(** X20: [answer_question] leaves the engine as it was and calls the
    pipeline at most twice: not at all, once, or once and then once more
    with [top_k = 1]; both calls carry the same context, which holds at
    most 2048 words. *)
Theorem answer_question_calls (m : Models.t) (question context : string)
    (max_answer_length : Z) (self : QAEngine.t) (tr : list event) :
  QAEngine.word_count (truncated_context context) <= 2048
  /\ exists a calls,
       QAEngine.answer_question m question context max_answer_length self tr
       = (Returned a, self,
          tr ++ Call_answer_question question context :: calls)
       /\ (calls = []
           \/ calls = [Call_qa_pipeline question (truncated_context context)
                         max_answer_length None]
           \/ calls = [Call_qa_pipeline question (truncated_context context)
                         max_answer_length None;
                       Call_qa_pipeline question (truncated_context context)
                         max_answer_length (Some 1)]).
Proof.
  split; [apply truncated_context_words|].
  destruct (answer_question_shape m question context max_answer_length
              self tr) as (a & calls & E & Hin).
  exists a, calls. split; [exact E|].
  unfold pipeline_calls in Hin. simpl in Hin.
  intuition (subst; auto).
Qed.

Section QueryShape.

Variable m : Models.t.

Lemma search_similar_chunks_pure (query : string) (top_k : Z)
    (self : QAEngine.t) (tr : list event) :
  snd (fst (QAEngine.search_similar_chunks m query top_k self tr)) = self.
Proof.
  destruct (QAEngine.text_chunks self) as [|c cs] eqn:E.
  - unfold QAEngine.search_similar_chunks, bind, emit, get. now rewrite E.
  - rewrite search_similar_chunks_eq by (rewrite E; discriminate). cbv zeta.
    destruct (Models.encode m query); [|reflexivity].
    destruct (QAEngine.embeddings self); [|reflexivity].
    destruct (Models.topk _ _); [|reflexivity].
    apply collect_results_pure.
Qed.

Lemma search_similar_chunks_at_most (query : string) (top_k : Z)
    (self self' : QAEngine.t) (tr tr' : list event)
    (res : list (string * Q)) :
  QAEngine.search_similar_chunks m query top_k self tr
  = (Returned res, self', tr') ->
  Z.of_nat (List.length res) <= Z.max 0 top_k
  /\ non_increasing (map snd res).
Proof.
  destruct (QAEngine.text_chunks self) as [|c cs] eqn:E.
  - unfold QAEngine.search_similar_chunks, bind, emit, get. rewrite E.
    simpl. unfold ret. intro H. inversion H; subst. simpl. split; [lia|exact I].
  - rewrite search_similar_chunks_eq by (rewrite E; discriminate). cbv zeta.
    destruct (Models.encode m query); [|discriminate].
    destruct (QAEngine.embeddings self); [|discriminate].
    destruct (Models.topk _ _) as [top|] eqn:T; [|discriminate].
    intro H. apply collect_results_returned in H as (H1 & _ & _).
    apply topk_returned in T as (T1 & T2 & _).
    split.
    + rewrite <- (length_map snd), H1, length_map. lia.
    + now rewrite H1.
Qed.

Lemma process_query_shape (question : string) (top_k : Z)
    (self self' : QAEngine.t) (tr tr' : list event)
    (o : outcome QAEngine.QueryResult) :
  QAEngine.process_query m question top_k self tr = (o, self', tr') ->
  self' = self
  /\ forall r,
       o = Returned r ->
       r.(QAEngine.question) = question
       /\ (List.length r.(QAEngine.relevant_chunks) <= 3)%nat
       /\ non_increasing (map snd r.(QAEngine.relevant_chunks)).
Proof.
  unfold QAEngine.process_query.
  destruct (negb (QAEngine._is_valid_question question)).
  { unfold ret. intro H. inversion H; subst. split; [reflexivity|].
    intros r Hr. inversion Hr; subst. simpl.
    split; [reflexivity | split; [lia | exact I]]. }
  unfold bind at 1. unfold get at 1.
  destruct (Z.of_nat (List.length (QAEngine.text_chunks self)) =? 0).
  { unfold ret. intro H. inversion H; subst. split; [reflexivity|].
    intros r Hr. inversion Hr; subst. simpl.
    split; [reflexivity | split; [lia | exact I]]. }
  unfold bind at 1.
  pose proof (search_similar_chunks_pure question (Z.min 3 top_k) self tr)
    as Hp.
  destruct (QAEngine.search_similar_chunks m question (Z.min 3 top_k)
              self tr) as [[[res|e] s1] t1] eqn:S;
    cbn [fst snd] in Hp; subst s1.
  2:{ intro H. inversion H; subst. split; [reflexivity | discriminate]. }
  apply search_similar_chunks_at_most in S as [S1 S2].
  destruct res as [|r0 res].
  { unfold ret. intro H. inversion H; subst. split; [reflexivity|].
    intros r Hr. inversion Hr; subst. simpl.
    split; [reflexivity | split; [lia | exact I]]. }
  unfold bind at 1.
  destruct (answer_question_shape m question
              (PyStr.join " " (map fst (r0 :: res))) 500 self t1)
    as (a & calls & E & _).
  rewrite E. unfold ret. intro H. inversion H; subst.
  split; [reflexivity|].
  intros r Hr. inversion Hr; subst.
  cbn [QAEngine.question QAEngine.relevant_chunks].
  split; [reflexivity | split; [lia | exact S2]].
Qed.

End QueryShape.

(** X21: [process_query] never changes the engine, whether it returns or
    raises.  What it returns repeats the question and lists at most 3
    relevant chunks, whatever [top_k] asks for, in non-increasing order
    of similarity. *)
Theorem process_query_read_only (m : Models.t) (question : string)
    (top_k : Z) (self : QAEngine.t) (tr : list event) :
  snd (fst (QAEngine.process_query m question top_k self tr)) = self
  /\ match fst (fst (QAEngine.process_query m question top_k self tr)) with
     | Returned r =>
         r.(QAEngine.question) = question
         /\ (List.length r.(QAEngine.relevant_chunks) <= 3)%nat
         /\ non_increasing (map snd r.(QAEngine.relevant_chunks))
     | Raised _ => True
     end.
Proof.
  destruct (QAEngine.process_query m question top_k self tr)
    as [[o s'] t'] eqn:E.
  destruct (process_query_shape m question top_k self s' tr t' o E)
    as [H1 H2].
  cbn [fst snd]. split; [exact H1|].
  destruct o as [r|e]; [now apply H2 | exact I].
Qed.

Example process_query_top_k_clamped :
  List.length
    (match fst (fst (QAEngine.process_query toy_models
                       "Which chunk is long?" 10
                       {| QAEngine.text_chunks := ["a"; "bb"; "ccc"; "dddd"];
                          QAEngine.embeddings :=
                            Some [[1 # 1]; [2 # 1]; [3 # 1]; [4 # 1]] |} []))
     with
     | Returned r => r.(QAEngine.relevant_chunks)
     | Raised _ => []
     end)
  = 3%nat.
Proof. vm_compute. reflexivity. Qed.

(** ** Sentences and the fallback answer *)

Section SplitSep.

Lemma prefix_cons (sep : string) (c : ascii) (s : string) :
  sep <> "" ->
  String.prefix sep (String c s) = true ->
  exists sep' rest, sep = String c sep' /\ s = (sep' ++ rest)%string.
Proof.
  destruct sep as [|a sep']; [congruence|]. intros _.
  cbn [String.prefix].
  destruct (ascii_dec a c) as [<-|]; [|discriminate].
  revert s. induction sep' as [|b sep' IH]; intros s H.
  - exists "", s. now split.
  - destruct s as [|d s]; cbn [String.prefix] in H; [discriminate|].
    destruct (ascii_dec b d) as [<-|]; [|discriminate].
    destruct (IH s H) as (sep2 & rest & E1 & E2).
    injection E1 as <-. exists (String b sep'), rest. split; [reflexivity|].
    simpl. now rewrite E2.
Qed.

Lemma string_length_append (a b : string) :
  String.length (a ++ b) = (String.length a + String.length b)%nat.
Proof. induction a as [|c a IH]; simpl; [reflexivity | now rewrite IH]. Qed.

Lemma split_sep_from_skip (sep a rest cur : string) :
  PyStr.split_sep_from sep (String.length a) cur (a ++ rest)
  = PyStr.split_sep_from sep 0 cur rest.
Proof.
  induction a as [|c a IH]; simpl; [|exact IH].
  destruct rest; reflexivity.
Qed.

Lemma split_sep_from_not_nil (sep : string) (skip : nat) (cur s : string) :
  PyStr.split_sep_from sep skip cur s <> [].
Proof.
  revert skip cur; induction s as [|c s IH]; intros skip cur; simpl;
    [discriminate|].
  destruct skip; [|apply IH].
  match goal with |- context [if ?b then _ else _] => destruct b end;
    [discriminate | apply IH].
Qed.

Lemma join_cons (sep x : string) (l : list string) :
  l <> [] ->
  PyStr.join sep (x :: l) = (x ++ sep ++ PyStr.join sep l)%string.
Proof. destruct l; [congruence | reflexivity]. Qed.

(** [sep.join(s.split(sep))] is [s]. *)
Lemma join_split_sep_from (sep : string) (n : nat) :
  sep <> "" ->
  forall s cur,
    (String.length s <= n)%nat ->
    PyStr.join sep (PyStr.split_sep_from sep 0 cur s) = (cur ++ s)%string.
Proof.
  intro Hsep. induction n as [|n IH]; intros s cur Hn.
  - destruct s; [|simpl in Hn; lia]. simpl. now rewrite append_empty_r.
  - destruct s as [|c s']; [simpl; now rewrite append_empty_r|].
    cbn [PyStr.split_sep_from].
    destruct (String.prefix sep (String c s')) eqn:P.
    + destruct (prefix_cons sep c s' Hsep P) as (sep' & rest & E1 & E2).
      assert (L : (String.length sep - 1)%nat = String.length sep')
        by (rewrite E1; simpl; lia).
      rewrite L, E2, split_sep_from_skip.
      rewrite join_cons by apply split_sep_from_not_nil.
      rewrite IH.
      * rewrite E1. reflexivity.
      * simpl in Hn. rewrite E2, string_length_append in Hn. lia.
    + rewrite IH by (simpl in Hn; lia).
      now rewrite append_assoc.
Qed.

Lemma join_split_sep (sep s : string) :
  sep <> "" -> PyStr.join sep (PyStr.split_sep sep s) = s.
Proof.
  intro H. unfold PyStr.split_sep.
  now rewrite (join_split_sep_from sep (String.length s) H).
Qed.

End SplitSep.

(** X22: for a context of fewer than four sentences the fallback answer is
    the context itself when it is one sentence, and the context followed
    by a period when it is two or three: splitting on [". "] and joining
    with [". "] gives the context back. *)
Theorem generate_fallback_answer_short (context question : string) :
  (List.length (QAEngine.sentences_of context) < 4)%nat ->
  QAEngine._generate_fallback_answer context question
  = if (List.length (QAEngine.sentences_of context) <? 2)%nat
    then context
    else (context ++ ".")%string.
Proof.
  intro H. unfold QAEngine._generate_fallback_answer.
  replace (4 <=? Z.of_nat (List.length (QAEngine.sentences_of context)))
    with false by (symmetry; apply Z.leb_gt; lia).
  destruct (List.length (QAEngine.sentences_of context) <? 2)%nat eqn:E.
  - apply Nat.ltb_lt in E.
    replace (2 <=? Z.of_nat (List.length (QAEngine.sentences_of context)))
      with false by (symmetry; apply Z.leb_gt; lia).
    reflexivity.
  - apply Nat.ltb_ge in E.
    replace (2 <=? Z.of_nat (List.length (QAEngine.sentences_of context)))
      with true by (symmetry; apply Z.leb_le; lia).
    unfold QAEngine.sentences_of.
    now rewrite join_split_sep by discriminate.
Qed.

Lemma generate_fallback_answer_short_witness :
  QAEngine._generate_fallback_answer paris_context "Where?"
  = if (List.length (QAEngine.sentences_of paris_context) <? 2)%nat
    then paris_context
    else (paris_context ++ ".")%string.
Proof.
  apply (generate_fallback_answer_short paris_context "Where?").
  vm_compute. lia.
Defined.

(** ** The remaining handlers *)

Section AskQuestion.

Variable m : Models.t.

Lemma set_qa_engine_same (app : Main.App) :
  Main.set_qa_engine app.(Main.qa_engine) app = app.
Proof. now destruct app. Qed.

Lemma ask_question_shape (question : string) (top_k : Z) (app : Main.App)
    (tr : list event) (o : outcome QAEngine.QueryResult) (app' : Main.App)
    (tr' : list event) :
  Main.ask_question m question top_k app tr = (o, app', tr') ->
  app' = app
  /\ (PyStr.is_empty (PyStr.strip question) = true
      \/ has_ascii_letter question = false ->
      tr' = tr /\ exists detail, o = Raised (HTTPException 500 detail))
  /\ (forall e, o = Raised e -> exists detail, e = HTTPException 500 detail)
  /\ (forall r,
         o = Returned r ->
         QAEngine.process_query m question top_k app.(Main.qa_engine) tr
         = (Returned r, app.(Main.qa_engine), tr')).
Proof.
  unfold Main.ask_question, Main.or_500, try_except.
  destruct (PyStr.is_empty (PyStr.strip question)) eqn:B.
  { unfold raise. intro H. inversion H; subst.
    split; [reflexivity | split; [eauto | split]].
    - intros e He. inversion He. eauto.
    - discriminate. }
  destruct (PyStr.findall_letters question) as [|w ws] eqn:F.
  { simpl. unfold raise. intro H. inversion H; subst.
    split; [reflexivity | split; [eauto | split]].
    - intros e He. inversion He. eauto.
    - discriminate. }
  assert (L : has_ascii_letter question = true).
  { destruct (has_ascii_letter question) eqn:G; [reflexivity|].
    apply findall_letters_nil in G. congruence. }
  replace (Z.of_nat (List.length (w :: ws)) =? 0) with false
    by (symmetry; apply Z.eqb_neq; simpl; lia).
  unfold Main.on_qa_engine, zoom, bind, ret, raise.
  pose proof (process_query_shape m question top_k (Main.qa_engine app))
    as Hs.
  destruct (QAEngine.process_query m question top_k (Main.qa_engine app) tr)
    as [[[r|e] s1] t1] eqn:P;
    destruct (Hs s1 tr t1 _ P) as [-> _];
    rewrite set_qa_engine_same; intro H; inversion H; subst;
    (split; [reflexivity | split; [|split]]).
  - intros [C|C]; congruence.
  - discriminate.
  - intros r' Hr. now inversion Hr; subst.
  - intros [C|C]; congruence.
  - intros e' He. inversion He. eauto.
  - discriminate.
Qed.

End AskQuestion.

(** X23: [ask_question] never changes the application state, and every
    exception that leaves it has status 500.  A question that is blank or
    holds no ASCII letter is turned down before the engine is entered, so
    no model is called for it; when [ask_question] returns, its data is
    what [process_query] returns on the engine. *)
Theorem ask_question_behaviour (m : Models.t) (question : string)
    (top_k : Z) (app : Main.App) (tr : list event) :
  let r := Main.ask_question m question top_k app tr in
  snd (fst r) = app
  /\ (PyStr.is_empty (PyStr.strip question) = true
      \/ has_ascii_letter question = false ->
      snd r = tr
      /\ exists detail, fst (fst r) = Raised (HTTPException 500 detail))
  /\ match fst (fst r) with
     | Raised e => exists detail, e = HTTPException 500 detail
     | Returned d =>
         QAEngine.process_query m question top_k app.(Main.qa_engine) tr
         = (Returned d, app.(Main.qa_engine), snd r)
     end.
Proof.
  intro r. subst r.
  destruct (Main.ask_question m question top_k app tr)
    as [[o app'] tr'] eqn:E.
  destruct (ask_question_shape m question top_k app tr o app' tr' E)
    as (H1 & H2 & H3 & H4).
  cbn [fst snd]. split; [exact H1 | split; [exact H2|]].
  destruct o as [d|e]; [now apply H4 | now apply H3].
Qed.

Lemma ask_question_behaviour_witness :
  snd (Main.ask_question toy_models "12345 ???" 3 Main.startup []) = []
  /\ exists detail,
       fst (fst (Main.ask_question toy_models "12345 ???" 3 Main.startup []))
       = Raised (HTTPException 500 detail).
Proof.
  apply (ask_question_behaviour toy_models "12345 ???" 3 Main.startup []).
  right. reflexivity.
Defined.

Section CorpusMatches.

Variable m : Models.t.

Lemma flat_map_chunks_set_fresh (k : string) (d : PDFProcessor.Document)
    (docs : list (string * PDFProcessor.Document)) :
  Dict.mem k docs = false ->
  flat_map PDFProcessor.chunks (Dict.values (Dict.set k d docs))
  = flat_map PDFProcessor.chunks (Dict.values docs)
      ++ d.(PDFProcessor.chunks).
Proof.
  intro H. rewrite dict_set_fresh_values by assumption.
  rewrite flat_map_app. simpl. now rewrite app_nil_r.
Qed.

Lemma handle_corpus_matches (r : Main.request) (app : Main.App)
    (tr : list event) :
  corpus_matches app ->
  (forall filename content,
      r = Main.Upload filename content ->
      Dict.mem filename app.(Main.pdf_processor).(PDFProcessor.documents)
      = false) ->
  corpus_matches (snd (fst (Main.handle m r app tr))).
Proof.
  intros Hc Hfresh.
  destruct r as [filename content | doc_name |].
  - specialize (Hfresh filename content eq_refl).
    rewrite handle_eq_upload, upload_pdf_eq.
    destruct (negb (PyStr.endswith filename ".pdf")); [exact Hc|].
    cbv zeta.
    destruct content as [[raw|msg] | msg | msg partial];
      [|exact Hc|exact Hc|exact Hc].
    assert (G : forall es,
               corpus_matches
                 {| Main.files :=
                      Dict.set (Main.path_join Main.UPLOAD_DIR filename)
                        (PDFProcessor.Readable raw) (Main.files app);
                    Main.pdf_processor :=
                      {| PDFProcessor.documents :=
                           Dict.set filename
                             {| PDFProcessor.path :=
                                  Main.path_join Main.UPLOAD_DIR filename;
                                PDFProcessor.chunks :=
                                  PDFProcessor.chunk_text
                                    (Main.pdf_processor app)
                                    (PDFProcessor._clean_text raw) None None;
                                PDFProcessor.full_text :=
                                  PDFProcessor._clean_text raw |}
                             (PDFProcessor.documents
                                (Main.pdf_processor app));
                         PDFProcessor.text_chunks :=
                           PDFProcessor.text_chunks (Main.pdf_processor app)
                             ++ PDFProcessor.chunk_text
                                  (Main.pdf_processor app)
                                  (PDFProcessor._clean_text raw) None None;
                         PDFProcessor.chunk_size :=
                           PDFProcessor.chunk_size (Main.pdf_processor app);
                         PDFProcessor.overlap :=
                           PDFProcessor.overlap (Main.pdf_processor app) |};
                    Main.qa_engine :=
                      {| QAEngine.text_chunks :=
                           QAEngine.text_chunks (Main.qa_engine app)
                             ++ PDFProcessor.chunk_text
                                  (Main.pdf_processor app)
                                  (PDFProcessor._clean_text raw) None None;
                         QAEngine.embeddings := es |} |}).
    { intro es. unfold corpus_matches in *.
      cbn [Main.pdf_processor Main.qa_engine PDFProcessor.documents
           QAEngine.text_chunks].
      rewrite flat_map_chunks_set_fresh by assumption.
      now rewrite Hc. }
    destruct (Models.encode_all m _); apply G.
  - cbn [Main.handle]. rewrite delete_document_eq. cbv zeta.
    destruct (negb (Dict.mem doc_name _)); [exact Hc|].
    cbn [PDFProcessor.documents].
    destruct (flat_map PDFProcessor.chunks _) as [|c cs] eqn:F.
    + unfold corpus_matches.
      cbn [fst snd Main.pdf_processor Main.qa_engine PDFProcessor.documents
           QAEngine.text_chunks].
      now rewrite F.
    + destruct (Models.encode_all m (c :: cs)); unfold corpus_matches;
        cbn [fst snd Main.pdf_processor Main.qa_engine
             PDFProcessor.documents QAEngine.text_chunks];
        now rewrite F.
  - cbn [Main.handle]. rewrite clear_all_eq. reflexivity.
Qed.

Lemma length_flat_map_chunks (docs : list (string * PDFProcessor.Document)) :
  Z.of_nat (List.length (flat_map PDFProcessor.chunks (Dict.values docs)))
  = fold_right Z.add 0
      (map (fun e => fst (snd e))
         (map (fun '(doc_name, doc_data) =>
                 (doc_name,
                  (Z.of_nat (List.length doc_data.(PDFProcessor.chunks)),
                   PyStr.len doc_data.(PDFProcessor.full_text))))
              docs)).
Proof.
  induction docs as [|[k d] docs IH]; simpl; [reflexivity|].
  rewrite length_app, <- IH. lia.
Qed.

End CorpusMatches.

(** X24: every request keeps the engine's corpus equal to the chunks of
    the stored documents, in order, whether its handler returns or raises,
    unless it is an upload under a name that is already stored. *)
Theorem corpus_matches_preserved (m : Models.t) (r : Main.request)
    (app : Main.App) (tr : list event) :
  corpus_matches app ->
  (forall filename content,
      r = Main.Upload filename content ->
      Dict.mem filename app.(Main.pdf_processor).(PDFProcessor.documents)
      = false) ->
  corpus_matches (snd (fst (Main.handle m r app tr))).
Proof. apply handle_corpus_matches. Qed.

Lemma corpus_matches_preserved_witness :
  corpus_matches
    (snd (fst (Main.handle failing_models
                 (Main.Upload "a.pdf" (Main.Saved (PDFProcessor.Readable "x y")))
                 Main.startup []))).
Proof.
  apply (corpus_matches_preserved failing_models
           (Main.Upload "a.pdf" (Main.Saved (PDFProcessor.Readable "x y")))
           Main.startup []).
  - reflexivity.
  - intros filename content _. reflexivity.
Defined.

(** X25: [get_documents] changes nothing and reports as many documents as
    [health_check] counts; when the engine's corpus matches the stored
    documents, the [chunks_indexed] of [health_check] is the sum of the
    chunk counts [get_documents] reports. *)
Theorem health_check_counts (app : Main.App) (tr : list event) :
  exists documents,
    Main.get_documents app tr
    = (Returned (Z.of_nat (List.length documents), documents), app, tr)
    /\ fst (Main.health_check app) = Z.of_nat (List.length documents)
    /\ (corpus_matches app ->
        snd (Main.health_check app)
        = fold_right Z.add 0 (map (fun e => fst (snd e)) documents)).
Proof.
  exists (PDFProcessor.get_document_info app.(Main.pdf_processor)).
  split; [reflexivity | split].
  - unfold Main.health_check, PDFProcessor.get_document_info. simpl.
    now rewrite length_map.
  - intro Hc. unfold Main.health_check. cbn [snd]. rewrite Hc.
    apply length_flat_map_chunks.
Qed.

Lemma health_check_counts_witness :
  let app :=
    snd (fst (Main.serve toy_models
                [Main.Upload "a.pdf" (Main.Saved (PDFProcessor.Readable "alpha beta"));
                 Main.Upload "b.pdf" (Main.Saved (PDFProcessor.Readable "gamma"))]
                Main.startup [])) in
  exists documents,
    Main.get_documents app []
    = (Returned (Z.of_nat (List.length documents), documents), app, [])
    /\ fst (Main.health_check app) = Z.of_nat (List.length documents)
    /\ snd (Main.health_check app)
       = fold_right Z.add 0 (map (fun e => fst (snd e)) documents).
Proof.
  intro app.
  destruct (health_check_counts app []) as (documents & H1 & H2 & H3).
  exists documents. split; [exact H1 | split; [exact H2|]].
  apply H3. reflexivity.
Defined.

(** ** File names *)

Section FileNames.

Lemma lower_length (s : string) :
  String.length (FileHandler.lower s) = String.length s.
Proof. induction s as [|c s IH]; simpl; [reflexivity | now rewrite IH]. Qed.

Lemma lower_substring (s : string) :
  forall n k,
    String.substring n k (FileHandler.lower s)
    = FileHandler.lower (String.substring n k s).
Proof.
  induction s as [|c s IH]; intros n k.
  - destruct n, k; reflexivity.
  - destruct n as [|n]; simpl.
    + destruct k as [|k]; [reflexivity|]. simpl. now rewrite IH.
    + apply IH.
Qed.

End FileNames.

(** X26: every file name [upload_pdf] lets through (it ends in [.pdf]) is
    a PDF file name for [is_pdf_file]; [is_pdf_file] also takes names
    such as [REPORT.PDF], which [upload_pdf] turns down. *)
Theorem is_pdf_file_accepts_uploads (filename : string) :
  (PyStr.endswith filename ".pdf" = true ->
   FileHandler.is_pdf_file filename = true)
  /\ FileHandler.is_pdf_file "REPORT.PDF" = true
  /\ PyStr.endswith "REPORT.PDF" ".pdf" = false.
Proof.
  split; [|split; reflexivity].
  unfold FileHandler.is_pdf_file, PyStr.endswith.
  rewrite lower_length. intro H.
  apply andb_prop in H as [H1 H2]. rewrite H1. cbn [andb].
  rewrite lower_substring. apply String.eqb_eq in H2. now rewrite H2.
Qed.

Lemma is_pdf_file_accepts_uploads_witness :
  FileHandler.is_pdf_file "paris.pdf" = true.
Proof.
  exact (proj1 (is_pdf_file_accepts_uploads "paris.pdf") eq_refl).
Defined.

(** ** The number of chunks *)

Section ChunkCount.

Variables cs ov : Z.
Hypothesis ov_pos : 0 < ov.
Hypothesis ov_lt : ov < cs.

Lemma list_from_neg_len {A : Type} (l : list A) :
  Z.of_nat (List.length (PyStr.list_from (- ov) l))
  = Z.min (Z.of_nat (List.length l)) ov.
Proof.
  unfold PyStr.list_from.
  replace (- ov <? 0) with true by (symmetry; apply Z.ltb_lt; lia).
  rewrite length_skipn. lia.
Qed.

Lemma chunk_loop_words_count (words : list string) :
  forall k chunks cur,
    count_inv cs ov k chunks cur ->
    count_inv cs ov (k + Z.of_nat (List.length words))
      (fst (chunk_loop_words cs ov words chunks cur))
      (snd (chunk_loop_words cs ov words chunks cur)).
Proof.
  induction words as [|w rest IH]; intros k chunks cur H.
  { simpl. now rewrite Z.add_0_r. }
  cbn [chunk_loop_words List.length].
  replace (k + Z.of_nat (S (List.length rest)))
    with ((k + 1) + Z.of_nat (List.length rest)) by lia.
  assert (Lc : Z.of_nat (List.length (cur ++ [w]))
               = Z.of_nat (List.length cur) + 1)
    by (rewrite length_app; simpl; lia).
  destruct (Z.of_nat (List.length (cur ++ [w])) >=? cs) eqn:E; apply IH.
  - rewrite Z.geb_leb in E. apply Z.leb_le in E.
    right. destruct H as [(Hk & -> & Hl) | (q & r & Hq & Hr & Hkq & Hn & Hl)].
    + exists 0, 0. rewrite list_from_neg_len. simpl. lia.
    + exists (q + 1), 0. rewrite list_from_neg_len, length_app. simpl.
      repeat split; try lia.
  - rewrite Z.geb_leb in E. apply Z.leb_gt in E.
    destruct H as [(Hk & -> & Hl) | (q & r & Hq & Hr & Hkq & Hn & Hl)].
    + left. repeat split; lia.
    + right. exists q, (r + 1). repeat split; lia.
Qed.

Lemma chunk_words_count (words : list string) :
  let n := Z.of_nat (List.length words) in
  Z.of_nat (List.length (chunk_words cs ov words))
  = if n =? 0 then 0
    else if n <? cs then 1
    else (n - ov) / (cs - ov) + 1.
Proof.
  intro n. unfold chunk_words.
  assert (H0 : count_inv cs ov 0 [] []) by (left; repeat split; lia).
  pose proof (chunk_loop_words_count words 0 [] [] H0) as H.
  rewrite Z.add_0_l in H. fold n in H.
  destruct (chunk_loop_words cs ov words [] []) as [chunks cur].
  cbn [fst snd] in H.
  destruct H as [(Hk & -> & Hl) | (q & r & Hq & Hr & Hkq & Hn & Hl)].
  - replace (n <? cs) with true by (symmetry; apply Z.ltb_lt; lia).
    destruct (n =? 0) eqn:E0.
    + apply Z.eqb_eq in E0. destruct cur; [reflexivity | simpl in Hl; lia].
    + apply Z.eqb_neq in E0. destruct cur; simpl in *; lia.
  - assert (Hp : 0 <= q * (cs - ov)) by (apply Z.mul_nonneg_nonneg; lia).
    replace (n =? 0) with false by (symmetry; apply Z.eqb_neq; lia).
    replace (n <? cs) with false by (symmetry; apply Z.ltb_ge; lia).
    destruct cur as [|x cur]; [simpl in Hl; lia|].
    rewrite length_app, Nat2Z.inj_add, Hn. simpl.
    assert (D : (n - ov) / (cs - ov) = q + 1).
    { symmetry. apply (Z.div_unique _ _ _ r); lia. }
    lia.
Qed.

End ChunkCount.

(** X27: with an overlap in force that is positive and below the chunk
    size in force, a text of [n] words yields no chunk when [n = 0], one
    chunk when [0 < n < chunk_size], and
    [(n - overlap) / (chunk_size - overlap) + 1] chunks otherwise; a text
    of exactly [chunk_size] words yields two. *)
Theorem chunk_text_chunk_count (self : PDFProcessor.t) (text : string)
    (cs ov : option Z) :
  let c := PyStr.int_or cs self.(PDFProcessor.chunk_size) in
  let o := PyStr.int_or ov self.(PDFProcessor.overlap) in
  let n := QAEngine.word_count text in
  0 < o < c ->
  Z.of_nat (List.length (PDFProcessor.chunk_text self text cs ov))
  = if n =? 0 then 0
    else if n <? c then 1
    else (n - o) / (c - o) + 1.
Proof.
  intros c o n [H1 H2].
  rewrite chunk_text_as_words, length_map.
  exact (chunk_words_count c o H1 H2 (PyStr.split text)).
Qed.

Lemma chunk_text_chunk_count_witness :
  Z.of_nat (List.length
              (PDFProcessor.chunk_text (PDFProcessor.init 5 2)
                 "a b c d e" None None))
  = 2.
Proof.
  apply (chunk_text_chunk_count (PDFProcessor.init 5 2) "a b c d e"
           None None).
  vm_compute. split; reflexivity.
Defined.

Example chunk_text_exact_size :
  PDFProcessor.chunk_text (PDFProcessor.init 5 2) "a b c d e" None None
  = ["a b c d e"; "d e"].
Proof. vm_compute. reflexivity. Qed.
